(** * IT asset inventory: asset lifecycle, audit trail, reports and bulk import

    A shallow embedding of [assets/models.py], [assets/views.py] and
    [assets/admin.py].  The relational store is a record of finite maps
    from primary keys to rows; a request handler is a function from the
    store and the request to the new store, the response, the flash
    messages and the mails handed to the mail backend. *)

From Stdlib Require Import ZArith Ascii String.
From stdpp Require Import gmap strings list fin_maps pretty.

Open Scope string_scope.
Open Scope list_scope.
Open Scope Z_scope.

(** ** Python values the handlers rely on *)

(** [datetime.date] as its proleptic Gregorian ordinal ([date.toordinal]):
    comparison of dates is comparison of ordinals, and adding
    [timedelta(days=n)] adds [n] and raises [OverflowError] outside
    [date.min .. date.max]. *)
Definition date := Z.
Definition MINORDINAL : Z := 1.
Definition MAXORDINAL : Z := 3652059.

Definition date_add_days (d : date) (n : Z) : option date :=
  if bool_decide (MINORDINAL ≤ d + n ≤ MAXORDINAL) then Some (d + n) else None.

(** [timezone.now()] as seconds since the Unix epoch (UTC, [USE_TZ = True]
    with [TIME_ZONE = 'UTC']); [.date()] is the ordinal of that day,
    1970-01-01 having ordinal 719163. *)
Definition datetime := Z.
Definition date_of (now : datetime) : date := 719163 + now `div` 86400.

(** [str.isspace] on code points below 256. *)
Definition isspace (c : ascii) : bool :=
  let n := Z.of_N (N_of_ascii c) in
  bool_decide (9 ≤ n ≤ 13) || bool_decide (28 ≤ n ≤ 32)
  || bool_decide (n = 133) || bool_decide (n = 160).

Fixpoint lstrip (s : string) : string :=
  match s with
  | String c s' => if isspace c then lstrip s' else s
  | EmptyString => EmptyString
  end.

Definition rstrip (s : string) : string := String.rev (lstrip (String.rev s)).

(** [str.strip()] *)
Definition strip (s : string) : string := rstrip (lstrip s).

(** [str.lower()] on code points below 256: A-Z and the Latin-1 capitals. *)
Definition lower_char (c : ascii) : ascii :=
  let n := Z.of_N (N_of_ascii c) in
  if bool_decide (65 ≤ n ≤ 90) || (bool_decide (192 ≤ n ≤ 222) && negb (bool_decide (n = 215)))
  then ascii_of_N (Z.to_N (n + 32)) else c.

Fixpoint lower (s : string) : string :=
  match s with
  | String c s' => String (lower_char c) (lower s')
  | EmptyString => EmptyString
  end.

(** Truth value of a [str]: the empty string is false. *)
Definition str_truthy (s : string) : bool := negb (bool_decide (s = "")).

(** Truth value of [request.POST.get(key, False)] and of a nullable text
    field: a missing value is false. *)
Definition opt_truthy (o : option string) : bool :=
  match o with
  | Some s => str_truthy s
  | None => false
  end.

Definition digit_of (c : ascii) : option Z :=
  let n := Z.of_N (N_of_ascii c) in
  if bool_decide (48 ≤ n ≤ 57) then Some (n - 48) else None.

(** The digit part of a decimal literal: digits, single underscores only
    between digits. *)
Fixpoint int_digits (s : string) (acc : Z) (after_digit : bool) : option Z :=
  match s with
  | EmptyString => if after_digit then Some acc else None
  | String c s' =>
      match digit_of c with
      | Some d => int_digits s' (10 * acc + d) true
      | None =>
          if bool_decide (c = "_"%char) && after_digit
          then int_digits s' acc false
          else None
      end
  end.

(** [int(s)] for a [str]: [None] stands for [ValueError].  This is the
    conversion the ORM applies to a primary key given as text. *)
Definition py_int (s : string) : option Z :=
  match strip s with
  | String "-" s' => Z.opp <$> int_digits s' 0 false
  | String "+" s' => int_digits s' 0 false
  | s' => int_digits s' 0 false
  end.

(** ** models.py *)

Module Employee.
Record t := mk {
  employee_id : string;
  first_name : string;
  last_name : string;
  email : string;
  phone : option string;
  department : option Z;
  position : option string;
  is_active : bool;
  hire_date : option date;
  created_at : datetime;
  updated_at : datetime
}.

(** [__str__] *)
Definition str (self : t) : string :=
  first_name self +:+ " " +:+ last_name self +:+ " (" +:+ employee_id self +:+ ")".

Definition full_name (self : t) : string :=
  first_name self +:+ " " +:+ last_name self.
End Employee.

Module Category.
Record t := mk {
  name : string;
  description : option string;
  icon : string
}.
End Category.

Module Location.
Record t := mk {
  name : string;
  building : option string;
  floor : option string;
  room : option string;
  address : option string
}.
End Location.

Module Vendor.
Record t := mk {
  name : string;
  contact_person : option string;
  email : option string;
  phone : option string;
  website : option string;
  address : option string;
  notes : option string;
  created_at : datetime
}.
End Vendor.

(** A [DecimalField(max_digits=10, decimal_places=2)] value, in hundredths. *)
Definition decimal := Z.

Module Asset.
Record t := mk {
  asset_tag : string;
  name : string;
  description : option string;
  category : option Z;
  manufacturer : option string;
  model : option string;
  serial_number : option string;
  status : string;
  condition : string;
  location : option Z;
  assigned_to : option Z;
  assigned_date : option date;
  vendor : option Z;
  purchase_date : option date;
  purchase_cost : option decimal;
  warranty_expiry : option date;
  notes : option string;
  created_by : option Z;
  created_at : datetime;
  updated_at : datetime
}.

(** The [is_under_warranty] property; [now] is [timezone.now()].  A [date]
    object is always true, so [if self.warranty_expiry] only tests for
    [None]. *)
Definition is_under_warranty (now : datetime) (self : t) : bool :=
  match warranty_expiry self with
  | Some d => bool_decide (date_of now ≤ d)
  | None => false
  end.
End Asset.

Module AssetHistory.
Record t := mk {
  asset : Z;
  action : string;
  description : option string;
  performed_by : option Z;
  old_value : option string;
  new_value : option string;
  created_at : datetime
}.
End AssetHistory.

Module MaintenanceRecord.
Record t := mk {
  asset : Z;
  maintenance_type : string;
  status : string;
  description : string;
  scheduled_date : date;
  completed_date : option date;
  cost : option decimal;
  performed_by : option string;
  notes : option string;
  created_by : option Z;
  created_at : datetime;
  updated_at : datetime
}.
End MaintenanceRecord.

(** ** The relational store *)

(** One finite map per table, from the [BigAutoField] primary key to the
    row.  [AssetHistory] rows are never addressed by key in the handlers:
    the table is kept as the list of its rows in insertion order. *)
Record DB := mkDB {
  employees : gmap Z Employee.t;
  categories : gmap Z Category.t;
  locations : gmap Z Location.t;
  vendors : gmap Z Vendor.t;
  assets : gmap Z Asset.t;
  history : list AssetHistory.t;
  maintenance_records : list MaintenanceRecord.t
}.

(** What a handler can raise. *)
Inductive Exn :=
  | ValueError
  | OverflowError
  | DoesNotExist (model : string)
  | MultipleObjectsReturned (model : string)
  | IntegrityError (column : string)
  | SMTPException.

(** The key an [INSERT] gets: above every key in the table. *)
Definition next_pk {A} (table : gmap Z A) : Z :=
  1 + map_fold (λ k _ acc, Z.max k acc) 0 table.

Definition set_assets (tbl : gmap Z Asset.t) (db : DB) : DB :=
  mkDB (employees db) (categories db) (locations db) (vendors db) tbl
       (history db) (maintenance_records db).

Definition set_history (rows : list AssetHistory.t) (db : DB) : DB :=
  mkDB (employees db) (categories db) (locations db) (vendors db) (assets db)
       rows (maintenance_records db).

Definition set_categories (tbl : gmap Z Category.t) (db : DB) : DB :=
  mkDB (employees db) tbl (locations db) (vendors db) (assets db)
       (history db) (maintenance_records db).

Definition set_locations (tbl : gmap Z Location.t) (db : DB) : DB :=
  mkDB (employees db) (categories db) tbl (vendors db) (assets db)
       (history db) (maintenance_records db).

Definition set_vendors (tbl : gmap Z Vendor.t) (db : DB) : DB :=
  mkDB (employees db) (categories db) (locations db) tbl (assets db)
       (history db) (maintenance_records db).

(** The rows a [filter(...)] selects. *)
Definition rows_where {A} (P : A → bool) (table : gmap Z A) : list (Z * A) :=
  map_to_list (filter (λ kv, P kv.2 = true) table).

(** [Model.objects.get(...)] *)
Definition objects_get {A} (model : string) (P : A → bool) (table : gmap Z A)
  : Exn + (Z * A) :=
  match rows_where P table with
  | [] => inl (DoesNotExist model)
  | [row] => inr row
  | _ => inl (MultipleObjectsReturned model)
  end.

(** The schema constraint [asset_tag ... unique=True]. *)
Definition unique_asset_tags (table : gmap Z Asset.t) : Prop :=
  ∀ k1 k2 a1 a2,
    table !! k1 = Some a1 → table !! k2 = Some a2 →
    Asset.asset_tag a1 = Asset.asset_tag a2 → k1 = k2.

(** Rows other than [pk] that already hold the tag. *)
Definition tag_clashes (pk : option Z) (tag : string) (table : gmap Z Asset.t)
  : gmap Z Asset.t :=
  filter (λ kv, Asset.asset_tag kv.2 = tag ∧ Some kv.1 ≠ pk) table.

Definition touch (now : datetime) (adding : bool) (a : Asset.t) : Asset.t :=
  Asset.mk (Asset.asset_tag a) (Asset.name a) (Asset.description a)
    (Asset.category a) (Asset.manufacturer a) (Asset.model a)
    (Asset.serial_number a) (Asset.status a) (Asset.condition a)
    (Asset.location a) (Asset.assigned_to a) (Asset.assigned_date a)
    (Asset.vendor a) (Asset.purchase_date a) (Asset.purchase_cost a)
    (Asset.warranty_expiry a) (Asset.notes a) (Asset.created_by a)
    (if adding then now else Asset.created_at a) now.

(** [asset.save()]: an instance without a key is inserted under a new one,
    an instance with a key replaces the row under it; [auto_now] and
    [auto_now_add] stamp the row; the unique index on [asset_tag] makes the
    statement fail when another row holds the tag. *)
Definition Asset_save (now : datetime) (pk : option Z) (obj : Asset.t) (db : DB)
  : Exn + (Z * DB) :=
  if bool_decide (tag_clashes pk (Asset.asset_tag obj) (assets db) = ∅)
  then
    let k := default (next_pk (assets db)) pk in
    inr (k, set_assets (<[k := touch now (bool_decide (pk = None)) obj]> (assets db)) db)
  else inl (IntegrityError "asset_tag").

(** [AssetHistory.objects.create(...)] *)
Definition AssetHistory_create (row : AssetHistory.t) (db : DB) : DB :=
  set_history (history db ++ [row]) db.

(** ** views.py: requests, responses, messages, mail *)

(** A spreadsheet cell as the import observes it: through [str(v)], and
    through [float(v)] stored into the [purchase_cost] column ([None] when
    the conversion or the store raises). *)
Record Value := mkValue {
  as_str : string;
  as_float : option decimal
}.

(** A row of the frame, by column name; a NaN cell has no entry, so
    [pd.notna(row.get(col))] is [is_Some (row !! col)]. *)
Abbreviation Row := (gmap string Value).

(** The [DataFrame] that [pd.read_excel] returns; [iterrows] numbers the
    rows from 0. *)
Record DataFrame := mkDataFrame {
  columns : list string;
  rows : list Row
}.

(** An uploaded file: its name, and what [pd.read_excel(file)] makes of it
    (an exception when pandas is missing or cannot parse the file). *)
Record UploadedFile := mkUploadedFile {
  file_name : string;
  read_excel : Exn + DataFrame
}.

(** The request method; every method other than [POST] takes the path
    written here for [GET]. *)
Inductive Method := GET | POST.

Record Request := mkRequest {
  method : Method;
  (** [request.user] when the session is authenticated *)
  user : option Z;
  (** [request.POST] *)
  POST_data : gmap string string;
  (** [request.FILES] *)
  FILES : gmap string UploadedFile
}.

Inductive Route :=
  | login
  | asset_detail (pk : Z)
  | asset_list
  | bulk_import_page.

Inductive Response :=
  | Redirect (to : Route)
  | Render (template : string)
  | Http404
  | ServerError (e : Exn).

Inductive Level := success | warning | error | info.

(** A flash message: its literal text, and the exception whose [str(e)] the
    source appends, if any. *)
Record Message := mkMessage {
  level : Level;
  text : string;
  detail : option Exn
}.

(** A call of [send_mail]; the body text is not modelled. *)
Record Email := mkEmail {
  subject : string;
  recipient_list : list string
}.

(** What a handler needs from outside the store: the clock, and whether the
    mail backend accepts a message ([send_mail(..., fail_silently=False)]
    raises otherwise). *)
Record Env := mkEnv {
  now : datetime;
  mail_up : bool
}.

Record Outcome := mkOutcome {
  store : DB;
  response : Response;
  messages : list Message;
  outbox : list Email
}.

(** [@login_required]: an anonymous request is sent to [LOGIN_URL] and the
    view does not run. *)
Definition login_required (db : DB) (request : Request) (view : Z → Outcome)
  : Outcome :=
  match user request with
  | Some u => view u
  | None => mkOutcome db (Redirect login) [] []
  end.

(** Reading a nullable foreign key to [Employee] on a loaded instance:
    [None] when the column is null, the row otherwise. *)
Definition related_employee (db : DB) (fk : option Z) : Exn + option Employee.t :=
  match fk with
  | None => inr None
  | Some k =>
      match employees db !! k with
      | Some e => inr (Some e)
      | None => inl (DoesNotExist "Employee")
      end
  end.

Definition send_assignment_email (asset : Asset.t) (employee : Employee.t) : Email :=
  mkEmail ("Asset Assigned: " +:+ Asset.asset_tag asset) [Employee.email employee].

Definition send_unassignment_email (asset : Asset.t) (employee : Employee.t) : Email :=
  mkEmail ("Asset Returned: " +:+ Asset.asset_tag asset) [Employee.email employee].

Definition assigned (now : datetime) (employee : Z) (a : Asset.t) : Asset.t :=
  Asset.mk (Asset.asset_tag a) (Asset.name a) (Asset.description a)
    (Asset.category a) (Asset.manufacturer a) (Asset.model a)
    (Asset.serial_number a) "assigned" (Asset.condition a)
    (Asset.location a) (Some employee) (Some (date_of now))
    (Asset.vendor a) (Asset.purchase_date a) (Asset.purchase_cost a)
    (Asset.warranty_expiry a) (Asset.notes a) (Asset.created_by a)
    (Asset.created_at a) (Asset.updated_at a).

Definition unassigned (a : Asset.t) : Asset.t :=
  Asset.mk (Asset.asset_tag a) (Asset.name a) (Asset.description a)
    (Asset.category a) (Asset.manufacturer a) (Asset.model a)
    (Asset.serial_number a) "available" (Asset.condition a)
    (Asset.location a) None None
    (Asset.vendor a) (Asset.purchase_date a) (Asset.purchase_cost a)
    (Asset.warranty_expiry a) (Asset.notes a) (Asset.created_by a)
    (Asset.created_at a) (Asset.updated_at a).

Definition assign_asset (env : Env) (db : DB) (request : Request) (pk : Z)
  : Outcome :=
  login_required db request (λ u,
    match assets db !! pk with
    | None => mkOutcome db Http404 [] []
    | Some asset =>
      let form := mkOutcome db (Render "assets/assign_asset.html") [] [] in
      match method request with
      | GET => form
      | POST =>
        let employee_id := POST_data request !! "employee_id" in
        let send_email := POST_data request !! "send_email" in
        match employee_id with
        | None => form
        | Some employee_id =>
          if str_truthy employee_id then
            match py_int employee_id with
            | None => mkOutcome db (ServerError ValueError) [] []
            | Some epk =>
              match employees db !! epk with
              | None => mkOutcome db Http404 [] []
              | Some employee =>
                match related_employee db (Asset.assigned_to asset) with
                | inl e => mkOutcome db (ServerError e) [] []
                | inr old_assignee =>
                  let asset := assigned (now env) epk asset in
                  match Asset_save (now env) (Some pk) asset db with
                  | inl e => mkOutcome db (ServerError e) [] []
                  | inr (_, db) =>
                    let db := AssetHistory_create
                      (AssetHistory.mk pk "assigned"
                         (Some ("Asset assigned to " +:+ Employee.full_name employee))
                         (Some u)
                         (Some (match old_assignee with
                                | Some old => Employee.str old
                                | None => "None"
                                end))
                         (Some (Employee.full_name employee))
                         (now env)) db in
                    if opt_truthy send_email && str_truthy (Employee.email employee) then
                      if mail_up env then
                        mkOutcome db (Redirect (asset_detail pk))
                          [mkMessage success
                             ("Asset assigned and email sent to " +:+ Employee.email employee)
                             None]
                          [send_assignment_email asset employee]
                      else
                        mkOutcome db (Redirect (asset_detail pk))
                          [mkMessage warning "Asset assigned but email failed: "
                             (Some SMTPException)]
                          []
                    else
                      mkOutcome db (Redirect (asset_detail pk))
                        [mkMessage success
                           ("Asset " +:+ Asset.asset_tag asset +:+ " assigned to "
                            +:+ Employee.full_name employee)
                           None]
                        []
                  end
                end
              end
            end
          else form
        end
      end
    end).

Definition unassign_asset (env : Env) (db : DB) (request : Request) (pk : Z)
  : Outcome :=
  login_required db request (λ u,
    match assets db !! pk with
    | None => mkOutcome db Http404 [] []
    | Some asset =>
      match method request with
      | GET => mkOutcome db (Render "assets/unassign_asset.html") [] []
      | POST =>
        let send_email := POST_data request !! "send_email" in
        match related_employee db (Asset.assigned_to asset) with
        | inl e => mkOutcome db (ServerError e) [] []
        | inr None => mkOutcome db (Redirect (asset_detail pk)) [] []
        | inr (Some old_assignee) =>
          let asset := unassigned asset in
          match Asset_save (now env) (Some pk) asset db with
          | inl e => mkOutcome db (ServerError e) [] []
          | inr (_, db) =>
            let db := AssetHistory_create
              (AssetHistory.mk pk "unassigned"
                 (Some ("Asset unassigned from " +:+ Employee.full_name old_assignee))
                 (Some u)
                 (Some (Employee.full_name old_assignee))
                 (Some "None")
                 (now env)) db in
            if opt_truthy send_email && str_truthy (Employee.email old_assignee) then
              if mail_up env then
                mkOutcome db (Redirect (asset_detail pk))
                  [mkMessage success "Asset unassigned and email sent" None]
                  [send_unassignment_email asset old_assignee]
              else
                mkOutcome db (Redirect (asset_detail pk))
                  [mkMessage warning "Asset unassigned but email failed: "
                     (Some SMTPException)]
                  []
            else
              mkOutcome db (Redirect (asset_detail pk))
                [mkMessage success
                   ("Asset " +:+ Asset.asset_tag asset +:+ " has been unassigned")
                   None]
                []
          end
        end
      end
    end).

(** ** views.py: bulk import *)

(** A computation on the store that may raise; what was written before the
    exception stays written (autocommit, no transaction around a row). *)
Definition M (A : Type) : Type := DB → DB * (Exn + A).

Definition ret {A} (a : A) : M A := λ db, (db, inr a).

Definition raise {A} (e : Exn) : M A := λ db, (db, inl e).

Definition bind {A B} (m : M A) (f : A → M B) : M B :=
  λ db, match m db with
        | (db', inr a) => f a db'
        | (db', inl e) => (db', inl e)
        end.

Notation "'let!' x := m 'in' k" := (bind m (λ x, k))
  (at level 10, x pattern, m at level 100, k at level 200, only parsing).

(** [Model.objects.get_or_create(...)] on one table: the row found, or a
    new row under a new key. *)
Definition get_or_create {A} (model : string) (P : A → bool) (new : A)
    (table : gmap Z A) : Exn + (Z * bool * gmap Z A) :=
  match objects_get model P table with
  | inr (k, _) => inr (k, false, table)
  | inl (DoesNotExist _) =>
      let k := next_pk table in inr (k, true, <[k := new]> table)
  | inl e => inl e
  end.

Definition Category_get_or_create (name : string) : M Z :=
  λ db,
    match get_or_create "Category" (λ c, bool_decide (Category.name c = name))
            (Category.mk name None "fas fa-box") (categories db) with
    | inr (k, _, table) => (set_categories table db, inr k)
    | inl e => (db, inl e)
    end.

Definition Location_get_or_create (name : string) : M Z :=
  λ db,
    match get_or_create "Location" (λ c, bool_decide (Location.name c = name))
            (Location.mk name None None None None) (locations db) with
    | inr (k, _, table) => (set_locations table db, inr k)
    | inl e => (db, inl e)
    end.

Definition Vendor_get_or_create (now : datetime) (name : string) : M Z :=
  λ db,
    match get_or_create "Vendor" (λ c, bool_decide (Vendor.name c = name))
            (Vendor.mk name None None None None None None now) (vendors db) with
    | inr (k, _, table) => (set_vendors table db, inr k)
    | inl e => (db, inl e)
    end.

(** [col in df.columns and pd.notna(row.get(col))], with the cell. *)
Definition present (df_columns : list string) (row : Row) (col : string)
  : option Value :=
  if bool_decide (col ∈ df_columns) then row !! col else None.

(** [str(row[col])] for a required column: a NaN cell prints as [nan]. *)
Definition cell_str (row : Row) (col : string) : string :=
  match row !! col with
  | Some v => as_str v
  | None => "nan"
  end.

(** [str(row.get(col, '')).strip() if pd.notna(row.get(col)) else ''] *)
Definition text_or_empty (row : Row) (col : string) : string :=
  match row !! col with
  | Some v => strip (as_str v)
  | None => ""
  end.

(** The [defaults] of the [update_or_create] call. *)
Record AssetDefaults := mkAssetDefaults {
  d_name : string;
  d_description : string;
  d_category : option Z;
  d_manufacturer : string;
  d_model : string;
  d_serial_number : option string;
  d_status : string;
  d_condition : string;
  d_location : option Z;
  d_vendor : option Z;
  d_purchase_cost : option decimal;
  d_notes : string;
  d_created_by : Z
}.

(** A new [Asset(asset_tag=..., **defaults)]: the other fields take the
    defaults of the model. *)
Definition Asset_new (tag : string) (d : AssetDefaults) : Asset.t :=
  Asset.mk tag (d_name d) (Some (d_description d)) (d_category d)
    (Some (d_manufacturer d)) (Some (d_model d)) (d_serial_number d)
    (d_status d) (d_condition d) (d_location d) None None (d_vendor d) None
    (d_purchase_cost d) None (Some (d_notes d)) (Some (d_created_by d)) 0 0.

(** [setattr(obj, k, v)] for every entry of [defaults]. *)
Definition Asset_update (d : AssetDefaults) (a : Asset.t) : Asset.t :=
  Asset.mk (Asset.asset_tag a) (d_name d) (Some (d_description d)) (d_category d)
    (Some (d_manufacturer d)) (Some (d_model d)) (d_serial_number d)
    (d_status d) (d_condition d) (d_location d)
    (Asset.assigned_to a) (Asset.assigned_date a) (d_vendor d)
    (Asset.purchase_date a) (d_purchase_cost d) (Asset.warranty_expiry a)
    (Some (d_notes d)) (Some (d_created_by d))
    (Asset.created_at a) (Asset.updated_at a).

Definition Asset_save_M (now : datetime) (pk : option Z) (obj : Asset.t) : M Z :=
  λ db, match Asset_save now pk obj db with
        | inr (k, db') => (db', inr k)
        | inl e => (db, inl e)
        end.

Definition Asset_objects_get (tag : string) : M (Exn + Z * Asset.t) :=
  λ db, (db, inr (objects_get "Asset"
                    (λ a, bool_decide (Asset.asset_tag a = tag)) (assets db))).

(** [Asset.objects.update_or_create(asset_tag=tag, defaults=d)]: the key
    of the row and whether it was created. *)
Definition Asset_update_or_create (now : datetime) (tag : string)
    (d : AssetDefaults) : M (Z * bool) :=
  let! found := Asset_objects_get tag in
  match found with
  | inr (k, a) =>
      let! k' := Asset_save_M now (Some k) (Asset_update d a) in
      ret (k', false)
  | inl (DoesNotExist _) =>
      let! k' := Asset_save_M now None (Asset_new tag d) in
      ret (k', true)
  | inl e => raise e
  end.

Definition AssetHistory_create_M (row : AssetHistory.t) : M unit :=
  λ db, (AssetHistory_create row db, inr ()).

(** [float(row['purchase_cost'])] and its store into the decimal column. *)
Definition to_cost (v : Value) : M decimal :=
  match as_float v with
  | Some c => ret c
  | None => raise ValueError
  end.

(** The body of the [try] of one row. *)
Definition import_row (now : datetime) (u : Z) (df_columns : list string)
    (row : Row) : M unit :=
  let! category :=
    match present df_columns row "category" with
    | Some v => let! k := Category_get_or_create (strip (as_str v)) in ret (Some k)
    | None => ret None
    end in
  let! location :=
    match present df_columns row "location" with
    | Some v => let! k := Location_get_or_create (strip (as_str v)) in ret (Some k)
    | None => ret None
    end in
  let! vendor :=
    match present df_columns row "vendor" with
    | Some v => let! k := Vendor_get_or_create now (strip (as_str v)) in ret (Some k)
    | None => ret None
    end in
  let! purchase_cost :=
    match present df_columns row "purchase_cost" with
    | Some v => let! c := to_cost v in ret (Some c)
    | None => ret None
    end in
  let! (asset, created) :=
    Asset_update_or_create now (strip (cell_str row "asset_tag"))
      (mkAssetDefaults
         (strip (cell_str row "name"))
         (text_or_empty row "description")
         category
         (text_or_empty row "manufacturer")
         (text_or_empty row "model")
         (match row !! "serial_number" with
          | Some v => Some (strip (as_str v))
          | None => None
          end)
         (match row !! "status" with
          | Some v => lower (strip (as_str v))
          | None => "available"
          end)
         (match row !! "condition" with
          | Some v => lower (strip (as_str v))
          | None => "new"
          end)
         location vendor purchase_cost
         (text_or_empty row "notes")
         u) in
  if created : bool then
    AssetHistory_create_M
      (AssetHistory.mk asset "created" (Some "Asset imported via bulk upload")
         (Some u) None None now)
  else ret ().

(** The counters of the loop. *)
Record Tally := mkTally {
  success_count : nat;
  error_count : nat;
  errors : list (string * Exn)
}.

(** [for index, row in df.iterrows(): try: ... except Exception as e: ...] *)
Fixpoint import_rows (now : datetime) (u : Z) (df_columns : list string)
    (index : Z) (rs : list Row) (db : DB) (t : Tally) : DB * Tally :=
  match rs with
  | [] => (db, t)
  | row :: rs =>
      match import_row now u df_columns row db with
      | (db, inr _) =>
          import_rows now u df_columns (index + 1) rs db
            (mkTally (S (success_count t)) (error_count t) (errors t))
      | (db, inl e) =>
          import_rows now u df_columns (index + 1) rs db
            (mkTally (success_count t) (S (error_count t))
               (errors t ++ [("Row " +:+ pretty (index + 2) +:+ ": ", e)]))
      end
  end.

(** [str.endswith] *)
Definition endswith (s suffix : string) : bool :=
  String.prefix (String.rev suffix) (String.rev s).

(** The messages after the loop. *)
Definition import_messages (t : Tally) : list Message :=
  (if bool_decide (0 < success_count t)%nat
   then [mkMessage success
           ("Successfully imported " +:+ pretty (success_count t) +:+ " assets") None]
   else [])
  ++
  (if bool_decide (0 < error_count t)%nat
   then mkMessage warning (pretty (error_count t) +:+ " rows had errors") None
        :: map (λ err, mkMessage error err.1 (Some err.2)) (take 5 (errors t))
   else []).

Definition bulk_import (env : Env) (db : DB) (request : Request) : Outcome :=
  login_required db request (λ u,
    match method request with
    | GET => mkOutcome db (Render "assets/bulk_import.html") [] []
    | POST =>
      match FILES request !! "file" with
      | None =>
          mkOutcome db (Redirect bulk_import_page)
            [mkMessage error "Please select a file" None] []
      | Some file =>
        if negb (endswith (file_name file) ".xlsx" || endswith (file_name file) ".xls")
        then
          mkOutcome db (Redirect bulk_import_page)
            [mkMessage error "Please upload an Excel file (.xlsx or .xls)" None] []
        else
          match read_excel file with
          | inl e =>
              mkOutcome db (Redirect bulk_import_page)
                [mkMessage error "Error processing file: " (Some e)] []
          | inr df =>
            match filter (λ col, col ∉ columns df) ["asset_tag"; "name"] with
            | col :: _ =>
                mkOutcome db (Redirect bulk_import_page)
                  [mkMessage error ("Missing required column: " +:+ col) None] []
            | [] =>
                let '(db, t) :=
                  import_rows (now env) u (columns df) 0 (rows df) db
                    (mkTally 0 0 []) in
                mkOutcome db (Redirect asset_list) (import_messages t) []
            end
          end
      end
    end).

(** ** views.py: reports *)

(** [Asset.objects.filter(...).count()] *)
Definition count_where {A} (P : A → bool) (table : gmap Z A) : nat :=
  size (filter (λ kv, P kv.2 = true) table).

(** A lookup on a nullable date column: a null never matches. *)
Definition date_matches (P : date → bool) (column : option date) : bool :=
  match column with
  | Some d => P d
  | None => false
  end.

(** The warranty part of the context of the reports page, with the total. *)
Record ReportContext := mkReportContext {
  total_assets : nat;
  warranty_valid : nat;
  warranty_expiring : nat;
  warranty_expired : nat
}.

(** The aggregation of [reports]; the page is rendered from the context.
    [today + timedelta(days=30)] raises at the end of the calendar. *)
Definition reports (env : Env) (db : DB) : Exn + ReportContext :=
  let today := date_of (now env) in
  match date_add_days today 30 with
  | None => inl OverflowError
  | Some thirty_days =>
      inr (mkReportContext
             (size (assets db))
             (count_where
                (λ a, date_matches (λ d, bool_decide (today ≤ d)) (Asset.warranty_expiry a))
                (assets db))
             (count_where
                (λ a, date_matches (λ d, bool_decide (today ≤ d) && bool_decide (d ≤ thirty_days))
                        (Asset.warranty_expiry a))
                (assets db))
             (count_where
                (λ a, date_matches (λ d, bool_decide (d < today)) (Asset.warranty_expiry a))
                (assets db)))
  end.

(** ** admin.py *)

(** The permission methods of a [ModelAdmin]; [granted] is what Django's
    default answers from the permissions of the user, which a class that
    does not override the method inherits. *)
Module AssetHistoryAdmin.
Definition has_add_permission (granted : bool) : bool := false.
Definition has_change_permission (granted : bool) : bool := false.
End AssetHistoryAdmin.

Module AssetHistoryInline.
Definition can_delete : bool := false.
Definition has_add_permission (granted : bool) : bool := false.
Definition readonly_fields : list string :=
  ["action"; "description"; "performed_by"; "old_value"; "new_value"; "created_at"].
End AssetHistoryInline.

Definition set_created_by (u : Z) (a : Asset.t) : Asset.t :=
  Asset.mk (Asset.asset_tag a) (Asset.name a) (Asset.description a)
    (Asset.category a) (Asset.manufacturer a) (Asset.model a)
    (Asset.serial_number a) (Asset.status a) (Asset.condition a)
    (Asset.location a) (Asset.assigned_to a) (Asset.assigned_date a)
    (Asset.vendor a) (Asset.purchase_date a) (Asset.purchase_cost a)
    (Asset.warranty_expiry a) (Asset.notes a) (Some u)
    (Asset.created_at a) (Asset.updated_at a).

(** [AssetAdmin.save_model(request, obj, form, change)]; [pk] is the key of
    [obj], absent on the add form. *)
Definition save_model (now : datetime) (u : Z) (pk : option Z) (obj : Asset.t)
    (change : bool) : M unit :=
  if negb change then
    let obj := set_created_by u obj in
    let! k := Asset_save_M now pk obj in
    AssetHistory_create_M
      (AssetHistory.mk k "created"
         (Some ("Asset " +:+ Asset.asset_tag obj +:+ " was created"))
         (Some u) None None now)
  else
    let! _ := Asset_save_M now pk obj in
    ret ().

(** Deleting an [Asset] row: [on_delete=models.CASCADE] on
    [AssetHistory.asset] and [MaintenanceRecord.asset] takes the rows that
    point to it. *)
Definition Asset_delete (pk : Z) (db : DB) : DB :=
  mkDB (employees db) (categories db) (locations db) (vendors db)
    (delete pk (assets db))
    (filter (λ h, AssetHistory.asset h ≠ pk) (history db))
    (filter (λ r, MaintenanceRecord.asset r ≠ pk) (maintenance_records db)).

(** ** Sequences of operations *)

(** The operations that write to the asset and history tables: the three
    views, the save of the admin asset form, and the deletion of an asset
    from the admin ([AssetAdmin] overrides no delete permission, so the
    delete view and the delete action of the change list are there). *)
Inductive Op :=
  | Assign (env : Env) (request : Request) (pk : Z)
  | Unassign (env : Env) (request : Request) (pk : Z)
  | BulkImport (env : Env) (request : Request)
  | AdminSave (env : Env) (u : Z) (pk : option Z) (obj : Asset.t) (change : bool)
  | AdminDeleteAsset (pk : Z).

Definition run (op : Op) (db : DB) : DB :=
  match op with
  | Assign env request pk => store (assign_asset env db request pk)
  | Unassign env request pk => store (unassign_asset env db request pk)
  | BulkImport env request => store (bulk_import env db request)
  | AdminSave env u pk obj change => (save_model (now env) u pk obj change db).1
  | AdminDeleteAsset pk => Asset_delete pk db
  end.

Definition run_all (ops : list Op) (db : DB) : DB :=
  foldl (λ db op, run op db) db ops.

Definition is_delete (op : Op) : bool :=
  match op with
  | AdminDeleteAsset _ => true
  | _ => false
  end.

(** ** Conditions on the store and on requests *)

(** What the schema enforces and the handlers rely on: [asset_tag] is
    unique, and [assigned_to] points to an existing employee. *)
Definition schema_ok (db : DB) : Prop :=
  unique_asset_tags (assets db)
  ∧ ∀ k a e, assets db !! k = Some a → Asset.assigned_to a = Some e →
             is_Some (employees db !! e).

(** An Assign call: a POST by user [u] whose form selects the employee
    with key [epk]. *)
Definition assign_call (request : Request) (u epk : Z) : Prop :=
  method request = POST ∧ user request = Some u
  ∧ ∃ s, POST_data request !! "employee_id" = Some s ∧ s ≠ "" ∧ py_int s = Some epk.

(** An Unassign call: a POST by user [u]. *)
Definition unassign_call (request : Request) (u : Z) : Prop :=
  method request = POST ∧ user request = Some u.

(** The frame of a lookup step of the import: only the category, location
    and vendor tables may differ. *)
Definition lookup_step (db db' : DB) : Prop :=
  employees db' = employees db ∧ assets db' = assets db
  ∧ history db' = history db
  ∧ maintenance_records db' = maintenance_records db.

(** History rows are only appended: the old table is an initial segment of
    the new one. *)
Definition history_kept (db db' : DB) : Prop :=
  history db `prefix_of` history db'.

(** Asset rows stay: every key still holds a row with the same tag. *)
Definition assets_kept (db db' : DB) : Prop :=
  ∀ k a, assets db !! k = Some a →
         ∃ a', assets db' !! k = Some a' ∧ Asset.asset_tag a' = Asset.asset_tag a.

(** A step that leaves the category table alone. *)
Definition categories_same (db db' : DB) : Prop :=
  categories db' = categories db.

(** [m] relates every store to the store it leaves, whatever it returns. *)
Definition preserves {A} (R : relation DB) (m : M A) : Prop :=
  ∀ db, R db (m db).1.

(** [m] relates every store to the store it leaves when it raises. *)
Definition fails_clean {A} (R : relation DB) (m : M A) : Prop :=
  ∀ db db' e, m db = (db', inl e) → R db db'.

(** [m] never raises. *)
Definition total {A} (m : M A) : Prop :=
  ∀ db, ∃ a, (m db).2 = inr a.

(** The category name a row of the frame carries, stripped. *)
Definition category_name (df_columns : list string) (row : Row) : option string :=
  (λ v, strip (as_str v)) <$> present df_columns row "category".

(** The categories held under a name. *)
Definition named (name : string) (table : gmap Z Category.t) : nat :=
  count_where (λ c, bool_decide (Category.name c = name)) table.

(** The category table after the category step of a row. *)
Definition import_categories (df_columns : list string) (row : Row)
    (table : gmap Z Category.t) : gmap Z Category.t :=
  match category_name df_columns row with
  | Some name =>
      match get_or_create "Category" (λ c, bool_decide (Category.name c = name))
              (Category.mk name None "fas fa-box") table with
      | inr (_, _, table') => table'
      | inl _ => table
      end
  | None => table
  end.

(** The history row of an imported asset. *)
Definition imported_row (now : datetime) (u : Z) (asset : Z) : AssetHistory.t :=
  AssetHistory.mk asset "created" (Some "Asset imported via bulk upload")
    (Some u) None None now.

(** ** Sample data *)

Definition sample_employee1 : Employee.t :=
  Employee.mk "EMP001" "Ada" "Lovelace" "ada@example.com" None None None true None 0 0.

Definition sample_employee2 : Employee.t :=
  Employee.mk "EMP002" "Alan" "Turing" "alan@example.com" None None None true None 0 0.

(** [AST001], available and unassigned. *)
Definition sample_asset : Asset.t :=
  Asset.mk "AST001" "Laptop" None None None None None "available" "new" None
    None None None None None None None None 0 0.

(** [AST002], assigned to the first employee. *)
Definition sample_assigned_asset : Asset.t :=
  Asset.mk "AST002" "Monitor" None None None None None "assigned" "good" None
    (Some 1) (Some 719000) None None None None None None 0 0.

Definition sample_db : DB :=
  mkDB (<[2 := sample_employee2]> {[1 := sample_employee1]}) ∅ ∅ ∅
       (<[2 := sample_assigned_asset]> {[1 := sample_asset]}) [] [].

(** The store of a fresh installation. *)
Definition sample_empty_db : DB := mkDB ∅ ∅ ∅ ∅ ∅ [] [].

(** A store where no asset is assigned: [AST001] alone, with the two
    employees. *)
Definition sample_unassigned_db : DB :=
  mkDB (<[2 := sample_employee2]> {[1 := sample_employee1]}) ∅ ∅ ∅
       {[1 := sample_asset]} [] [].

Definition sample_env : Env := mkEnv 1000000 true.

Definition sample_post (fields : list (string * string)) : Request :=
  mkRequest POST (Some 7) (list_to_map fields) ∅.

(** A text cell that is not a number. *)
Definition sample_cell (s : string) : Value := mkValue s None.

Definition sample_columns : list string :=
  ["asset_tag"; "name"; "category"; "purchase_cost"].

(** A new asset in a category not yet known, written with blanks around. *)
Definition sample_row1 : Row :=
  list_to_map [("asset_tag", sample_cell "AST010"); ("name", sample_cell "Laptop A");
               ("category", sample_cell " Laptops ")].

(** A row whose cost is not a number. *)
Definition sample_row2 : Row :=
  list_to_map [("asset_tag", sample_cell "AST011"); ("name", sample_cell "Laptop B");
               ("category", sample_cell "Laptops");
               ("purchase_cost", sample_cell "abc")].

Definition sample_row3 : Row :=
  list_to_map [("asset_tag", sample_cell "AST012"); ("name", sample_cell "Laptop C");
               ("category", sample_cell "Laptops")].

(** A row for the asset [AST001], which the sample store already holds. *)
Definition sample_update_row : Row :=
  list_to_map [("asset_tag", sample_cell "AST001"); ("name", sample_cell "Laptop, renamed")].

Definition sample_upload (rs : list Row) : Request :=
  mkRequest POST (Some 7) ∅
    {["file" := mkUploadedFile "assets.xlsx" (inr (mkDataFrame sample_columns rs))]}.

(** An asset as the admin add form submits it. *)
Definition sample_new_asset : Asset.t :=
  Asset.mk "AST020" "Projector" None None None None None "available" "new" None
    None None None None None None None None 0 0.

(** [AST001] as the admin change form submits it, renamed. *)
Definition sample_renamed_asset : Asset.t :=
  Asset.mk "AST001" "Notebook" None None None None None "available" "new" None
    None None None None None None None None 0 0.

(** A store with one asset whose warranty ends ten days after the day of
    [sample_env]. *)
Definition sample_warranty_db : DB :=
  mkDB ∅ ∅ ∅ ∅
    {[1 := Asset.mk "AST030" "Server" None None None None None "available" "new"
             None None None None None None (Some 719184) None None 0 0]} [] [].

(** An error message of the import. *)
Definition is_error (m : Message) : bool :=
  match level m with
  | error => true
  | _ => false
  end.

(** ** Further conditions on steps of the import *)

(** A step that leads from a store within the schema constraints to such a
    store. *)
Definition schema_kept (db db' : DB) : Prop :=
  schema_ok db → schema_ok db'.

(** A step that only adds rows to the category, location and vendor
    tables and leaves the employee and maintenance tables alone. *)
Definition lookups_grow (db db' : DB) : Prop :=
  categories db ⊆ categories db' ∧ locations db ⊆ locations db'
  ∧ vendors db ⊆ vendors db' ∧ employees db' = employees db
  ∧ maintenance_records db' = maintenance_records db.

(** A step that keeps the keys of the asset table and appends to the
    history the [created] rows of the assets it adds, one for each, by the
    user [u] at the time [now], and nothing else. *)
Definition creations_logged (now : datetime) (u : Z) (db db' : DB) : Prop :=
  (∀ k, is_Some (assets db !! k) → is_Some (assets db' !! k))
  ∧ ∃ keys : list Z,
      history db' = history db ++ (imported_row now u <$> keys)
      ∧ NoDup keys
      ∧ ∀ k, k ∈ keys ↔ assets db !! k = None ∧ is_Some (assets db' !! k).

(** ** admin.py: the warranty column *)

Module AssetAdmin.
(** The three pieces of markup the column shows: a green check with
    [Valid], a red cross with [Expired], a grey [N/A]. *)
Inductive Markup := Valid | Expired | NotApplicable.

#[global] Instance Markup_eq_dec : EqDecision Markup.
Proof. solve_decision. Defined.

(** [AssetAdmin.warranty_status(obj)] *)
Definition warranty_status (now : datetime) (obj : Asset.t) : Markup :=
  if Asset.is_under_warranty now obj then Valid
  else match Asset.warranty_expiry obj with
       | Some _ => Expired
       | None => NotApplicable
       end.
End AssetAdmin.

(** ** views.py: dashboard *)

Module Dashboard.
(** The counters of the context of the dashboard. *)
Record Context := mk {
  total_assets : nat;
  available_assets : nat;
  assigned_assets : nat;
  maintenance_assets : nat;
  retired_assets : nat;
  total_value : decimal;
  total_employees : nat
}.
End Dashboard.

(** [Asset.objects.filter(status=s).count()] *)
Definition count_status (s : string) (table : gmap Z Asset.t) : nat :=
  count_where (λ a, bool_decide (Asset.status a = s)) table.

(** [Asset.objects.aggregate(total=Sum('purchase_cost'))['total'] or 0]:
    nulls are skipped, and no value at all gives 0. *)
Definition sum_purchase_cost (table : gmap Z Asset.t) : decimal :=
  map_fold (λ _ a acc, acc + default 0 (Asset.purchase_cost a)) 0 table.

(** The counters that [dashboard] computes; the lists of recent rows and
    the chart series are not modelled.  [timezone.now().date() +
    timedelta(days=30)] raises at the end of the calendar. *)
Definition dashboard (env : Env) (db : DB) : Exn + Dashboard.Context :=
  match date_add_days (date_of (now env)) 30 with
  | None => inl OverflowError
  | Some _ =>
      inr (Dashboard.mk
             (size (assets db))
             (count_status "available" (assets db))
             (count_status "assigned" (assets db))
             (count_status "maintenance" (assets db))
             (count_status "retired" (assets db))
             (sum_purchase_cost (assets db))
             (count_where Employee.is_active (employees db)))
  end.

(** ** views.py: users, groups and the views that need them *)

(** [django.contrib.auth]: the fields of [User] and [Group] that the views
    read or write; [groups] is the many-to-many relation, as the set of the
    keys of the groups of the user. *)
Module User.
Record t := mk {
  username : string;
  email : string;
  first_name : string;
  last_name : string;
  is_staff : bool;
  is_active : bool;
  is_superuser : bool;
  groups : gset Z
}.
End User.

Module Group.
Record t := mk {
  name : string
}.
End Group.

Record Auth := mkAuth {
  users : gmap Z User.t;
  groups : gmap Z Group.t
}.

(** The pages these views redirect to. *)
Inductive Page :=
  | login_page
  | reports_page
  | user_list_page
  | user_detail_page (pk : Z)
  | employee_list_page
  | bulk_import_employees_page.

Inductive Reply :=
  | GoTo (page : Page)
  | Show (template : string)
  | NotFound
  | Crash (e : Exn).

(** What a view answers: the response, the flash messages, the mails. *)
Record Answer := mkAnswer {
  reply : Reply;
  flashes : list Message;
  mails : list Email
}.

(** [request.user] as the row of the user table. *)
Definition request_user (auth : Auth) (request : Request) : option (Z * User.t) :=
  match user request with
  | Some uid =>
      match users auth !! uid with
      | Some me => Some (uid, me)
      | None => None
      end
  | None => None
  end.

(** [is_admin(user)]: a superuser, or a member of a group named [Admin]. *)
Definition is_admin (auth : Auth) (u : User.t) : bool :=
  User.is_superuser u
  || bool_decide (set_Exists (λ g, Group.name <$> groups auth !! g = Some "Admin")
                    (User.groups u)).

(** [@login_required] followed by [@user_passes_test(is_admin)]: both send
    the request to the login page when they fail. *)
Definition admin_only {S} (auth : Auth) (request : Request) (s : S)
    (view : Z → User.t → S * Answer) : S * Answer :=
  match request_user auth request with
  | Some (uid, me) =>
      if is_admin auth me then view uid me
      else (s, mkAnswer (GoTo login_page) [] [])
  | None => (s, mkAnswer (GoTo login_page) [] [])
  end.

Definition set_is_active (b : bool) (u : User.t) : User.t :=
  User.mk (User.username u) (User.email u) (User.first_name u) (User.last_name u)
    (User.is_staff u) b (User.is_superuser u) (User.groups u).

Definition set_groups (gs : gset Z) (u : User.t) : User.t :=
  User.mk (User.username u) (User.email u) (User.first_name u) (User.last_name u)
    (User.is_staff u) (User.is_active u) (User.is_superuser u) gs.

Definition set_users (table : gmap Z User.t) (auth : Auth) : Auth :=
  mkAuth table (groups auth).

Definition user_toggle_active (auth : Auth) (request : Request) (pk : Z)
  : Auth * Answer :=
  admin_only auth request auth (λ uid me,
    match users auth !! pk with
    | None => (auth, mkAnswer NotFound [] [])
    | Some user_obj =>
        if bool_decide (pk = uid) then
          (auth, mkAnswer (GoTo user_list_page)
                   [mkMessage error "You cannot deactivate yourself" None] [])
        else
          let user_obj := set_is_active (negb (User.is_active user_obj)) user_obj in
          let status := if User.is_active user_obj then "activated" else "deactivated" in
          (set_users (<[pk := user_obj]> (users auth)) auth,
           mkAnswer (GoTo user_list_page)
             [mkMessage success
                ("User " +:+ User.username user_obj +:+ " has been " +:+ status) None]
             [])
    end).

Definition user_change_role (auth : Auth) (request : Request) (pk : Z)
  : Auth * Answer :=
  admin_only auth request auth (λ uid me,
    match method request with
    | GET => (auth, mkAnswer (GoTo (user_detail_page pk)) [] [])
    | POST =>
        match users auth !! pk with
        | None => (auth, mkAnswer NotFound [] [])
        | Some user_obj =>
            let group_id := POST_data request !! "group_id" in
            let user_obj := set_groups ∅ user_obj in
            let auth := set_users (<[pk := user_obj]> (users auth)) auth in
            if opt_truthy group_id then
              match py_int (default "" group_id) with
              | None => (auth, mkAnswer (Crash ValueError) [] [])
              | Some gid =>
                  match groups auth !! gid with
                  | None => (auth, mkAnswer NotFound [] [])
                  | Some group =>
                      (set_users
                         (<[pk := set_groups ({[gid]} ∪ User.groups user_obj) user_obj]>
                            (users auth)) auth,
                       mkAnswer (GoTo (user_detail_page pk))
                         [mkMessage success
                            ("User " +:+ User.username user_obj +:+ " added to "
                             +:+ Group.name group +:+ " group") None]
                         [])
                  end
              end
            else
              (auth, mkAnswer (GoTo (user_detail_page pk))
                       [mkMessage success
                          ("User " +:+ User.username user_obj
                           +:+ " removed from all groups") None]
                       [])
        end
    end).

(** The names of the [roles] of [setup_roles]. *)
Definition roles : list string := ["Admin"; "Manager"; "Technician"; "Viewer"].

(** [for role in roles: Group.objects.get_or_create(name=role['name'])]:
    the table when the loop stops, and the exception that stopped it. *)
Fixpoint create_roles (names : list string) (table : gmap Z Group.t)
  : gmap Z Group.t * option Exn :=
  match names with
  | [] => (table, None)
  | name :: names =>
      match get_or_create "Group" (λ g, bool_decide (Group.name g = name))
              (Group.mk name) table with
      | inr (_, _, table) => create_roles names table
      | inl e => (table, Some e)
      end
  end.

Definition setup_roles (auth : Auth) (request : Request) : Auth * Answer :=
  admin_only auth request auth (λ uid me,
    match create_roles roles (groups auth) with
    | (table, None) =>
        (mkAuth (users auth) table,
         mkAnswer (GoTo user_list_page)
           [mkMessage success
              "Default roles created: Admin, Manager, Technician, Viewer" None] [])
    | (table, Some e) => (mkAuth (users auth) table, mkAnswer (Crash e) [] [])
    end).

(** The groups that bear a name. *)
Definition named_groups (name : string) (table : gmap Z Group.t) : nat :=
  count_where (λ g, bool_decide (Group.name g = name)) table.

(** ** views.py: warranty alerts *)

(** [django.core.mail.send_mail(subject, message, from_email,
    recipient_list, fail_silently=False)]: [EmailMessage.send] keeps the
    recipients that are not empty and, when none is left, returns without
    opening a connection; otherwise the backend takes the message or
    raises.  The result is what was handed over. *)
Definition send_mail (env : Env) (subject : string) (recipient_list : list string)
  : Exn + list Email :=
  match filter (λ r, str_truthy r = true) recipient_list with
  | [] => inr []
  | _ :: _ =>
      if mail_up env then inr [mkEmail subject recipient_list]
      else inl SMTPException
  end.

(** [send_warranty_alerts]: one mail to the user who asks, listing the
    assets whose warranty ends within 30 days; the body is not modelled. *)
Definition send_warranty_alerts (env : Env) (auth : Auth) (db : DB)
    (request : Request) : Answer :=
  match request_user auth request with
  | None => mkAnswer (GoTo login_page) [] []
  | Some (uid, me) =>
      let today := date_of (now env) in
      match date_add_days today 30 with
      | None => mkAnswer (Crash OverflowError) [] []
      | Some thirty_days =>
          let expiring_assets :=
            rows_where
              (λ a, date_matches
                      (λ d, bool_decide (d ≤ thirty_days) && bool_decide (today ≤ d))
                      (Asset.warranty_expiry a))
              (assets db) in
          match expiring_assets with
          | [] =>
              mkAnswer (GoTo reports_page)
                [mkMessage info "No assets with expiring warranties" None] []
          | _ =>
              let subject :=
                "Warranty Alert: " +:+ pretty (length expiring_assets)
                +:+ " assets expiring soon" in
              match send_mail env subject [User.email me] with
              | inr sent =>
                  mkAnswer (GoTo reports_page)
                    [mkMessage success ("Warranty alert sent to " +:+ User.email me) None]
                    sent
              | inl e =>
                  mkAnswer (GoTo reports_page)
                    [mkMessage error "Failed to send email: " (Some e)] []
              end
          end
      end
  end.

(** ** views.py: the history shown on the page of an employee *)

(** Case folding as SQLite's [LIKE] does it: the letters A to Z only. *)
Definition like_fold_char (c : ascii) : ascii :=
  let n := Z.of_N (N_of_ascii c) in
  if bool_decide (65 ≤ n ≤ 90) then ascii_of_N (Z.to_N (n + 32)) else c.

Fixpoint like_fold (s : string) : string :=
  match s with
  | String c s' => String (like_fold_char c) (like_fold s')
  | EmptyString => EmptyString
  end.

(** [needle] occurs in [hay]. *)
Fixpoint contains (needle hay : string) : bool :=
  String.prefix needle hay
  || match hay with
     | String _ hay' => contains needle hay'
     | EmptyString => false
     end.

(** The lookup [column__icontains=needle] on a nullable text column: the
    ORM escapes the wildcards, so the needle is matched literally, without
    regard to the case of A to Z; a null never matches. *)
Definition icontains (column : option string) (needle : string) : bool :=
  match column with
  | Some text => contains (like_fold needle) (like_fold text)
  | None => false
  end.

(** The filter of [employee_detail]:
    [Q(new_value__icontains=name) | Q(old_value__icontains=name)]. *)
Definition mentions (employee : Employee.t) (h : AssetHistory.t) : bool :=
  icontains (AssetHistory.new_value h) (Employee.full_name employee)
  || icontains (AssetHistory.old_value h) (Employee.full_name employee).

(** ** views.py: bulk import of employees *)

Module Department.
Record t := mk {
  name : string;
  description : option string;
  created_at : datetime
}.
End Department.

(** The two tables the employee import writes to. *)
Record People := mkPeople {
  departments : gmap Z Department.t;
  staff : gmap Z Employee.t
}.

(** Rows other than [pk] that hold the employee id or the email address:
    both columns are declared [unique=True]. *)
Definition employee_clashes (pk : option Z) (obj : Employee.t)
    (table : gmap Z Employee.t) : gmap Z Employee.t :=
  filter (λ kv, (Employee.employee_id kv.2 = Employee.employee_id obj
                 ∨ Employee.email kv.2 = Employee.email obj)
                ∧ Some kv.1 ≠ pk) table.

Definition touch_employee (now : datetime) (adding : bool) (e : Employee.t)
  : Employee.t :=
  Employee.mk (Employee.employee_id e) (Employee.first_name e) (Employee.last_name e)
    (Employee.email e) (Employee.phone e) (Employee.department e)
    (Employee.position e) (Employee.is_active e) (Employee.hire_date e)
    (if adding then now else Employee.created_at e) now.

(** [employee.save()] *)
Definition Employee_save (now : datetime) (pk : option Z) (obj : Employee.t)
    (table : gmap Z Employee.t) : Exn + gmap Z Employee.t :=
  if bool_decide (employee_clashes pk obj table = ∅)
  then
    let k := default (next_pk table) pk in
    inr (<[k := touch_employee now (bool_decide (pk = None)) obj]> table)
  else inl (IntegrityError "employee").

(** The [defaults] of the [update_or_create] call of the employee import. *)
Record EmployeeDefaults := mkEmployeeDefaults {
  e_first_name : string;
  e_last_name : string;
  e_email : string;
  e_phone : string;
  e_department : option Z;
  e_position : string;
  e_is_active : bool
}.

Definition Employee_new (eid : string) (d : EmployeeDefaults) : Employee.t :=
  Employee.mk eid (e_first_name d) (e_last_name d) (e_email d) (Some (e_phone d))
    (e_department d) (Some (e_position d)) (e_is_active d) None 0 0.

Definition Employee_update (d : EmployeeDefaults) (e : Employee.t) : Employee.t :=
  Employee.mk (Employee.employee_id e) (e_first_name d) (e_last_name d) (e_email d)
    (Some (e_phone d)) (e_department d) (Some (e_position d)) (e_is_active d)
    (Employee.hire_date e) (Employee.created_at e) (Employee.updated_at e).

(** [Employee.objects.update_or_create(employee_id=eid, defaults=d)] *)
Definition Employee_update_or_create (now : datetime) (eid : string)
    (d : EmployeeDefaults) (table : gmap Z Employee.t) : Exn + gmap Z Employee.t :=
  match objects_get "Employee" (λ e, bool_decide (Employee.employee_id e = eid)) table with
  | inr (k, e) => Employee_save now (Some k) (Employee_update d e) table
  | inl (DoesNotExist _) => Employee_save now None (Employee_new eid d) table
  | inl e => inl e
  end.

(** The body of the [try] of one row of the employee import: the tables it
    leaves, and the exception if it raised. *)
Definition import_employee_row (now : datetime) (df_columns : list string)
    (row : Row) (p : People) : People * option Exn :=
  let found :=
    match present df_columns row "department" with
    | Some v =>
        match get_or_create "Department"
                (λ d, bool_decide (Department.name d = strip (as_str v)))
                (Department.mk (strip (as_str v)) None now) (departments p) with
        | inr (k, _, table) => inr (Some k, table)
        | inl e => inl e
        end
    | None => inr (None, departments p)
    end in
  match found with
  | inl e => (p, Some e)
  | inr (department, table) =>
      match Employee_update_or_create now (strip (cell_str row "employee_id"))
              (mkEmployeeDefaults
                 (strip (cell_str row "first_name"))
                 (strip (cell_str row "last_name"))
                 (strip (cell_str row "email"))
                 (text_or_empty row "phone")
                 department
                 (text_or_empty row "position")
                 true)
              (staff p) with
      | inr staff' => (mkPeople table staff', None)
      | inl e => (mkPeople table (staff p), Some e)
      end
  end.

(** The loop of the employee import, with its two counters. *)
Fixpoint import_employee_rows (now : datetime) (df_columns : list string)
    (rs : list Row) (p : People) (success_count error_count : nat)
  : People * nat * nat :=
  match rs with
  | [] => (p, success_count, error_count)
  | row :: rs =>
      match import_employee_row now df_columns row p with
      | (p, None) =>
          import_employee_rows now df_columns rs p (S success_count) error_count
      | (p, Some _) =>
          import_employee_rows now df_columns rs p success_count (S error_count)
      end
  end.

Definition bulk_import_employees (env : Env) (p : People) (request : Request)
  : People * Answer :=
  match user request with
  | None => (p, mkAnswer (GoTo login_page) [] [])
  | Some u =>
    let form := Show "assets/bulk_import_employees.html" in
    match method request with
    | GET => (p, mkAnswer form [] [])
    | POST =>
      match FILES request !! "file" with
      | None =>
          (p, mkAnswer (GoTo bulk_import_employees_page)
                [mkMessage error "Please select a file" None] [])
      | Some file =>
        match read_excel file with
        | inl e => (p, mkAnswer form [mkMessage error "Error: " (Some e)] [])
        | inr df =>
          match filter (λ col, col ∉ columns df)
                  ["employee_id"; "first_name"; "last_name"; "email"] with
          | col :: _ =>
              (p, mkAnswer (GoTo bulk_import_employees_page)
                    [mkMessage error ("Missing required column: " +:+ col) None] [])
          | [] =>
              let '(p, success_count, error_count) :=
                import_employee_rows (now env) (columns df) (rows df) p 0 0 in
              (p, mkAnswer (GoTo employee_list_page)
                    [mkMessage success
                       ("Imported " +:+ pretty success_count +:+ " employees, "
                        +:+ pretty error_count +:+ " errors") None] [])
          end
        end
      end
    end
  end.

(** The constraints [unique=True] on [employee_id] and on [email]. *)
Definition unique_employees (table : gmap Z Employee.t) : Prop :=
  ∀ k1 k2 e1 e2,
    table !! k1 = Some e1 → table !! k2 = Some e2 →
    Employee.employee_id e1 = Employee.employee_id e2
    ∨ Employee.email e1 = Employee.email e2 →
    k1 = k2.

(** Employee rows stay: every key still holds a row with the same
    employee id. *)
Definition staff_kept (table table' : gmap Z Employee.t) : Prop :=
  ∀ k e, table !! k = Some e →
         ∃ e', table' !! k = Some e'
               ∧ Employee.employee_id e' = Employee.employee_id e.

(** ** Sample rows of the employee import *)

Definition sample_people : People := mkPeople ∅ (employees sample_db).

Definition sample_employee_columns : list string :=
  ["employee_id"; "first_name"; "last_name"; "email"; "department"].

(** A row for the employee [EMP001], with blanks around the names. *)
Definition sample_employee_row : Row :=
  list_to_map [("employee_id", sample_cell "EMP001"); ("first_name", sample_cell " Ada ");
               ("last_name", sample_cell "King"); ("email", sample_cell "ada@example.com");
               ("department", sample_cell "Research")].

(** A row for a new employee id with the email address of [EMP001]. *)
Definition sample_clash_row : Row :=
  list_to_map [("employee_id", sample_cell "EMP003"); ("first_name", sample_cell "Eve");
               ("last_name", sample_cell "Moss"); ("email", sample_cell "ada@example.com")].

Definition sample_employee_upload (rs : list Row) : Request :=
  mkRequest POST (Some 7) ∅
    {["file" := mkUploadedFile "staff.xlsx"
                  (inr (mkDataFrame sample_employee_columns rs))]}.

(** ** Sample users *)

(** A superuser (key 7), a member of the Admin group (key 8) and a member
    of the Viewer group (key 9, inactive); the groups Admin (1) and
    Viewer (2). *)
Definition sample_auth : Auth :=
  mkAuth
    (<[9 := User.mk "carol" "carol@example.com" "Carol" "Jones" false false false {[2]}]>
       (<[8 := User.mk "bob" "bob@example.com" "Bob" "Smith" true true false {[1]}]>
          {[7 := User.mk "root" "root@example.com" "" "" true true true ∅]}))
    (<[2 := Group.mk "Viewer"]> {[1 := Group.mk "Admin"]}).

(** A POST by the user with key [uid]. *)
(** A user table whose one user has left the e-mail address empty. *)
Definition sample_auth_no_email : Auth :=
  mkAuth {[7 := User.mk "dave" "" "Dave" "Lee" true true false ∅]} ∅.

Definition sample_post_by (uid : Z) (fields : list (string * string)) : Request :=
  mkRequest POST (Some uid) (list_to_map fields) ∅.

(** * Properties *)

(** ** The store *)

Section store.
Context {A : Type}.
Implicit Types (table : gmap Z A) (P : A → bool).

Lemma map_fold_max_upper table k :
  is_Some (table !! k) → k ≤ map_fold (λ k _ acc, Z.max k acc) 0 table.
Proof.
  revert k.
  apply (map_fold_weak_ind (λ r (m : gmap Z A), ∀ k, is_Some (m !! k) → k ≤ r)).
  - intros k [x Hx]. by rewrite lookup_empty in Hx.
  - intros i x m r _ IH k Hk.
    destruct (decide (i = k)) as [->|Hne]; [lia|].
    rewrite lookup_insert_ne in Hk by done.
    specialize (IH k Hk). lia.
Qed.

Lemma next_pk_fresh table : table !! next_pk table = None.
Proof.
  destruct (table !! next_pk table) as [x|] eqn:Hx; [|done].
  pose proof (map_fold_max_upper table (next_pk table) (mk_is_Some _ _ Hx)) as H.
  unfold next_pk in H. lia.
Qed.

Lemma rows_where_elem P table k a :
  (k, a) ∈ rows_where P table ↔ table !! k = Some a ∧ P a = true.
Proof.
  unfold rows_where. rewrite elem_of_map_to_list, map_lookup_filter_Some. done.
Qed.

Lemma count_where_rows P table :
  count_where P table = length (rows_where P table).
Proof. unfold count_where, rows_where. by rewrite length_map_to_list. Qed.

Lemma objects_get_found model P table k a :
  objects_get model P table = inr (k, a) →
  table !! k = Some a ∧ P a = true ∧ count_where P table = 1%nat
  ∧ ∀ k' a', table !! k' = Some a' → P a' = true → k' = k.
Proof.
  unfold objects_get. rewrite count_where_rows.
  destruct (rows_where P table) as [|[k0 a0] [|??]] eqn:Hrows; try done.
  intros [= -> ->].
  assert ((k, a) ∈ rows_where P table) as Hin by (rewrite Hrows; set_solver).
  apply rows_where_elem in Hin as [??]. repeat split; try done.
  intros k' a' Hk' HP.
  assert ((k', a') ∈ rows_where P table) as Hin'; [by apply rows_where_elem|].
  rewrite Hrows in Hin'. apply list_elem_of_singleton in Hin'. congruence.
Qed.

Lemma objects_get_missing model P table m :
  objects_get model P table = inl (DoesNotExist m) →
  count_where P table = 0%nat ∧ ∀ k a, table !! k = Some a → P a = false.
Proof.
  unfold objects_get. rewrite count_where_rows.
  destruct (rows_where P table) as [|[k0 a0] [|??]] eqn:Hrows; try done.
  intros _. split; [done|]. intros k a Hk.
  destruct (P a) eqn:HP; [|done].
  assert ((k, a) ∈ rows_where P table) as Hin; [by apply rows_where_elem|].
  rewrite Hrows in Hin. set_solver.
Qed.

Lemma objects_get_of_count_0 model P table :
  count_where P table = 0%nat →
  objects_get model P table = inl (DoesNotExist model).
Proof.
  rewrite count_where_rows. unfold objects_get.
  by destruct (rows_where P table) as [|? [|??]].
Qed.

Lemma objects_get_of_count_1 model P table :
  count_where P table = 1%nat →
  ∃ k a, objects_get model P table = inr (k, a).
Proof.
  rewrite count_where_rows. unfold objects_get.
  destruct (rows_where P table) as [|[k a] [|??]]; try done. eauto.
Qed.

Lemma count_where_insert_fresh P table k a :
  table !! k = None →
  count_where P (<[k := a]> table)
  = ((if P a then 1 else 0) + count_where P table)%nat.
Proof.
  intros Hk. unfold count_where.
  destruct (P a) eqn:HP.
  - rewrite map_filter_insert_True by done.
    rewrite map_size_insert_None; [done|].
    apply map_lookup_filter_None_2. by left.
  - rewrite map_filter_insert_not'; [done| |].
    + simpl. by rewrite HP.
    + intros y Hy. by rewrite Hk in Hy.
Qed.

(** Counting splits over two disjoint conditions. *)
Lemma count_where_split P Q R table :
  (∀ a, R a = P a || Q a) → (∀ a, P a && Q a = false) →
  count_where R table = (count_where P table + count_where Q table)%nat.
Proof.
  intros HR Hdisj. induction table as [|k a table Hk _ IH] using map_first_key_ind.
  - unfold count_where. by rewrite !map_filter_empty, !map_size_empty.
  - rewrite !count_where_insert_fresh by done. rewrite IH, HR.
    specialize (Hdisj a). destruct (P a), (Q a); simpl in *; try done; lia.
Qed.

Lemma count_where_le P Q table :
  (∀ a, P a = true → Q a = true) →
  (count_where P table ≤ count_where Q table)%nat.
Proof.
  intros HPQ. induction table as [|k a table Hk _ IH] using map_first_key_ind.
  - unfold count_where. by rewrite !map_filter_empty, !map_size_empty.
  - rewrite !count_where_insert_fresh by done.
    specialize (HPQ a). destruct (P a), (Q a); simpl; try lia.
    all: by specialize (HPQ eq_refl).
Qed.
End store.

Lemma append_assoc (a b c : string) : (a +:+ b) +:+ c = a +:+ (b +:+ c).
Proof.
  induction a as [|x a IH]; [reflexivity|].
  change (String x ((a +:+ b) +:+ c) = String x (a +:+ (b +:+ c))).
  by rewrite IH.
Qed.

(** ** Saving an asset *)

Lemma tag_clashes_self table pk a :
  unique_asset_tags table → table !! pk = Some a →
  tag_clashes (Some pk) (Asset.asset_tag a) table = ∅.
Proof.
  intros Huniq Hpk. apply map_empty. intros i.
  apply map_lookup_filter_None_2.
  destruct (table !! i) as [b|] eqn:Hi; [right|by left].
  intros x [= <-] [Htag Hne]. simpl in *.
  apply Hne. f_equal. by apply (Huniq i pk b a).
Qed.

Lemma Asset_save_existing now db pk a a' :
  unique_asset_tags (assets db) → assets db !! pk = Some a →
  Asset.asset_tag a' = Asset.asset_tag a →
  Asset_save now (Some pk) a' db
  = inr (pk, set_assets (<[pk := touch now false a']> (assets db)) db).
Proof.
  intros Huniq Hpk Htag. unfold Asset_save.
  rewrite Htag, (tag_clashes_self _ _ _ Huniq Hpk).
  by rewrite bool_decide_eq_true_2.
Qed.

Lemma unique_asset_tags_replace table pk a a' :
  unique_asset_tags table → table !! pk = Some a →
  Asset.asset_tag a' = Asset.asset_tag a →
  unique_asset_tags (<[pk := a']> table).
Proof.
  intros Huniq Hpk Htag k1 k2 a1 a2 H1 H2 Heq.
  destruct (decide (k1 = pk)) as [->|Hne1], (decide (k2 = pk)) as [->|Hne2];
    simplify_map_eq; try done.
  - apply (Huniq pk k2 a a2); congruence.
  - apply (Huniq k1 pk a1 a); congruence.
  - by apply (Huniq k1 k2 a1 a2).
Qed.

(** ** Assign and Unassign *)

(** What an Assign call does to the store. *)
Lemma assign_asset_store env db request pk u epk asset employee :
  schema_ok db → assets db !! pk = Some asset →
  employees db !! epk = Some employee → assign_call request u epk →
  ∃ old_assignee,
    related_employee db (Asset.assigned_to asset) = inr old_assignee
    ∧ response (assign_asset env db request pk) = Redirect (asset_detail pk)
    ∧ store (assign_asset env db request pk)
      = AssetHistory_create
          (AssetHistory.mk pk "assigned"
             (Some ("Asset assigned to " +:+ Employee.full_name employee))
             (Some u)
             (Some (match old_assignee with
                    | Some old => Employee.str old
                    | None => "None"
                    end))
             (Some (Employee.full_name employee))
             (now env))
          (set_assets
             (<[pk := touch (now env) false (assigned (now env) epk asset)]> (assets db))
             db).
Proof.
  intros [Huniq Hfk] Hasset Hemp (Hm & Hu & s & Hs & Hne & Hint).
  assert (∃ old, related_employee db (Asset.assigned_to asset) = inr old) as [old Hold].
  { unfold related_employee. destruct (Asset.assigned_to asset) as [e|] eqn:He; [|eauto].
    destruct (Hfk _ _ _ Hasset He) as [x ->]. eauto. }
  exists old. split; [done|].
  unfold assign_asset, login_required.
  rewrite Hu, Hasset, Hm, Hs. unfold str_truthy.
  rewrite bool_decide_eq_false_2 by done. simpl.
  rewrite Hint, Hemp, Hold.
  rewrite (Asset_save_existing _ _ _ asset) by done.
  by repeat case_match.
Qed.

(** What an Unassign call does to the store of an assigned asset. *)
Lemma unassign_asset_store env db request pk u asset e :
  schema_ok db → assets db !! pk = Some asset →
  Asset.assigned_to asset = Some e → unassign_call request u →
  ∃ old_assignee,
    employees db !! e = Some old_assignee
    ∧ response (unassign_asset env db request pk) = Redirect (asset_detail pk)
    ∧ store (unassign_asset env db request pk)
      = AssetHistory_create
          (AssetHistory.mk pk "unassigned"
             (Some ("Asset unassigned from " +:+ Employee.full_name old_assignee))
             (Some u)
             (Some (Employee.full_name old_assignee))
             (Some "None")
             (now env))
          (set_assets (<[pk := touch (now env) false (unassigned asset)]> (assets db)) db).
Proof.
  intros [Huniq Hfk] Hasset He (Hm & Hu).
  destruct (Hfk _ _ _ Hasset He) as [old Hold].
  exists old. split; [done|].
  unfold unassign_asset, login_required.
  rewrite Hu, Hasset, Hm. unfold related_employee. rewrite He, Hold.
  rewrite (Asset_save_existing _ _ _ asset) by done.
  by repeat case_match.
Qed.

Lemma sample_db_ok : schema_ok sample_db.
Proof.
  split.
  - intros k1 k2 a1 a2 H1 H2 Heq. unfold sample_db in *. simpl in *.
    apply lookup_insert_Some in H1 as [[<- <-]|[? H1]];
      [|apply lookup_singleton_Some in H1 as [<- <-]];
      (apply lookup_insert_Some in H2 as [[<- <-]|[? H2]];
       [|apply lookup_singleton_Some in H2 as [<- <-]]);
      done.
  - intros k a e Hk He. unfold sample_db in *. simpl in *.
    apply lookup_insert_Some in Hk as [[<- <-]|[? Hk]];
      [|apply lookup_singleton_Some in Hk as [<- <-]]; simplify_eq/=.
    by eexists.
Qed.

Lemma sample_unassigned_db_ok : schema_ok sample_unassigned_db.
Proof.
  split.
  - intros k1 k2 a1 a2 H1 H2 Heq. unfold sample_unassigned_db in *. simpl in *.
    apply lookup_singleton_Some in H1 as [<- <-].
    by apply lookup_singleton_Some in H2 as [<- <-].
  - intros k a e Hk He. unfold sample_unassigned_db in *. simpl in *.
    apply lookup_singleton_Some in Hk as [<- <-]. done.
Qed.

(** C5: [is_under_warranty] is true exactly when [warranty_expiry] is set
    and is not before today's date; in particular it is false when
    [warranty_expiry] is null. *)
Theorem is_under_warranty_iff (now : datetime) (asset : Asset.t) :
  Asset.is_under_warranty now asset = true
  ↔ ∃ d, Asset.warranty_expiry asset = Some d ∧ date_of now ≤ d.
Proof.
  unfold Asset.is_under_warranty.
  destruct (Asset.warranty_expiry asset) as [d|].
  - rewrite bool_decide_eq_true. split; [eauto|]. by intros (? & [= <-] & ?).
  - split; [done|]. by intros (? & ? & ?).
Qed.

(** C10: a POST Unassign call on an asset without an assignee leaves the
    store as it is (status, assigned_to, assigned_date and the history
    included), adds no message, sends no mail, and redirects to the detail
    page of the asset. *)
Theorem unassign_without_assignee_is_noop env db request pk u asset :
  assets db !! pk = Some asset →
  Asset.assigned_to asset = None →
  unassign_call request u →
  unassign_asset env db request pk
  = mkOutcome db (Redirect (asset_detail pk)) [] [].
Proof.
  intros Hasset Hnone [Hm Hu].
  unfold unassign_asset, login_required.
  by rewrite Hu, Hasset, Hm, Hnone.
Qed.

Lemma unassign_without_assignee_is_noop_witness :
  unassign_asset sample_env sample_db (sample_post []) 1
  = mkOutcome sample_db (Redirect (asset_detail 1)) [] [].
Proof.
  apply (unassign_without_assignee_is_noop sample_env sample_db (sample_post []) 1 7
           sample_asset).
  - reflexivity.
  - reflexivity.
  - split; reflexivity.
Defined.

(** C2: after an Assign call for an existing asset and employee, followed
    by an Unassign call for the same asset, the asset is stored with status
    [available], no assignee and no assignment date. *)
Theorem assign_then_unassign env1 env2 db request1 request2 pk u1 u2 epk asset employee :
  schema_ok db →
  assets db !! pk = Some asset →
  employees db !! epk = Some employee →
  assign_call request1 u1 epk →
  unassign_call request2 u2 →
  let db1 := store (assign_asset env1 db request1 pk) in
  let db2 := store (unassign_asset env2 db1 request2 pk) in
  (∃ a1, assets db1 !! pk = Some a1 ∧ Asset.status a1 = "assigned"
         ∧ Asset.assigned_to a1 = Some epk
         ∧ Asset.assigned_date a1 = Some (date_of (now env1)))
  ∧ ∃ a2, assets db2 !! pk = Some a2 ∧ Asset.status a2 = "available"
          ∧ Asset.assigned_to a2 = None ∧ Asset.assigned_date a2 = None.
Proof.
  intros Hok Hasset Hemp Hassign Hunassign db1 db2.
  destruct (assign_asset_store env1 db request1 pk u1 epk asset employee)
    as (old & _ & _ & Hdb1); try done.
  assert (assets db1 !! pk = Some (touch (now env1) false (assigned (now env1) epk asset)))
    as Hpk1.
  { subst db1. rewrite Hdb1. simpl. by rewrite lookup_insert_eq. }
  assert (schema_ok db1) as Hok1.
  { destruct Hok as [Huniq Hfk]. subst db1. rewrite Hdb1. split; simpl.
    - by apply (unique_asset_tags_replace _ _ asset).
    - intros k a e Hk He. destruct (decide (k = pk)) as [->|Hne].
      + rewrite lookup_insert_eq in Hk. simplify_eq/=. by eexists.
      + rewrite lookup_insert_ne in Hk by done. eauto. }
  split; [by eexists|].
  destruct (unassign_asset_store env2 db1 request2 pk u2 _ epk Hok1 Hpk1)
    as (old' & _ & _ & Hdb2); try done.
  subst db2. rewrite Hdb2. simpl. rewrite lookup_insert_eq. by eexists.
Qed.

Lemma assign_then_unassign_witness :
  let db1 := store (assign_asset sample_env sample_db
                      (sample_post [("employee_id", "2")]) 1) in
  let db2 := store (unassign_asset sample_env db1 (sample_post []) 1) in
  (∃ a1, assets db1 !! 1 = Some a1 ∧ Asset.status a1 = "assigned"
         ∧ Asset.assigned_to a1 = Some 2
         ∧ Asset.assigned_date a1 = Some (date_of (now sample_env)))
  ∧ ∃ a2, assets db2 !! 1 = Some a2 ∧ Asset.status a2 = "available"
          ∧ Asset.assigned_to a2 = None ∧ Asset.assigned_date a2 = None.
Proof.
  apply (assign_then_unassign sample_env sample_env sample_db
           (sample_post [("employee_id", "2")]) (sample_post []) 1 7 7 2
           sample_asset sample_employee2).
  - exact sample_db_ok.
  - reflexivity.
  - reflexivity.
  - split; [reflexivity|]. split; [reflexivity|].
    exists "2". split; [reflexivity|]. split; [discriminate|reflexivity].
  - split; reflexivity.
Defined.

(** C3, as stated, fails: a POST Unassign call on the sample asset
    [AST001], which has no assignee, is answered with the redirect and
    creates no history row. *)
Lemma unassign_without_assignee_no_history_row :
  assets sample_db !! 1 = Some sample_asset
  ∧ unassign_call (sample_post []) 7
  ∧ response (unassign_asset sample_env sample_db (sample_post []) 1)
    = Redirect (asset_detail 1)
  ∧ ¬ ∃ h : AssetHistory.t, history (store (unassign_asset sample_env sample_db (sample_post []) 1))
           = history sample_db ++ [h].
Proof.
  split; [reflexivity|]. split; [by split|]. split; [reflexivity|].
  intros [h Hh]. vm_compute in Hh. discriminate.
Qed.

(** C3, amended: in a store within the schema constraints, every Assign
    call for an existing asset and an existing employee appends exactly one
    history row to the table, with action [assigned], for that asset and by
    that user; and every Unassign call for an asset that has an assignee
    appends exactly one, with action [unassigned]; the rows that were there
    stay as they were.  Each half holds on its own: the Assign half asks
    for no assigned asset in the store. *)
Theorem assign_unassign_one_history_row env db u :
  schema_ok db →
  (∀ request pk asset epk employee,
      assets db !! pk = Some asset →
      employees db !! epk = Some employee →
      assign_call request u epk →
      ∃ h : AssetHistory.t,
        history (store (assign_asset env db request pk)) = history db ++ [h]
        ∧ AssetHistory.action h = "assigned"
        ∧ AssetHistory.asset h = pk
        ∧ AssetHistory.performed_by h = Some u)
  ∧ (∀ request pk asset old,
      assets db !! pk = Some asset →
      Asset.assigned_to asset = Some old →
      unassign_call request u →
      ∃ h : AssetHistory.t,
        history (store (unassign_asset env db request pk)) = history db ++ [h]
        ∧ AssetHistory.action h = "unassigned"
        ∧ AssetHistory.asset h = pk
        ∧ AssetHistory.performed_by h = Some u).
Proof.
  intros Hok. split.
  - intros request pk asset epk employee Hasset Hemp Hassign.
    destruct (assign_asset_store env db request pk u epk asset employee)
      as (o & _ & _ & ->); try done.
    by eexists.
  - intros request pk asset old Hasset Hold Hunassign.
    destruct (unassign_asset_store env db request pk u asset old)
      as (o & _ & _ & ->); try done.
    by eexists.
Qed.

Lemma assign_unassign_one_history_row_witness :
  (∃ h : AssetHistory.t,
      history (store (assign_asset sample_env sample_unassigned_db
                        (sample_post [("employee_id", "1")]) 1))
      = history sample_unassigned_db ++ [h]
      ∧ AssetHistory.action h = "assigned"
      ∧ AssetHistory.asset h = 1
      ∧ AssetHistory.performed_by h = Some 7)
  ∧ (∃ h : AssetHistory.t,
      history (store (unassign_asset sample_env sample_db (sample_post []) 2))
      = history sample_db ++ [h]
      ∧ AssetHistory.action h = "unassigned"
      ∧ AssetHistory.asset h = 2
      ∧ AssetHistory.performed_by h = Some 7).
Proof.
  split.
  - apply (proj1 (assign_unassign_one_history_row sample_env sample_unassigned_db 7
                    sample_unassigned_db_ok)
             (sample_post [("employee_id", "1")]) 1 sample_asset 1 sample_employee1).
    + reflexivity.
    + reflexivity.
    + split; [reflexivity|]. split; [reflexivity|].
      exists "1". split; [reflexivity|]. split; [discriminate|reflexivity].
  - apply (proj2 (assign_unassign_one_history_row sample_env sample_db 7 sample_db_ok)
             (sample_post []) 2 sample_assigned_asset 1).
    + reflexivity.
    + reflexivity.
    + split; reflexivity.
Defined.

(** C6, as stated, fails: assigning [AST002], held by Ada Lovelace
    (EMP001), to another employee writes a row whose [old_value] is not her
    name but her name followed by her employee id. *)
Lemma assign_old_value_is_not_full_name :
  assets sample_db !! 2 = Some sample_assigned_asset
  ∧ Asset.assigned_to sample_assigned_asset = Some 1
  ∧ employees sample_db !! 1 = Some sample_employee1
  ∧ Employee.full_name sample_employee1 = "Ada Lovelace"
  ∧ ∃ h : AssetHistory.t, history (store (assign_asset sample_env sample_db
                           (sample_post [("employee_id", "2")]) 2))
         = history sample_db ++ [h]
         ∧ AssetHistory.old_value h = Some "Ada Lovelace (EMP001)"
         ∧ AssetHistory.old_value h ≠ Some (Employee.full_name sample_employee1).
Proof.
  do 4 (split; [reflexivity|]).
  eexists. split; [vm_compute; reflexivity|]. split; [reflexivity|discriminate].
Qed.

(** C6, amended: an Assign call for an existing asset and an existing
    employee writes one history row whose [new_value] is the full name of
    the new assignee and whose [old_value] is the text [None] when the
    asset had no assignee, and otherwise the prior assignee as
    [Employee.__str__] prints it: the full name followed by the employee id
    in parentheses. *)
Theorem assign_history_values env db u request pk asset epk employee :
  schema_ok db →
  assets db !! pk = Some asset →
  employees db !! epk = Some employee →
  assign_call request u epk →
  ∃ h : AssetHistory.t, history (store (assign_asset env db request pk)) = history db ++ [h]
       ∧ AssetHistory.new_value h = Some (Employee.full_name employee)
       ∧ AssetHistory.old_value h
         = Some (match Asset.assigned_to asset ≫= (employees db !!.) with
                 | Some prior =>
                     Employee.full_name prior +:+ " (" +:+ Employee.employee_id prior +:+ ")"
                 | None => "None"
                 end).
Proof.
  intros Hok Hasset Hemp Hassign.
  destruct (assign_asset_store env db request pk u epk asset employee)
    as (o & Ho & _ & ->); try done.
  eexists. split; [done|]. split; [done|]. simpl. f_equal.
  unfold related_employee in Ho.
  destruct (Asset.assigned_to asset) as [e|]; simpl.
  - destruct (employees db !! e) as [prior|]; simplify_eq/=.
    unfold Employee.str, Employee.full_name.
    by rewrite !append_assoc.
  - by simplify_eq.
Qed.

Lemma assign_history_values_witness :
  ∃ h : AssetHistory.t, history (store (assign_asset sample_env sample_db
                         (sample_post [("employee_id", "2")]) 2))
       = history sample_db ++ [h]
       ∧ AssetHistory.new_value h = Some (Employee.full_name sample_employee2)
       ∧ AssetHistory.old_value h
         = Some (match Asset.assigned_to sample_assigned_asset
                       ≫= (employees sample_db !!.) with
                 | Some prior =>
                     Employee.full_name prior +:+ " (" +:+ Employee.employee_id prior +:+ ")"
                 | None => "None"
                 end).
Proof.
  apply (assign_history_values sample_env sample_db 7
           (sample_post [("employee_id", "2")]) 2 sample_assigned_asset 2
           sample_employee2).
  - exact sample_db_ok.
  - reflexivity.
  - reflexivity.
  - split; [reflexivity|]. split; [reflexivity|].
    exists "2". split; [reflexivity|]. split; [discriminate|reflexivity].
Defined.

(** ** Computations on the store *)

Section monad.
Context {A B : Type}.
Implicit Types (m : M A) (f : A → M B) (R : relation DB).

Lemma bind_inv m f db db' r :
  bind m f db = (db', r) →
  (∃ e, m db = (db', inl e) ∧ r = inl e)
  ∨ (∃ a db1, m db = (db1, inr a) ∧ f a db1 = (db', r)).
Proof.
  unfold bind. destruct (m db) as [db1 [e|a]]; intros Hrun.
  - left. injection Hrun as -> <-. eauto.
  - right. eauto.
Qed.

Lemma preserves_ret R `{!Reflexive R} (a : A) : preserves R (ret a).
Proof. intros db. simpl. reflexivity. Qed.

Lemma preserves_raise R `{!Reflexive R} e : preserves R (raise (A:=A) e).
Proof. intros db. simpl. reflexivity. Qed.

Lemma preserves_bind R `{!Transitive R} m f :
  preserves R m → (∀ a, preserves R (f a)) → preserves R (bind m f).
Proof.
  intros Hm Hf db. specialize (Hm db). unfold bind.
  destruct (m db) as [db1 [e|a]]; [done|].
  etrans; [exact Hm|]. apply Hf.
Qed.

Lemma preserves_weaken R R' m :
  (∀ db db', R db db' → R' db db') → preserves R m → preserves R' m.
Proof. intros HR Hm db. apply HR, Hm. Qed.

(** After the first step, the rest keeps what it preserves. *)
Lemma bind_rest R `{!Reflexive R} m f db :
  (∀ a, preserves R (f a)) → R (m db).1 (bind m f db).1.
Proof.
  intros Hf. unfold bind. destruct (m db) as [db1 [e|a]]; simpl; [done|]. apply Hf.
Qed.

Lemma fails_clean_bind R `{!Transitive R} m f :
  preserves R m → (∀ a, fails_clean R (f a)) → fails_clean R (bind m f).
Proof.
  intros Hm Hf db db' e Hrun. specialize (Hm db).
  apply bind_inv in Hrun as [(e' & Hrun & _)|(a & db1 & Hrun & Hrest)];
    rewrite Hrun in Hm; simpl in Hm; [done|].
  etrans; [exact Hm|]. by eapply Hf.
Qed.

Lemma fails_clean_bind_total R m f :
  fails_clean R m → (∀ a, total (f a)) → fails_clean R (bind m f).
Proof.
  intros Hm Hf db db' e Hrun.
  apply bind_inv in Hrun as [(e' & Hrun & _)|(a & db1 & Hrun & Hrest)].
  - by eapply Hm.
  - destruct (Hf a db1) as [b Hb]. rewrite Hrest in Hb. done.
Qed.

Lemma fails_clean_of_preserves R m : preserves R m → fails_clean R m.
Proof. intros Hm db db' e Hrun. specialize (Hm db). by rewrite Hrun in Hm. Qed.
End monad.

#[local] Instance lookup_step_refl : Reflexive lookup_step.
Proof. by intros db. Qed.

#[local] Instance lookup_step_trans : Transitive lookup_step.
Proof.
  intros db1 db2 db3 (?&?&?&?) (?&?&?&?). repeat split; congruence.
Qed.

#[local] Instance history_kept_refl : Reflexive history_kept.
Proof. intros db. by unfold history_kept. Qed.

#[local] Instance history_kept_trans : Transitive history_kept.
Proof. intros db1 db2 db3. unfold history_kept. by etrans. Qed.

#[local] Instance assets_kept_refl : Reflexive assets_kept.
Proof. intros db k a Hk. eauto. Qed.

#[local] Instance assets_kept_trans : Transitive assets_kept.
Proof.
  intros db1 db2 db3 H12 H23 k a Hk.
  destruct (H12 k a Hk) as (a2 & Hk2 & Ht2).
  destruct (H23 k a2 Hk2) as (a3 & Hk3 & Ht3).
  exists a3. split; [done|congruence].
Qed.

#[local] Instance categories_same_refl : Reflexive categories_same.
Proof. by intros db. Qed.

#[local] Instance categories_same_trans : Transitive categories_same.
Proof. intros db1 db2 db3. unfold categories_same. congruence. Qed.

Lemma lookup_step_history_kept db db' : lookup_step db db' → history_kept db db'.
Proof. intros (_&_&Hh&_). unfold history_kept. by rewrite Hh. Qed.

Lemma lookup_step_assets_kept db db' : lookup_step db db' → assets_kept db db'.
Proof. intros (_&Ha&_&_) k a Hk. rewrite Ha. eauto. Qed.

(** ** The steps of the import *)

Lemma get_or_create_cases {A} model (P : A → bool) new (table : gmap Z A) :
  (count_where P table = 0%nat
   ∧ get_or_create model P new table
     = inr (next_pk table, true, <[next_pk table := new]> table))
  ∨ (count_where P table = 1%nat
     ∧ ∃ k a, table !! k = Some a ∧ P a = true
              ∧ get_or_create model P new table = inr (k, false, table))
  ∨ ((1 < count_where P table)%nat
     ∧ get_or_create model P new table = inl (MultipleObjectsReturned model)).
Proof.
  unfold get_or_create, objects_get. rewrite count_where_rows.
  destruct (rows_where P table) as [|[k a] [|??]] eqn:Hrows; simpl.
  - by left.
  - right; left. split; [done|]. exists k, a.
    assert ((k, a) ∈ rows_where P table) as Hin by (rewrite Hrows; left).
    apply rows_where_elem in Hin as [??]. done.
  - right; right. split; [lia|done].
Qed.

Lemma Category_get_or_create_lookup name : preserves lookup_step (Category_get_or_create name).
Proof.
  intros db. unfold Category_get_or_create.
  by destruct (get_or_create _ _ _ _) as [e|[[k b] t]].
Qed.

Lemma Location_get_or_create_lookup name : preserves lookup_step (Location_get_or_create name).
Proof.
  intros db. unfold Location_get_or_create.
  by destruct (get_or_create _ _ _ _) as [e|[[k b] t]].
Qed.

Lemma Vendor_get_or_create_lookup now name :
  preserves lookup_step (Vendor_get_or_create now name).
Proof.
  intros db. unfold Vendor_get_or_create.
  by destruct (get_or_create _ _ _ _) as [e|[[k b] t]].
Qed.

Lemma Location_get_or_create_categories name :
  preserves categories_same (Location_get_or_create name).
Proof.
  intros db. unfold Location_get_or_create.
  by destruct (get_or_create _ _ _ _) as [e|[[k b] t]].
Qed.

Lemma Vendor_get_or_create_categories now name :
  preserves categories_same (Vendor_get_or_create now name).
Proof.
  intros db. unfold Vendor_get_or_create.
  by destruct (get_or_create _ _ _ _) as [e|[[k b] t]].
Qed.

Lemma to_cost_preserves R `{!Reflexive R} v : preserves R (to_cost v).
Proof. unfold to_cost. destruct (as_float v); [apply preserves_ret|apply preserves_raise]; done. Qed.

(** A save touches the asset table only, and nothing when it raises. *)
Lemma Asset_save_M_cases now pk obj db :
  (∃ e, Asset_save_M now pk obj db = (db, inl e))
  ∨ (tag_clashes pk (Asset.asset_tag obj) (assets db) = ∅
     ∧ Asset_save_M now pk obj db
       = (set_assets (<[default (next_pk (assets db)) pk
                        := touch now (bool_decide (pk = None)) obj]> (assets db)) db,
          inr (default (next_pk (assets db)) pk))).
Proof.
  unfold Asset_save_M, Asset_save. case_bool_decide; [right|left]; eauto.
Qed.

(** What [update_or_create] does when it returns. *)
Lemma Asset_update_or_create_returns now tag d db db' k created :
  Asset_update_or_create now tag d db = (db', inr (k, created)) →
  (created = false
   ∧ ∃ a, assets db !! k = Some a ∧ Asset.asset_tag a = tag
          ∧ db' = set_assets (<[k := touch now false (Asset_update d a)]> (assets db)) db)
  ∨ (created = true
     ∧ count_where (λ a, bool_decide (Asset.asset_tag a = tag)) (assets db) = 0%nat
     ∧ k = next_pk (assets db)
     ∧ db' = set_assets (<[k := touch now true (Asset_new tag d)]> (assets db)) db).
Proof.
  unfold Asset_update_or_create, Asset_objects_get, bind, ret, raise.
  destruct (objects_get _ _ _) as [e|[k0 a]] eqn:Hget.
  - destruct e; try done.
    apply objects_get_missing in Hget as [Hcount _].
    destruct (Asset_save_M_cases now None (Asset_new tag d) db) as [[e ->]|[_ ->]];
      [done|].
    intros [= <- <- <-]. right. done.
  - apply objects_get_found in Hget as (Hk & Htag & _).
    apply bool_decide_eq_true in Htag.
    destruct (Asset_save_M_cases now (Some k0) (Asset_update d a) db) as [[e ->]|[_ ->]];
      [done|].
    intros [= <- <- <-]. left. split; [done|]. exists a. done.
Qed.

(** What [update_or_create] does when it raises: nothing. *)
Lemma Asset_update_or_create_raises now tag d :
  fails_clean eq (Asset_update_or_create now tag d).
Proof.
  intros db db' e.
  unfold Asset_update_or_create, Asset_objects_get, bind, ret, raise.
  destruct (objects_get _ _ _) as [e0|[k0 a]] eqn:Hget.
  - destruct e0; try by intros [= <- _].
    destruct (Asset_save_M_cases now None (Asset_new tag d) db) as [[e1 ->]|[_ ->]];
      [by intros [= <- _]|done].
  - destruct (Asset_save_M_cases now (Some k0) (Asset_update d a) db) as [[e1 ->]|[_ ->]];
      [by intros [= <- _]|done].
Qed.

Lemma Asset_update_or_create_run now tag d db :
  (∃ e, Asset_update_or_create now tag d db = (db, inl e))
  ∨ ∃ db' k created, Asset_update_or_create now tag d db = (db', inr (k, created)).
Proof.
  destruct (Asset_update_or_create now tag d db) as [db' [e|[k created]]] eqn:Hrun.
  - left. apply Asset_update_or_create_raises in Hrun as <-. eauto.
  - right. eauto.
Qed.

Lemma Asset_update_or_create_history now tag d :
  preserves history_kept (Asset_update_or_create now tag d).
Proof.
  intros db. destruct (Asset_update_or_create_run now tag d db)
    as [[e ->]|(db' & k & created & Hrun)]; [done|].
  rewrite Hrun. simpl. unfold history_kept.
  by apply Asset_update_or_create_returns in Hrun
    as [(_ & a & _ & _ & ->)|(_ & _ & _ & ->)].
Qed.

Lemma Asset_update_or_create_categories now tag d :
  preserves categories_same (Asset_update_or_create now tag d).
Proof.
  intros db. destruct (Asset_update_or_create_run now tag d db)
    as [[e ->]|(db' & k & created & Hrun)]; [done|].
  rewrite Hrun. simpl.
  by apply Asset_update_or_create_returns in Hrun
    as [(_ & a & _ & _ & ->)|(_ & _ & _ & ->)].
Qed.

Lemma Asset_update_or_create_assets now tag d :
  preserves assets_kept (Asset_update_or_create now tag d).
Proof.
  intros db. destruct (Asset_update_or_create_run now tag d db)
    as [[e ->]|(db' & k & created & Hrun)]; [done|].
  rewrite Hrun. simpl.
  apply Asset_update_or_create_returns in Hrun
    as [(_ & a & Hk & Htag & ->)|(_ & _ & -> & ->)]; intros k' a' Hk'; simpl.
  - destruct (decide (k' = k)) as [->|Hne].
    + rewrite lookup_insert_eq. eexists. split; [done|]. simpl. congruence.
    + rewrite lookup_insert_ne by done. eauto.
  - rewrite lookup_insert_ne; [eauto|].
    intros <-. by rewrite next_pk_fresh in Hk'.
Qed.

Lemma AssetHistory_create_M_total row : total (AssetHistory_create_M row).
Proof. intros db. by exists (). Qed.

Lemma AssetHistory_create_M_history row : preserves history_kept (AssetHistory_create_M row).
Proof. intros db. simpl. by apply prefix_app_r. Qed.

Lemma AssetHistory_create_M_assets row : preserves assets_kept (AssetHistory_create_M row).
Proof. intros db k a Hk. simpl. eauto. Qed.

Lemma AssetHistory_create_M_categories row :
  preserves categories_same (AssetHistory_create_M row).
Proof. by intros db. Qed.

Create HintDb import_steps.

#[local] Hint Resolve
  Category_get_or_create_lookup Location_get_or_create_lookup
  Vendor_get_or_create_lookup Location_get_or_create_categories
  Vendor_get_or_create_categories
  Asset_update_or_create_history Asset_update_or_create_categories
  Asset_update_or_create_assets AssetHistory_create_M_history
  AssetHistory_create_M_assets AssetHistory_create_M_categories
  lookup_step_history_kept lookup_step_assets_kept : import_steps.

(** Walks a chain of binds, closing each step from the hint base, directly
    or through a weaker frame. *)
Ltac walk_steps :=
  repeat first
    [ apply preserves_ret; apply _
    | apply preserves_raise; apply _
    | apply to_cost_preserves; apply _
    | solve [eauto with import_steps]
    | solve [apply (preserves_weaken lookup_step); eauto with import_steps]
    | apply preserves_bind; [apply _| |intros ?]
    | match goal with
      | |- preserves _ (match ?x with _ => _ end) => destruct x
      | |- preserves _ (let '(_, _) := ?x in _) => destruct x
      end ].

(** ** One row of the import *)

Lemma import_row_history now u cols row :
  preserves history_kept (import_row now u cols row).
Proof. unfold import_row. walk_steps. Qed.

Lemma import_row_assets now u cols row :
  preserves assets_kept (import_row now u cols row).
Proof. unfold import_row. walk_steps. Qed.

Lemma preserves_run {A} R (m : M A) db db' r :
  preserves R m → m db = (db', r) → R db db'.
Proof. intros Hm Hrun. specialize (Hm db). by rewrite Hrun in Hm. Qed.

Lemma total_ret {A} (a : A) : total (ret a).
Proof. intros db. by exists a. Qed.

Lemma fails_clean_weaken {A} R R' (m : M A) :
  (∀ db db', R db db' → R' db db') → fails_clean R m → fails_clean R' m.
Proof. intros HR Hm db db' e Hrun. by eapply HR, Hm. Qed.

(** A row that raises has written to the lookup tables at most. *)
Lemma import_row_raises now u cols row :
  fails_clean lookup_step (import_row now u cols row).
Proof.
  unfold import_row.
  do 4 (apply fails_clean_bind; [apply _|walk_steps|intros ?]).
  apply fails_clean_bind_total.
  - eapply fails_clean_weaken; [|apply Asset_update_or_create_raises].
    by intros ?? <-.
  - intros [asset created]. destruct created;
      [apply AssetHistory_create_M_total|apply total_ret].
Qed.

(** What a row that imports has done. *)
Lemma import_row_returns now u cols row db db' :
  import_row now u cols row db = (db', inr ()) →
  ∃ dbl d k created dbu,
    lookup_step db dbl
    ∧ categories dbl = import_categories cols row (categories db)
    ∧ (∀ n, category_name cols row = Some n →
         ∃ kc c, d_category d = Some kc ∧ categories dbl !! kc = Some c
                 ∧ Category.name c = n)
    ∧ Asset_update_or_create now (strip (cell_str row "asset_tag")) d dbl
      = (dbu, inr (k, created))
    ∧ db' = if created then AssetHistory_create (imported_row now u k) dbu else dbu.
Proof.
  unfold import_row. intros H.
  apply bind_inv in H as [(e & _ & [=])|(category & db1 & H1 & H)].
  apply bind_inv in H as [(e & _ & [=])|(location & db2 & H2 & H)].
  apply bind_inv in H as [(e & _ & [=])|(vendor & db3 & H3 & H)].
  apply bind_inv in H as [(e & _ & [=])|(cost & db4 & H4 & H)].
  apply bind_inv in H as [(e & _ & [=])|([k created] & db5 & H5 & H)].
  pose proof H1 as L1. apply (preserves_run lookup_step) in L1; [|walk_steps].
  pose proof H2 as L2. apply (preserves_run lookup_step) in L2; [|walk_steps].
  pose proof H3 as L3. apply (preserves_run lookup_step) in L3; [|walk_steps].
  pose proof H4 as L4. apply (preserves_run lookup_step) in L4; [|walk_steps].
  pose proof H2 as C2. apply (preserves_run categories_same) in C2; [|walk_steps].
  pose proof H3 as C3. apply (preserves_run categories_same) in C3; [|walk_steps].
  pose proof H4 as C4. apply (preserves_run categories_same) in C4; [|walk_steps].
  assert (categories db4 = categories db1) as Hcat.
  { unfold categories_same in *. congruence. }
  eexists db4, _, k, created, db5.
  split; [by repeat (etrans; [eassumption|])|].
  split; [|split; [|split; [exact H5|]]].
  - rewrite Hcat. unfold import_categories, category_name.
    destruct (present cols row "category") as [v|]; simpl in *.
    + unfold bind, Category_get_or_create, ret in H1.
      destruct (get_or_create _ _ _ _) as [e|[[kc b] t]]; by simplify_eq/=.
    + by injection H1 as <- <-.
  - intros n Hn. rewrite Hcat. unfold category_name in Hn. simpl.
    destruct (present cols row "category") as [v|]; simplify_eq/=.
    unfold bind, Category_get_or_create, ret in H1.
    destruct (get_or_create_cases "Category"
                (λ c, bool_decide (Category.name c = strip (as_str v)))
                (Category.mk (strip (as_str v)) None "fas fa-box") (categories db))
      as [[_ Hgoc]|[[_ (kc & c & Hkc & HP & Hgoc)]|[_ Hgoc]]];
      rewrite Hgoc in H1; simplify_eq/=.
    + eexists _, _. split; [done|]. by rewrite lookup_insert_eq.
    + apply bool_decide_eq_true in HP. eauto.
  - destruct created; unfold AssetHistory_create_M, ret in H; by simplify_eq.
Qed.

(** The category table after a row, whether it imports or raises. *)
Lemma import_row_categories now u cols row db :
  categories (import_row now u cols row db).1
  = import_categories cols row (categories db).
Proof.
  unfold import_row.
  match goal with
  | |- categories (bind ?m ?f db).1 = _ =>
      trans (categories (m db).1);
        [apply (bind_rest categories_same m f db); intros ?; walk_steps|]
  end.
  unfold import_categories, category_name.
  destruct (present cols row "category") as [v|]; simpl; [|done].
  unfold bind, Category_get_or_create, ret.
  by destruct (get_or_create _ _ _ _) as [e|[[kc b] t]].
Qed.

(** The category step creates a category only for a name that has none. *)
Lemma import_categories_cases cols row table :
  (∃ n, category_name cols row = Some n ∧ named n table = 0%nat
        ∧ import_categories cols row table
          = <[next_pk table := Category.mk n None "fas fa-box"]> table)
  ∨ import_categories cols row table = table
    ∧ ∀ n, category_name cols row = Some n → named n table ≠ 0%nat.
Proof.
  unfold import_categories.
  destruct (category_name cols row) as [n|]; [|by right].
  destruct (get_or_create_cases "Category"
              (λ c, bool_decide (Category.name c = n))
              (Category.mk n None "fas fa-box") table)
    as [[Hc ->]|[[Hc (kc & c & _ & _ & ->)]|[Hc ->]]].
  - left. eauto.
  - right. split; [done|]. intros ? [= <-]. unfold named. lia.
  - right. split; [done|]. intros ? [= <-]. unfold named. lia.
Qed.

Lemma named_insert_fresh n m table :
  named n (<[next_pk table := Category.mk m None "fas fa-box"]> table)
  = ((if bool_decide (m = n) then 1 else 0) + named n table)%nat.
Proof.
  unfold named. rewrite count_where_insert_fresh by apply next_pk_fresh. done.
Qed.

(** Once a name has its category, no row adds another. *)
Lemma import_categories_named_1 cols row table n :
  named n table = 1%nat → named n (import_categories cols row table) = 1%nat.
Proof.
  intros Hn.
  destruct (import_categories_cases cols row table)
    as [(m & _ & Hm & ->)|[-> _]]; [|done].
  rewrite named_insert_fresh. case_bool_decide; [|done]. subst. lia.
Qed.

(** A row that does not carry the name adds no category of that name. *)
Lemma import_categories_named_other cols row table n :
  category_name cols row ≠ Some n →
  named n (import_categories cols row table) = named n table.
Proof.
  intros Hne.
  destruct (import_categories_cases cols row table)
    as [(m & Hrow & _ & ->)|[-> _]]; [|done].
  rewrite named_insert_fresh. case_bool_decide; [|done]. by subst.
Qed.

(** ** The loop of the import *)

Lemma import_rows_app now u cols i rs1 rs2 db t :
  import_rows now u cols i (rs1 ++ rs2) db t
  = import_rows now u cols (i + Z.of_nat (length rs1)) rs2
      (import_rows now u cols i rs1 db t).1 (import_rows now u cols i rs1 db t).2.
Proof.
  revert i db t. induction rs1 as [|row rs1 IH]; intros i db t; simpl.
  - by rewrite Z.add_0_r.
  - destruct (import_row now u cols row db) as [db1 [e|[]]];
      rewrite IH; f_equal; lia.
Qed.

Lemma import_rows_history now u cols i rs db t :
  history_kept db (import_rows now u cols i rs db t).1.
Proof.
  revert i db t. induction rs as [|row rs IH]; intros i db t; simpl; [done|].
  pose proof (import_row_history now u cols row db) as Hrow.
  destruct (import_row now u cols row db) as [db1 [e|[]]]; simpl in Hrow;
    (etrans; [exact Hrow|apply IH]).
Qed.

Lemma import_rows_assets now u cols i rs db t :
  assets_kept db (import_rows now u cols i rs db t).1.
Proof.
  revert i db t. induction rs as [|row rs IH]; intros i db t; simpl; [done|].
  pose proof (import_row_assets now u cols row db) as Hrow.
  destruct (import_row now u cols row db) as [db1 [e|[]]]; simpl in Hrow;
    (etrans; [exact Hrow|apply IH]).
Qed.

Lemma import_rows_named_1 now u cols i rs db t n :
  named n (categories db) = 1%nat →
  named n (categories (import_rows now u cols i rs db t).1) = 1%nat.
Proof.
  revert i db t. induction rs as [|row rs IH]; intros i db t Hn; simpl; [done|].
  pose proof (import_row_categories now u cols row db) as Hrow.
  destruct (import_row now u cols row db) as [db1 [e|[]]]; simpl in Hrow;
    apply IH; rewrite Hrow; by apply import_categories_named_1.
Qed.

Lemma import_rows_named_other now u cols i rs db t n :
  Forall (λ row, category_name cols row ≠ Some n) rs →
  named n (categories (import_rows now u cols i rs db t).1) = named n (categories db).
Proof.
  intros Hrs. revert i db t.
  induction Hrs as [|row rs Hne _ IH]; intros i db t; simpl; [done|].
  pose proof (import_row_categories now u cols row db) as Hrow.
  destruct (import_row now u cols row db) as [db1 [e|[]]]; simpl in Hrow;
    rewrite IH, Hrow; by apply import_categories_named_other.
Qed.

(** A row that imports and carries a category name has linked its asset to
    a category of that name. *)
Lemma import_row_links_category now u cols row db db' n :
  import_row now u cols row db = (db', inr ()) →
  category_name cols row = Some n →
  ∃ ka a kc c,
    assets db' !! ka = Some a
    ∧ Asset.asset_tag a = strip (cell_str row "asset_tag")
    ∧ Asset.category a = Some kc
    ∧ categories db' !! kc = Some c ∧ Category.name c = n.
Proof.
  intros Hrun Hn.
  apply import_row_returns in Hrun
    as (dbl & d & k & created & dbu & _ & _ & Hlink & Huoc & ->).
  destruct (Hlink n Hn) as (kc & c & Hd & Hkc & Hname).
  apply Asset_update_or_create_returns in Huoc
    as [(-> & a & Hk & Htag & ->)|(-> & _ & -> & ->)]; simpl.
  - exists k, (touch now false (Asset_update d a)), kc, c.
    rewrite lookup_insert_eq. done.
  - eexists _, (touch now true (Asset_new _ d)), kc, c.
    rewrite lookup_insert_eq. done.
Qed.

Lemma count_where_1_unique {A} (P : A → bool) (table : gmap Z A) k1 k2 a1 a2 :
  count_where P table = 1%nat →
  table !! k1 = Some a1 → P a1 = true →
  table !! k2 = Some a2 → P a2 = true → k1 = k2.
Proof.
  intros Hc H1 HP1 H2 HP2.
  destruct (objects_get_of_count_1 "" P table Hc) as (k & a & Hget).
  apply objects_get_found in Hget as (_ & _ & _ & Huniq).
  rewrite (Huniq k1 a1), (Huniq k2 a2); done.
Qed.

Lemma import_categories_mono cols row table :
  table ⊆ import_categories cols row table.
Proof.
  destruct (import_categories_cases cols row table)
    as [(m & _ & _ & ->)|[-> _]]; [|done].
  apply insert_subseteq, next_pk_fresh.
Qed.

Lemma import_rows_categories_mono now u cols i rs db t :
  categories db ⊆ categories (import_rows now u cols i rs db t).1.
Proof.
  revert i db t. induction rs as [|row rs IH]; intros i db t; simpl; [done|].
  pose proof (import_row_categories now u cols row db) as Hrow.
  destruct (import_row now u cols row db) as [db1 [e|[]]]; simpl in Hrow;
    (etrans; [|apply IH]); rewrite Hrow; apply import_categories_mono.
Qed.

(** The first step of the loop, by the store the row leaves. *)
Lemma import_rows_cons now u cols i row rs db t :
  ∃ t', (import_rows now u cols i (row :: rs) db t).1
        = (import_rows now u cols (i + 1) rs (import_row now u cols row db).1 t').1.
Proof.
  simpl. destruct (import_row now u cols row db) as [db1 [e|[]]]; eauto.
Qed.

(** The loop and a category name that is new: the first row that carries it
    creates one category; the later rows create none and link to it. *)
Lemma import_rows_category_once now u cols i pre row post db t n :
  named n (categories db) = 0%nat →
  Forall (λ r, category_name cols r ≠ Some n) pre →
  category_name cols row = Some n →
  let db1 := (import_rows now u cols i pre db t).1 in
  let db2 := (import_row now u cols row db1).1 in
  let db3 := (import_rows now u cols i (pre ++ row :: post) db t).1 in
  let k := next_pk (categories db1) in
  categories db2 = <[k := Category.mk n None "fas fa-box"]> (categories db1)
  ∧ categories db1 !! k = None
  ∧ named n (categories db3) = 1%nat
  ∧ categories db3 !! k = Some (Category.mk n None "fas fa-box")
  ∧ ∀ mid row' rest,
      post = mid ++ row' :: rest → category_name cols row' = Some n →
      let dbm := (import_rows now u cols i (pre ++ row :: mid) db t).1 in
      let out := import_row now u cols row' dbm in
      categories out.1 = categories dbm
      ∧ (out.2 = inr () →
         ∃ ka a, assets out.1 !! ka = Some a
                 ∧ Asset.asset_tag a = strip (cell_str row' "asset_tag")
                 ∧ Asset.category a = Some k).
Proof.
  intros H0 Hpre Hrow db1 db2 db3 k.
  assert (named n (categories db1) = 0%nat) as H1.
  { subst db1. by rewrite import_rows_named_other. }
  assert (categories db2 = <[k := Category.mk n None "fas fa-box"]> (categories db1))
    as Hdb2.
  { subst db2. rewrite import_row_categories.
    destruct (import_categories_cases cols row (categories db1))
      as [(m & Hm & _ & ->)|[_ Hne]]; [|by destruct (Hne n Hrow)].
    by assert (m = n) as -> by congruence. }
  assert (named n (categories db2) = 1%nat) as H2.
  { rewrite Hdb2. subst k. rewrite named_insert_fresh, H1.
    by rewrite bool_decide_eq_true_2. }
  assert (∀ rs, let dbe := (import_rows now u cols i (pre ++ row :: rs) db t).1 in
                named n (categories dbe) = 1%nat
                ∧ categories dbe !! k = Some (Category.mk n None "fas fa-box"))
    as Hlater.
  { intros rs. simpl. rewrite import_rows_app.
    destruct (import_rows_cons now u cols (i + Z.of_nat (length pre)) row rs
                (import_rows now u cols i pre db t).1
                (import_rows now u cols i pre db t).2) as [t' ->].
    fold db1. fold db2. split; [by apply import_rows_named_1|].
    eapply lookup_weaken; [|apply import_rows_categories_mono].
    rewrite Hdb2. apply lookup_insert_eq. }
  split; [done|]. split; [apply next_pk_fresh|].
  destruct (Hlater post) as [H3 Hk3]. split; [done|]. split; [done|].
  intros mid row' rest -> Hrow' dbm out.
  destruct (Hlater mid) as [Hm Hkm]. fold dbm in Hm, Hkm.
  assert (categories out.1 = categories dbm) as Hsame.
  { subst out. rewrite import_row_categories.
    destruct (import_categories_cases cols row' (categories dbm))
      as [(m & Hm' & Hm0 & _)|[-> _]]; [|done].
    assert (m = n) as -> by congruence. lia. }
  split; [done|]. intros Hout.
  destruct out as [dbo r] eqn:Hrun. simpl in *. subst r.
  destruct (import_row_links_category _ _ _ _ _ _ n Hrun Hrow')
    as (ka & a & kc & c & Hka & Htag & Hcat & Hkc & Hname).
  exists ka, a. split; [done|]. split; [done|]. rewrite Hcat. f_equal.
  rewrite Hsame in Hkc.
  eapply (count_where_1_unique _ (categories dbm)); [exact Hm|exact Hkc| |exact Hkm|].
  - by apply bool_decide_eq_true.
  - by apply bool_decide_eq_true.
Qed.

(** A POST with a readable spreadsheet that has the two required columns
    runs the loop from row 0 with empty counters, and reports its tally. *)
Lemma bulk_import_runs env db request u file df :
  method request = POST → user request = Some u →
  FILES request !! "file" = Some file →
  endswith (file_name file) ".xlsx" || endswith (file_name file) ".xls" = true →
  read_excel file = inr df →
  "asset_tag" ∈ columns df → "name" ∈ columns df →
  bulk_import env db request
  = mkOutcome
      (import_rows (now env) u (columns df) 0 (rows df) db (mkTally 0 0 [])).1
      (Redirect asset_list)
      (import_messages
         (import_rows (now env) u (columns df) 0 (rows df) db (mkTally 0 0 [])).2)
      [].
Proof.
  intros Hm Hu Hfile Hname Hread Htag Hcol.
  unfold bulk_import, login_required. rewrite Hu, Hm, Hfile, Hname, Hread. simpl.
  rewrite !filter_cons_False, filter_nil by (intros Hn; by apply Hn).
  by destruct (import_rows _ _ _ _ _ _ _).
Qed.







(** C8: in one bulk import (a POST by a signed-in user with a readable
    spreadsheet that has the required columns), when no category bears the
    name [n] and [row] is the first row of the sheet whose category cell
    holds [n] (after stripping): no category bears the name until the loop
    reaches the row; the row creates exactly one category, with that name;
    in the store the import leaves there is exactly one category of that
    name, the one created; and every later row with that name creates none
    and, when it imports, links its asset to that category, an asset that
    is still in the store the import leaves. *)
Theorem bulk_import_category_once env db request u file df pre row post n :
  method request = POST → user request = Some u →
  FILES request !! "file" = Some file →
  endswith (file_name file) ".xlsx" || endswith (file_name file) ".xls" = true →
  read_excel file = inr df →
  "asset_tag" ∈ columns df → "name" ∈ columns df →
  rows df = pre ++ row :: post →
  named n (categories db) = 0%nat →
  Forall (λ r, category_name (columns df) r ≠ Some n) pre →
  category_name (columns df) row = Some n →
  let loop := λ rs, import_rows (now env) u (columns df) 0 rs db (mkTally 0 0 []) in
  let db1 := (loop pre).1 in
  let db2 := (import_row (now env) u (columns df) row db1).1 in
  let final := store (bulk_import env db request) in
  let k := next_pk (categories db1) in
  final = (loop (pre ++ row :: post)).1
  ∧ named n (categories db1) = 0%nat
  ∧ categories db2 = <[k := Category.mk n None "fas fa-box"]> (categories db1)
  ∧ categories db1 !! k = None
  ∧ named n (categories final) = 1%nat
  ∧ categories final !! k = Some (Category.mk n None "fas fa-box")
  ∧ ∀ mid row' rest,
      post = mid ++ row' :: rest → category_name (columns df) row' = Some n →
      let dbm := (loop (pre ++ row :: mid)).1 in
      let out := import_row (now env) u (columns df) row' dbm in
      categories out.1 = categories dbm
      ∧ (out.2 = inr () →
         ∃ ka a, assets out.1 !! ka = Some a
                 ∧ Asset.asset_tag a = strip (cell_str row' "asset_tag")
                 ∧ Asset.category a = Some k
                 ∧ ∃ a', assets final !! ka = Some a'
                         ∧ Asset.asset_tag a' = Asset.asset_tag a).
Proof.
  intros Hm Hu Hfile Hname Hread Htag Hcol Hrows H0 Hpre Hrow loop db1 db2 final k.
  assert (final = (loop (pre ++ row :: post)).1) as Hfinal.
  { subst final loop.
    by rewrite (bulk_import_runs env db request u file df), Hrows. }
  destruct (import_rows_category_once (now env) u (columns df) 0 pre row post db
              (mkTally 0 0 []) n H0 Hpre Hrow)
    as (Hdb2 & Hfresh & H1 & Hk & Hlater).
  split; [done|].
  split; [subst db1 loop; cbv beta; by rewrite import_rows_named_other|].
  split; [done|]. split; [done|].
  rewrite Hfinal. split; [done|]. split; [done|].
  intros mid row' rest Hpost Hrow' dbm out.
  destruct (Hlater mid row' rest Hpost Hrow') as [Hsame Hlink].
  split; [done|]. intros Hout.
  destruct (Hlink Hout) as (ka & a & Hka & Hatag & Hcat).
  exists ka, a. do 3 (split; [done|]).
  assert (assets_kept out.1 (loop (pre ++ row :: post)).1) as Hkept.
  { subst loop. cbv beta. rewrite Hpost.
    replace (pre ++ row :: mid ++ row' :: rest)
      with ((pre ++ row :: mid) ++ row' :: rest) by by rewrite <- app_assoc.
    rewrite import_rows_app.
    destruct (import_rows_cons (now env) u (columns df)
                (0 + Z.of_nat (length (pre ++ row :: mid))) row' rest
                (import_rows (now env) u (columns df) 0 (pre ++ row :: mid) db
                   (mkTally 0 0 [])).1
                (import_rows (now env) u (columns df) 0 (pre ++ row :: mid) db
                   (mkTally 0 0 [])).2) as [t' ->].
    apply import_rows_assets. }
  by apply Hkept.
Qed.

Lemma bulk_import_category_once_witness :
  let request := sample_upload [sample_row1; sample_row2; sample_row3] in
  let loop := λ rs, import_rows (now sample_env) 7 sample_columns 0 rs sample_db
                      (mkTally 0 0 []) in
  let db1 := (loop []).1 in
  let db2 := (import_row (now sample_env) 7 sample_columns sample_row1 db1).1 in
  let final := store (bulk_import sample_env sample_db request) in
  let k := next_pk (categories db1) in
  final = (loop ([] ++ sample_row1 :: [sample_row2; sample_row3])).1
  ∧ named "Laptops" (categories db1) = 0%nat
  ∧ categories db2 = <[k := Category.mk "Laptops" None "fas fa-box"]> (categories db1)
  ∧ categories db1 !! k = None
  ∧ named "Laptops" (categories final) = 1%nat
  ∧ categories final !! k = Some (Category.mk "Laptops" None "fas fa-box")
  ∧ ∀ mid row' rest,
      [sample_row2; sample_row3] = mid ++ row' :: rest →
      category_name sample_columns row' = Some "Laptops" →
      let dbm := (loop ([] ++ sample_row1 :: mid)).1 in
      let out := import_row (now sample_env) 7 sample_columns row' dbm in
      categories out.1 = categories dbm
      ∧ (out.2 = inr () →
         ∃ ka a, assets out.1 !! ka = Some a
                 ∧ Asset.asset_tag a = strip (cell_str row' "asset_tag")
                 ∧ Asset.category a = Some k
                 ∧ ∃ a', assets final !! ka = Some a'
                         ∧ Asset.asset_tag a' = Asset.asset_tag a).
Proof.
  apply (bulk_import_category_once sample_env sample_db
           (sample_upload [sample_row1; sample_row2; sample_row3]) 7
           (mkUploadedFile "assets.xlsx"
              (inr (mkDataFrame sample_columns [sample_row1; sample_row2; sample_row3])))
           (mkDataFrame sample_columns [sample_row1; sample_row2; sample_row3])
           [] sample_row1 [sample_row2; sample_row3] "Laptops").
  - reflexivity.
  - reflexivity.
  - vm_compute. reflexivity.
  - vm_compute. reflexivity.
  - reflexivity.
  - apply (bool_decide_unpack _). vm_compute. exact I.
  - apply (bool_decide_unpack _). vm_compute. exact I.
  - reflexivity.
  - vm_compute. reflexivity.
  - constructor.
  - vm_compute. reflexivity.
Defined.



(** ** History rows by action *)

Lemma count_where_0 {A} (P : A → bool) (table : gmap Z A) k a :
  count_where P table = 0%nat → table !! k = Some a → P a = false.
Proof.
  intros Hc Hk.
  pose proof (objects_get_of_count_0 "" P table Hc) as Hget.
  apply objects_get_missing in Hget as [_ Hall]. by eapply Hall.
Qed.

(** The history after a row that imports: one [created] row when the tag
    was new, none when the row updated an asset. *)
Lemma import_row_history_rows now u cols row db :
  (import_row now u cols row db).2 = inr () →
  history (import_row now u cols row db).1
  = history db
    ++ if bool_decide
            (count_where
               (λ a, bool_decide (Asset.asset_tag a = strip (cell_str row "asset_tag")))
               (assets db) = 0%nat)
       then [imported_row now u (next_pk (assets db))]
       else [].
Proof.
  destruct (import_row now u cols row db) as [db' r] eqn:Hrun. simpl.
  intros ->.
  apply import_row_returns in Hrun
    as (dbl & d & k & created & dbu & (_ & Ha & Hh & _) & _ & _ & Huoc & ->).
  rewrite <- Ha, <- Hh.
  apply Asset_update_or_create_returns in Huoc
    as [(-> & a & Hk & Htag & ->)|(-> & Hc & -> & ->)]; simpl.
  - rewrite bool_decide_eq_false_2; [by rewrite app_nil_r|].
    intros Hc. apply (count_where_0 _ _ k a) in Hc; [|done].
    simpl in Hc. by apply bool_decide_eq_false in Hc.
  - by rewrite bool_decide_eq_true_2.
Qed.

(** The history after an admin save that goes through: one [created] row
    from the add form, none from the change form. *)
Lemma save_model_history_rows now u pk obj change db :
  (save_model now u pk obj change db).2 = inr () →
  history (save_model now u pk obj change db).1
  = history db
    ++ if change then []
       else [AssetHistory.mk (default (next_pk (assets db)) pk) "created"
               (Some ("Asset " +:+ Asset.asset_tag obj +:+ " was created"))
               (Some u) None None now].
Proof.
  unfold save_model, bind, ret, AssetHistory_create_M. destruct change; simpl.
  - destruct (Asset_save_M_cases now pk obj db) as [[e ->]|[_ ->]]; [done|].
    simpl. by rewrite app_nil_r.
  - destruct (Asset_save_M_cases now pk (set_created_by u obj) db) as [[e ->]|[_ ->]];
      [done|]. done.
Qed.

(** C1, as stated, fails: a bulk import whose row names the asset [AST001],
    already in the store, rewrites the asset (its name, among others) and
    appends no history row; neither does a save of the same asset from the
    admin change form. *)
Lemma bulk_import_update_writes_no_history :
  let out := bulk_import sample_env sample_db (sample_upload [sample_update_row]) in
  let saved := save_model (now sample_env) 7 (Some 1) sample_renamed_asset true sample_db in
  response out = Redirect asset_list
  ∧ messages out = [mkMessage success "Successfully imported 1 assets" None]
  ∧ Asset.name <$> assets sample_db !! 1 = Some "Laptop"
  ∧ Asset.name <$> assets (store out) !! 1 = Some "Laptop, renamed"
  ∧ history (store out) = history sample_db
  ∧ saved.2 = inr ()
  ∧ Asset.name <$> assets saved.1 !! 1 = Some "Notebook"
  ∧ history saved.1 = history sample_db.
Proof. vm_compute. done. Qed.

(** C1, amended: each of the four ways to act on an asset appends its
    history row under its own conditions, whatever else the store holds.
    An Assign call for an existing asset and employee appends exactly one
    row, and so does an Unassign call for an asset that has an assignee:
    the row carries the asset, the action, the acting user and an old and a
    new value.  A bulk import row that goes through appends exactly one
    [created] row, without old and new value, when its asset tag is new,
    and none when it updates an asset.  A save from the admin form that
    goes through appends exactly one such row from the add form, and none
    from the change form. *)
Theorem history_rows_by_action env db u :
  (∀ request pk asset epk employee,
      schema_ok db →
      assets db !! pk = Some asset →
      employees db !! epk = Some employee →
      assign_call request u epk →
      ∃ h : AssetHistory.t,
        history (store (assign_asset env db request pk)) = history db ++ [h]
        ∧ AssetHistory.asset h = pk ∧ AssetHistory.action h = "assigned"
        ∧ AssetHistory.performed_by h = Some u
        ∧ is_Some (AssetHistory.old_value h) ∧ is_Some (AssetHistory.new_value h))
  ∧ (∀ request pk asset old,
      schema_ok db →
      assets db !! pk = Some asset →
      Asset.assigned_to asset = Some old →
      unassign_call request u →
      ∃ h : AssetHistory.t,
        history (store (unassign_asset env db request pk)) = history db ++ [h]
        ∧ AssetHistory.asset h = pk ∧ AssetHistory.action h = "unassigned"
        ∧ AssetHistory.performed_by h = Some u
        ∧ is_Some (AssetHistory.old_value h) ∧ is_Some (AssetHistory.new_value h))
  ∧ (∀ cols row,
      (import_row (now env) u cols row db).2 = inr () →
      history (import_row (now env) u cols row db).1
      = history db
        ++ (if bool_decide
                 (count_where
                    (λ a, bool_decide (Asset.asset_tag a = strip (cell_str row "asset_tag")))
                    (assets db) = 0%nat)
            then [AssetHistory.mk (next_pk (assets db)) "created"
                    (Some "Asset imported via bulk upload") (Some u) None None (now env)]
            else []))
  ∧ (∀ pk obj change,
      (save_model (now env) u pk obj change db).2 = inr () →
      history (save_model (now env) u pk obj change db).1
      = history db
        ++ (if change then []
            else [AssetHistory.mk (default (next_pk (assets db)) pk) "created"
                    (Some ("Asset " +:+ Asset.asset_tag obj +:+ " was created"))
                    (Some u) None None (now env)])).
Proof.
  split; [|split; [|split]].
  - intros request pk asset epk employee Hok Hasset Hemp Hassign.
    destruct (assign_asset_store env db request pk u epk asset employee)
      as (o & _ & _ & ->); try done.
    eexists. by repeat split.
  - intros request pk asset old Hok Hasset Hold Hunassign.
    destruct (unassign_asset_store env db request pk u asset old)
      as (o & _ & _ & ->); try done.
    eexists. by repeat split.
  - intros cols row Himport. by apply import_row_history_rows.
  - intros pk obj change Hsave. by apply save_model_history_rows.
Qed.

Lemma history_rows_by_action_witness :
  (∃ h : AssetHistory.t,
      history (store (assign_asset sample_env sample_unassigned_db
                        (sample_post [("employee_id", "1")]) 1))
      = history sample_unassigned_db ++ [h]
      ∧ AssetHistory.asset h = 1 ∧ AssetHistory.action h = "assigned"
      ∧ AssetHistory.performed_by h = Some 7
      ∧ is_Some (AssetHistory.old_value h) ∧ is_Some (AssetHistory.new_value h))
  ∧ (∃ h : AssetHistory.t,
      history (store (unassign_asset sample_env sample_db (sample_post []) 2))
      = history sample_db ++ [h]
      ∧ AssetHistory.asset h = 2 ∧ AssetHistory.action h = "unassigned"
      ∧ AssetHistory.performed_by h = Some 7
      ∧ is_Some (AssetHistory.old_value h) ∧ is_Some (AssetHistory.new_value h))
  ∧ history (import_row (now sample_env) 7 sample_columns sample_row1 sample_empty_db).1
    = history sample_empty_db
      ++ (if bool_decide
               (count_where
                  (λ a, bool_decide
                          (Asset.asset_tag a = strip (cell_str sample_row1 "asset_tag")))
                  (assets sample_empty_db) = 0%nat)
          then [AssetHistory.mk (next_pk (assets sample_empty_db)) "created"
                  (Some "Asset imported via bulk upload") (Some 7) None None
                  (now sample_env)]
          else [])
  ∧ history (import_row (now sample_env) 7 sample_columns sample_update_row
               sample_unassigned_db).1
    = history sample_unassigned_db
      ++ (if bool_decide
               (count_where
                  (λ a, bool_decide
                          (Asset.asset_tag a
                           = strip (cell_str sample_update_row "asset_tag")))
                  (assets sample_unassigned_db) = 0%nat)
          then [AssetHistory.mk (next_pk (assets sample_unassigned_db)) "created"
                  (Some "Asset imported via bulk upload") (Some 7) None None
                  (now sample_env)]
          else [])
  ∧ history (save_model (now sample_env) 7 None sample_new_asset false sample_empty_db).1
    = history sample_empty_db
      ++ (if false then []
          else [AssetHistory.mk (default (next_pk (assets sample_empty_db)) None) "created"
                  (Some ("Asset " +:+ Asset.asset_tag sample_new_asset +:+ " was created"))
                  (Some 7) None None (now sample_env)])
  ∧ history (save_model (now sample_env) 7 (Some 1) sample_renamed_asset true
               sample_unassigned_db).1
    = history sample_unassigned_db
      ++ (if true then []
          else [AssetHistory.mk (default (next_pk (assets sample_unassigned_db)) (Some 1))
                  "created"
                  (Some ("Asset " +:+ Asset.asset_tag sample_renamed_asset
                         +:+ " was created"))
                  (Some 7) None None (now sample_env)]).
Proof.
  split; [|split; [|split; [|split; [|split]]]].
  - apply (proj1 (history_rows_by_action sample_env sample_unassigned_db 7)
             (sample_post [("employee_id", "1")]) 1 sample_asset 1 sample_employee1).
    + exact sample_unassigned_db_ok.
    + reflexivity.
    + reflexivity.
    + split; [reflexivity|]. split; [reflexivity|].
      exists "1". split; [reflexivity|]. split; [discriminate|reflexivity].
  - apply (proj1 (proj2 (history_rows_by_action sample_env sample_db 7))
             (sample_post []) 2 sample_assigned_asset 1).
    + exact sample_db_ok.
    + reflexivity.
    + reflexivity.
    + split; reflexivity.
  - apply (proj1 (proj2 (proj2 (history_rows_by_action sample_env sample_empty_db 7)))
             sample_columns sample_row1).
    vm_compute. reflexivity.
  - apply (proj1 (proj2 (proj2 (history_rows_by_action sample_env sample_unassigned_db 7)))
             sample_columns sample_update_row).
    vm_compute. reflexivity.
  - apply (proj2 (proj2 (proj2 (history_rows_by_action sample_env sample_empty_db 7)))
             None sample_new_asset false).
    vm_compute. reflexivity.
  - apply (proj2 (proj2 (proj2 (history_rows_by_action sample_env sample_unassigned_db 7)))
             (Some 1) sample_renamed_asset true).
    vm_compute. reflexivity.
Defined.

(** ** The history is only appended to *)

Lemma Asset_save_history now pk obj db k db' :
  Asset_save now pk obj db = inr (k, db') → history db' = history db.
Proof. unfold Asset_save. case_bool_decide; [|done]. by intros [= _ <-]. Qed.

Lemma assign_asset_history env db request pk :
  history_kept db (store (assign_asset env db request pk)).
Proof.
  unfold assign_asset, login_required, history_kept.
  repeat case_match; simpl; try done;
    match goal with
    | H : Asset_save _ _ _ _ = inr _ |- _ =>
        rewrite (Asset_save_history _ _ _ _ _ _ H); by apply prefix_app_r
    end.
Qed.

Lemma unassign_asset_history env db request pk :
  history_kept db (store (unassign_asset env db request pk)).
Proof.
  unfold unassign_asset, login_required, history_kept.
  repeat case_match; simpl; try done;
    match goal with
    | H : Asset_save _ _ _ _ = inr _ |- _ =>
        rewrite (Asset_save_history _ _ _ _ _ _ H); by apply prefix_app_r
    end.
Qed.

Lemma bulk_import_history env db request :
  history_kept db (store (bulk_import env db request)).
Proof.
  unfold bulk_import, login_required.
  repeat case_match; simpl; try done.
  match goal with
  | H : import_rows ?n ?u ?c ?i ?rs db ?t = (?d, _) |- _ =>
      pose proof (import_rows_history n u c i rs db t) as Hkept;
      by rewrite H in Hkept
  end.
Qed.

Lemma save_model_history now u pk obj change :
  preserves history_kept (save_model now u pk obj change).
Proof.
  intros db. unfold save_model, bind, ret, AssetHistory_create_M, history_kept.
  destruct change; simpl.
  - by destruct (Asset_save_M_cases now pk obj db) as [[e ->]|[_ ->]].
  - destruct (Asset_save_M_cases now pk (set_created_by u obj) db) as [[e ->]|[_ ->]];
      simpl; [done|]. by apply prefix_app_r.
Qed.

Lemma run_history op db : is_delete op = false → history_kept db (run op db).
Proof.
  destruct op; simpl; intros Hop; try done.
  - apply assign_asset_history.
  - apply unassign_asset_history.
  - apply bulk_import_history.
  - apply save_model_history.
Qed.

(** C4, as stated, fails: the asset that the admin add form has just
    created has one history row; deleting the asset from the admin takes
    the row with it. *)
Lemma admin_delete_asset_removes_history :
  let db1 := run (AdminSave sample_env 7 None sample_new_asset false) sample_db in
  let db2 := run (AdminDeleteAsset 3) db1 in
  (∃ h, history db1 = [h] ∧ AssetHistory.asset h = 3 ∧ AssetHistory.action h = "created")
  ∧ history db2 = []
  ∧ ¬ history db1 `prefix_of` history (run_all [AdminDeleteAsset 3] db1).
Proof.
  split; [|split].
  - eexists. split; [vm_compute; reflexivity|]. split; reflexivity.
  - vm_compute. reflexivity.
  - intros [l Hl]. vm_compute in Hl. discriminate.
Qed.

(** C4, amended: the views (Assign, Unassign, bulk import) and the saves of
    the admin asset form only append to the history: along every sequence
    of such operations the history rows that exist stay in place and
    unchanged; the admin offers no form to add or change a history row;
    deleting an asset removes the history rows of that asset, by cascade,
    and no others. *)
Theorem history_is_append_only ops db :
  Forall (λ op, is_delete op = false) ops →
  history db `prefix_of` history (run_all ops db)
  ∧ (∀ granted, AssetHistoryAdmin.has_add_permission granted = false
                ∧ AssetHistoryAdmin.has_change_permission granted = false
                ∧ AssetHistoryInline.has_add_permission granted = false)
  ∧ AssetHistoryInline.can_delete = false
  ∧ ∀ pk, history (run (AdminDeleteAsset pk) (run_all ops db))
          = filter (λ h, AssetHistory.asset h ≠ pk) (history (run_all ops db)).
Proof.
  intros Hops. split; [|done].
  revert db. induction Hops as [|op ops Hop _ IH]; intros db; [done|].
  simpl. etrans; [apply (run_history op db Hop)|apply IH].
Qed.

Lemma history_is_append_only_witness :
  let ops := [Assign sample_env (sample_post [("employee_id", "2")]) 1;
              Unassign sample_env (sample_post []) 1;
              BulkImport sample_env (sample_upload [sample_row1; sample_row2]);
              AdminSave sample_env 7 None sample_new_asset false] in
  history sample_db `prefix_of` history (run_all ops sample_db)
  ∧ (∀ granted, AssetHistoryAdmin.has_add_permission granted = false
                ∧ AssetHistoryAdmin.has_change_permission granted = false
                ∧ AssetHistoryInline.has_add_permission granted = false)
  ∧ AssetHistoryInline.can_delete = false
  ∧ ∀ pk, history (run (AdminDeleteAsset pk) (run_all ops sample_db))
          = filter (λ h, AssetHistory.asset h ≠ pk) (history (run_all ops sample_db)).
Proof.
  intros ops. apply (history_is_append_only ops sample_db).
  repeat constructor.
Defined.

(** ** Reports *)

(** C7, as stated, fails: an asset whose warranty ends in ten days is
    counted both as valid and as expiring, so the three buckets sum to two
    for one asset with a warranty date. *)
Lemma reports_buckets_overlap :
  ∃ ctx, reports sample_env sample_warranty_db = inr ctx
    ∧ warranty_valid ctx = 1%nat ∧ warranty_expiring ctx = 1%nat
    ∧ warranty_expired ctx = 0%nat
    ∧ count_where (λ a, date_matches (λ _, true) (Asset.warranty_expiry a))
        (assets sample_warranty_db) = 1%nat
    ∧ (warranty_valid ctx + warranty_expiring ctx + warranty_expired ctx)%nat
      ≠ count_where (λ a, date_matches (λ _, true) (Asset.warranty_expiry a))
          (assets sample_warranty_db).
Proof.
  eexists. split; [vm_compute; reflexivity|].
  do 4 (split; [vm_compute; reflexivity|]).
  vm_compute. discriminate.
Qed.

(** C7, amended: relative to the current date, every asset with a warranty
    date is counted in exactly one of the valid and the expired bucket, so
    these two sum to the number of assets with a warranty date; the bucket
    of warranties expiring within 30 days counts assets of the valid bucket
    again; the valid bucket counts the assets under warranty. *)
Theorem reports_warranty_buckets env db :
  MINORDINAL ≤ date_of (now env) + 30 ≤ MAXORDINAL →
  ∃ ctx, reports env db = inr ctx
    ∧ (warranty_valid ctx + warranty_expired ctx)%nat
      = count_where (λ a, date_matches (λ _, true) (Asset.warranty_expiry a)) (assets db)
    ∧ (warranty_expiring ctx ≤ warranty_valid ctx)%nat
    ∧ warranty_valid ctx = count_where (Asset.is_under_warranty (now env)) (assets db).
Proof.
  intros Hrange. unfold reports, date_add_days.
  rewrite bool_decide_eq_true_2 by done.
  eexists. split; [done|]. simpl. split; [|split].
  - symmetry. apply count_where_split; intros a;
      destruct (Asset.warranty_expiry a) as [d|]; simpl; try done;
      repeat case_bool_decide; simpl; try done; lia.
  - apply count_where_le. intros a.
    destruct (Asset.warranty_expiry a) as [d|]; simpl; [|done].
    by intros [? _]%andb_prop.
  - done.
Qed.

Lemma reports_warranty_buckets_witness :
  ∃ ctx, reports sample_env sample_warranty_db = inr ctx
    ∧ (warranty_valid ctx + warranty_expired ctx)%nat
      = count_where (λ a, date_matches (λ _, true) (Asset.warranty_expiry a))
          (assets sample_warranty_db)
    ∧ (warranty_expiring ctx ≤ warranty_valid ctx)%nat
    ∧ warranty_valid ctx
      = count_where (Asset.is_under_warranty (now sample_env)) (assets sample_warranty_db).
Proof.
  apply (reports_warranty_buckets sample_env sample_warranty_db).
  vm_compute. split; discriminate.
Defined.

(** ** Assign and Unassign on any request *)

Lemma Asset_save_replaces now pk obj db k db' :
  Asset_save now (Some pk) obj db = inr (k, db') →
  k = pk ∧ db' = set_assets (<[pk := touch now false obj]> (assets db)) db.
Proof. unfold Asset_save. case_bool_decide; [|done]. by intros [= <- <-]. Qed.

(** Every Assign request either leaves everything as it was, or has found
    the asset and the employee, rewritten the asset row and appended the
    history row. *)
Lemma assign_asset_cases env db request pk :
  (assign_asset env db request pk
     = mkOutcome db (response (assign_asset env db request pk)) [] []
   ∧ response (assign_asset env db request pk) ≠ Redirect (asset_detail pk))
  ∨ ∃ u asset epk employee old_assignee,
      user request = Some u ∧ method request = POST
      ∧ assets db !! pk = Some asset ∧ employees db !! epk = Some employee
      ∧ related_employee db (Asset.assigned_to asset) = inr old_assignee
      ∧ response (assign_asset env db request pk) = Redirect (asset_detail pk)
      ∧ store (assign_asset env db request pk)
        = AssetHistory_create
            (AssetHistory.mk pk "assigned"
               (Some ("Asset assigned to " +:+ Employee.full_name employee))
               (Some u)
               (Some (match old_assignee with
                      | Some old => Employee.str old
                      | None => "None"
                      end))
               (Some (Employee.full_name employee))
               (now env))
            (set_assets
               (<[pk := touch (now env) false (assigned (now env) epk asset)]> (assets db))
               db)
      ∧ (outbox (assign_asset env db request pk) = []
         ∨ mail_up env = true
           ∧ opt_truthy (POST_data request !! "send_email") = true
           ∧ outbox (assign_asset env db request pk)
             = [mkEmail ("Asset Assigned: " +:+ Asset.asset_tag asset)
                  [Employee.email employee]]).
Proof.
  unfold assign_asset, login_required.
  destruct (user request) as [u|] eqn:Hu; [|by left].
  destruct (assets db !! pk) as [asset|] eqn:Hasset; [|by left].
  destruct (method request) eqn:Hm; [by left|].
  destruct (POST_data request !! "employee_id") as [s|] eqn:Hs; [|by left].
  destruct (str_truthy s) eqn:Hts; [|by left].
  destruct (py_int s) as [epk|] eqn:Hint; [|by left].
  destruct (employees db !! epk) as [employee|] eqn:Hemp; [|by left].
  destruct (related_employee db (Asset.assigned_to asset)) as [e|old] eqn:Hold;
    [by left|].
  destruct (Asset_save _ _ _ _) as [e|[k db']] eqn:Hsave; [by left|].
  apply Asset_save_replaces in Hsave as [-> ->].
  right. exists u, asset, epk, employee, old.
  do 5 (split; [done|]).
  destruct (opt_truthy (POST_data request !! "send_email")) eqn:Hsend; simpl;
    [destruct (str_truthy (Employee.email employee)); simpl;
     [destruct (mail_up env) eqn:Hmail; simpl|]|];
    (split; [done|]); (split; [done|]); eauto.
Qed.

(** Every Unassign request either leaves everything as it was, or has
    found the asset and its assignee, cleared the asset row and appended the
    history row. *)
Lemma unassign_asset_cases env db request pk :
  (unassign_asset env db request pk
     = mkOutcome db (response (unassign_asset env db request pk)) [] [])
  ∨ ∃ u asset e old_assignee,
      user request = Some u ∧ method request = POST
      ∧ assets db !! pk = Some asset ∧ Asset.assigned_to asset = Some e
      ∧ employees db !! e = Some old_assignee
      ∧ response (unassign_asset env db request pk) = Redirect (asset_detail pk)
      ∧ store (unassign_asset env db request pk)
        = AssetHistory_create
            (AssetHistory.mk pk "unassigned"
               (Some ("Asset unassigned from " +:+ Employee.full_name old_assignee))
               (Some u)
               (Some (Employee.full_name old_assignee))
               (Some "None")
               (now env))
            (set_assets (<[pk := touch (now env) false (unassigned asset)]> (assets db)) db)
      ∧ (outbox (unassign_asset env db request pk) = []
         ∨ mail_up env = true
           ∧ opt_truthy (POST_data request !! "send_email") = true
           ∧ outbox (unassign_asset env db request pk)
             = [mkEmail ("Asset Returned: " +:+ Asset.asset_tag asset)
                  [Employee.email old_assignee]]).
Proof.
  unfold unassign_asset, login_required.
  destruct (user request) as [u|] eqn:Hu; [|by left].
  destruct (assets db !! pk) as [asset|] eqn:Hasset; [|by left].
  destruct (method request) eqn:Hm; [by left|].
  unfold related_employee.
  destruct (Asset.assigned_to asset) as [e|] eqn:He; [|by left].
  destruct (employees db !! e) as [old|] eqn:Hold; [|by left].
  destruct (Asset_save _ _ _ _) as [e'|[k db']] eqn:Hsave; [by left|].
  apply Asset_save_replaces in Hsave as [-> ->].
  right. exists u, asset, e, old.
  do 5 (split; [done|]).
  destruct (opt_truthy (POST_data request !! "send_email")) eqn:Hsend; simpl;
    [destruct (str_truthy (Employee.email old)); simpl;
     [destruct (mail_up env) eqn:Hmail; simpl|]|];
    (split; [done|]); (split; [done|]); eauto.
Qed.

(** X1: an Assign request is all or nothing.  Either it changes nothing,
    flashes nothing and mails nothing, and is not answered by the redirect
    to the asset page (a GET, an unknown asset, no or an unknown employee,
    an id that is not a number, an anonymous user); or it is answered by
    that redirect, the asset is stored as assigned today and exactly one
    [assigned] row is appended. *)
Theorem assign_asset_all_or_nothing env db request pk :
  (assign_asset env db request pk
     = mkOutcome db (response (assign_asset env db request pk)) [] []
   ∧ response (assign_asset env db request pk) ≠ Redirect (asset_detail pk))
  ∨ (response (assign_asset env db request pk) = Redirect (asset_detail pk)
     ∧ (∃ h : AssetHistory.t,
          history (store (assign_asset env db request pk)) = history db ++ [h]
          ∧ AssetHistory.action h = "assigned" ∧ AssetHistory.asset h = pk)
     ∧ ∃ a, assets (store (assign_asset env db request pk)) !! pk = Some a
            ∧ Asset.status a = "assigned" ∧ is_Some (Asset.assigned_to a)
            ∧ Asset.assigned_date a = Some (date_of (now env))).
Proof.
  destruct (assign_asset_cases env db request pk)
    as [?|(u & asset & epk & employee & old & _ & _ & _ & _ & _ & Hr & Hs & _)];
    [by left|right].
  split; [done|]. rewrite Hs. simpl. split; [by eexists|].
  rewrite lookup_insert_eq. eexists. by repeat split.
Qed.

(** X2: an Unassign request is all or nothing.  Either it changes nothing,
    flashes nothing and mails nothing; or it is answered by the redirect to
    the asset page, the asset is stored as available without assignee and
    date, and exactly one [unassigned] row is appended. *)
Theorem unassign_asset_all_or_nothing env db request pk :
  unassign_asset env db request pk
    = mkOutcome db (response (unassign_asset env db request pk)) [] []
  ∨ (response (unassign_asset env db request pk) = Redirect (asset_detail pk)
     ∧ (∃ h : AssetHistory.t,
          history (store (unassign_asset env db request pk)) = history db ++ [h]
          ∧ AssetHistory.action h = "unassigned" ∧ AssetHistory.asset h = pk)
     ∧ ∃ a, assets (store (unassign_asset env db request pk)) !! pk = Some a
            ∧ Asset.status a = "available" ∧ Asset.assigned_to a = None
            ∧ Asset.assigned_date a = None).
Proof.
  destruct (unassign_asset_cases env db request pk)
    as [?|(u & asset & e & old & _ & _ & _ & _ & _ & Hr & Hs & _)];
    [by left|right].
  split; [done|]. rewrite Hs. simpl. split; [by eexists|].
  rewrite lookup_insert_eq. eexists. by repeat split.
Qed.

(** X3: Assign and Unassign touch one asset row and the history only:
    every other asset, and the employee, category, location, vendor and
    maintenance tables, are as before, whatever the request. *)
Theorem assign_unassign_frame env db request pk k :
  k ≠ pk →
  let db1 := store (assign_asset env db request pk) in
  let db2 := store (unassign_asset env db request pk) in
  (assets db1 !! k = assets db !! k ∧ employees db1 = employees db
   ∧ categories db1 = categories db ∧ locations db1 = locations db
   ∧ vendors db1 = vendors db ∧ maintenance_records db1 = maintenance_records db)
  ∧ (assets db2 !! k = assets db !! k ∧ employees db2 = employees db
     ∧ categories db2 = categories db ∧ locations db2 = locations db
     ∧ vendors db2 = vendors db ∧ maintenance_records db2 = maintenance_records db).
Proof.
  intros Hk db1 db2. split.
  - subst db1.
    destruct (assign_asset_cases env db request pk)
      as [[-> _]|(u & asset & epk & employee & old & _ & _ & _ & _ & _ & _ & -> & _)];
      simpl; [done|].
    by rewrite lookup_insert_ne.
  - subst db2.
    destruct (unassign_asset_cases env db request pk)
      as [->|(u & asset & e & old & _ & _ & _ & _ & _ & _ & -> & _)];
      simpl; [done|].
    by rewrite lookup_insert_ne.
Qed.

Lemma assign_unassign_frame_witness :
  let db1 := store (assign_asset sample_env sample_db
                      (sample_post [("employee_id", "2")]) 1) in
  let db2 := store (unassign_asset sample_env sample_db
                      (sample_post [("employee_id", "2")]) 1) in
  (assets db1 !! 2 = assets sample_db !! 2 ∧ employees db1 = employees sample_db
   ∧ categories db1 = categories sample_db ∧ locations db1 = locations sample_db
   ∧ vendors db1 = vendors sample_db
   ∧ maintenance_records db1 = maintenance_records sample_db)
  ∧ (assets db2 !! 2 = assets sample_db !! 2 ∧ employees db2 = employees sample_db
     ∧ categories db2 = categories sample_db ∧ locations db2 = locations sample_db
     ∧ vendors db2 = vendors sample_db
     ∧ maintenance_records db2 = maintenance_records sample_db).
Proof.
  apply (assign_unassign_frame sample_env sample_db
           (sample_post [("employee_id", "2")]) 1 2).
  discriminate.
Defined.

(** X4: the notification is best effort.  Whether the mail backend accepts
    the message changes neither the store nor the response of Assign and
    Unassign; when it does not, nothing is in the outbox; and a request
    hands at most one message to the backend. *)
Theorem notification_is_best_effort t up db request pk :
  store (assign_asset (mkEnv t up) db request pk)
    = store (assign_asset (mkEnv t (negb up)) db request pk)
  ∧ response (assign_asset (mkEnv t up) db request pk)
    = response (assign_asset (mkEnv t (negb up)) db request pk)
  ∧ store (unassign_asset (mkEnv t up) db request pk)
    = store (unassign_asset (mkEnv t (negb up)) db request pk)
  ∧ response (unassign_asset (mkEnv t up) db request pk)
    = response (unassign_asset (mkEnv t (negb up)) db request pk)
  ∧ outbox (assign_asset (mkEnv t false) db request pk) = []
  ∧ outbox (unassign_asset (mkEnv t false) db request pk) = []
  ∧ (length (outbox (assign_asset (mkEnv t up) db request pk)) ≤ 1)%nat
  ∧ (length (outbox (unassign_asset (mkEnv t up) db request pk)) ≤ 1)%nat.
Proof.
  assert (∀ b, store (assign_asset (mkEnv t b) db request pk)
               = store (assign_asset (mkEnv t true) db request pk)
             ∧ response (assign_asset (mkEnv t b) db request pk)
               = response (assign_asset (mkEnv t true) db request pk)) as Ha.
  { intros b. unfold assign_asset, login_required. simpl.
    repeat case_match; simplify_eq/=; done. }
  assert (∀ b, store (unassign_asset (mkEnv t b) db request pk)
               = store (unassign_asset (mkEnv t true) db request pk)
             ∧ response (unassign_asset (mkEnv t b) db request pk)
               = response (unassign_asset (mkEnv t true) db request pk)) as Hu.
  { intros b. unfold unassign_asset, login_required. simpl.
    repeat case_match; simplify_eq/=; done. }
  destruct (Ha up) as [-> ->], (Ha (negb up)) as [-> ->].
  destruct (Hu up) as [-> ->], (Hu (negb up)) as [-> ->].
  do 4 (split; [done|]).
  split; [|split; [|split]].
  - destruct (assign_asset_cases (mkEnv t false) db request pk)
      as [[-> _]|(?&?&?&?&?&_&_&_&_&_&_&_&[->|[? _]])]; done.
  - destruct (unassign_asset_cases (mkEnv t false) db request pk)
      as [->|(?&?&?&?&_&_&_&_&_&_&_&[->|[? _]])]; done.
  - destruct (assign_asset_cases (mkEnv t up) db request pk)
      as [[-> _]|(?&?&?&?&?&_&_&_&_&_&_&_&[->|(_&_&->)])]; simpl; lia.
  - destruct (unassign_asset_cases (mkEnv t up) db request pk)
      as [->|(?&?&?&?&_&_&_&_&_&_&_&[->|(_&_&->)])]; simpl; lia.
Qed.

Lemma assign_asset_schema env db request pk :
  schema_ok db → schema_ok (store (assign_asset env db request pk)).
Proof.
  intros [Huniq Hfk].
  destruct (assign_asset_cases env db request pk)
    as [[-> _]|(u & asset & epk & employee & old & _ & _ & Ha & He & _ & _ & -> & _)];
    [done|].
  split; simpl.
  - by apply (unique_asset_tags_replace _ _ asset).
  - intros k a e Hk Hass. destruct (decide (k = pk)) as [->|Hne].
    + rewrite lookup_insert_eq in Hk. simplify_eq/=. by eexists.
    + rewrite lookup_insert_ne in Hk by done. eauto.
Qed.

Lemma unassign_asset_schema env db request pk :
  schema_ok db → schema_ok (store (unassign_asset env db request pk)).
Proof.
  intros [Huniq Hfk].
  destruct (unassign_asset_cases env db request pk)
    as [->|(u & asset & e & old & _ & _ & Ha & _ & _ & _ & -> & _)]; [done|].
  split; simpl.
  - by apply (unique_asset_tags_replace _ _ asset).
  - intros k a e' Hk Hass. destruct (decide (k = pk)) as [->|Hne].
    + rewrite lookup_insert_eq in Hk. by simplify_eq/=.
    + rewrite lookup_insert_ne in Hk by done. eauto.
Qed.

(** X5: Assign and Unassign keep the schema constraints: from a store with
    unique asset tags and no dangling assignee they lead to such a store,
    whatever the request. *)
Theorem assign_unassign_keep_schema env db request pk :
  schema_ok db →
  schema_ok (store (assign_asset env db request pk))
  ∧ schema_ok (store (unassign_asset env db request pk)).
Proof.
  intros Hok. split.
  - by apply assign_asset_schema.
  - by apply unassign_asset_schema.
Qed.

Lemma assign_unassign_keep_schema_witness :
  schema_ok (store (assign_asset sample_env sample_db
                      (sample_post [("employee_id", "2")]) 1))
  ∧ schema_ok (store (unassign_asset sample_env sample_db
                        (sample_post [("employee_id", "2")]) 1)).
Proof.
  apply (assign_unassign_keep_schema sample_env sample_db
           (sample_post [("employee_id", "2")]) 1).
  exact sample_db_ok.
Defined.

(** X6: an asset has one assignee at a time.  Assigning an asset to one
    employee and then to another leaves it assigned to the second, with two
    history rows, the second naming the first employee as old value. *)
Theorem assign_then_reassign
    env1 env2 db request1 request2 pk u1 u2 epk1 epk2 asset employee1 employee2 :
  schema_ok db →
  assets db !! pk = Some asset →
  employees db !! epk1 = Some employee1 →
  employees db !! epk2 = Some employee2 →
  assign_call request1 u1 epk1 →
  assign_call request2 u2 epk2 →
  let db1 := store (assign_asset env1 db request1 pk) in
  let db2 := store (assign_asset env2 db1 request2 pk) in
  (∃ a, assets db2 !! pk = Some a ∧ Asset.status a = "assigned"
        ∧ Asset.assigned_to a = Some epk2
        ∧ Asset.assigned_date a = Some (date_of (now env2)))
  ∧ ∃ h1 h2 : AssetHistory.t,
      history db2 = history db ++ [h1; h2]
      ∧ AssetHistory.new_value h1 = Some (Employee.full_name employee1)
      ∧ AssetHistory.old_value h2 = Some (Employee.str employee1)
      ∧ AssetHistory.new_value h2 = Some (Employee.full_name employee2).
Proof.
  intros Hok Hasset He1 He2 Hc1 Hc2 db1 db2.
  destruct (assign_asset_store env1 db request1 pk u1 epk1 asset employee1)
    as (old & _ & _ & Hdb1); try done.
  assert (schema_ok db1) as Hok1.
  { by apply assign_asset_schema. }
  assert (assets db1 !! pk
          = Some (touch (now env1) false (assigned (now env1) epk1 asset))) as Hpk1.
  { subst db1. rewrite Hdb1. simpl. by rewrite lookup_insert_eq. }
  assert (employees db1 = employees db) as Hemp.
  { subst db1. by rewrite Hdb1. }
  destruct (assign_asset_store env2 db1 request2 pk u2 epk2 _ employee2 Hok1 Hpk1)
    as (old2 & Hold2 & _ & Hdb2); [by rewrite Hemp|done|].
  simpl in Hold2. rewrite Hemp, He1 in Hold2. injection Hold2 as <-.
  subst db2. rewrite Hdb2. simpl. split.
  - rewrite lookup_insert_eq. eexists. by repeat split.
  - subst db1. rewrite Hdb1. simpl. rewrite <- app_assoc. simpl.
    eexists _, _. by repeat split.
Qed.

Lemma assign_then_reassign_witness :
  let db1 := store (assign_asset sample_env sample_db
                      (sample_post [("employee_id", "1")]) 1) in
  let db2 := store (assign_asset sample_env db1
                      (sample_post [("employee_id", "2")]) 1) in
  (∃ a, assets db2 !! 1 = Some a ∧ Asset.status a = "assigned"
        ∧ Asset.assigned_to a = Some 2
        ∧ Asset.assigned_date a = Some (date_of (now sample_env)))
  ∧ ∃ h1 h2 : AssetHistory.t,
      history db2 = history sample_db ++ [h1; h2]
      ∧ AssetHistory.new_value h1 = Some (Employee.full_name sample_employee1)
      ∧ AssetHistory.old_value h2 = Some (Employee.str sample_employee1)
      ∧ AssetHistory.new_value h2 = Some (Employee.full_name sample_employee2).
Proof.
  apply (assign_then_reassign sample_env sample_env sample_db
           (sample_post [("employee_id", "1")]) (sample_post [("employee_id", "2")])
           1 7 7 1 2 sample_asset sample_employee1 sample_employee2).
  - exact sample_db_ok.
  - reflexivity.
  - reflexivity.
  - reflexivity.
  - split; [reflexivity|]. split; [reflexivity|].
    exists "1". split; [reflexivity|]. split; [discriminate|reflexivity].
  - split; [reflexivity|]. split; [reflexivity|].
    exists "2". split; [reflexivity|]. split; [discriminate|reflexivity].
Defined.

Lemma unassign_asset_unchanged_any_time env1 env2 db request pk :
  unassign_asset env1 db request pk
    = mkOutcome db (response (unassign_asset env1 db request pk)) [] [] →
  store (unassign_asset env2 db request pk) = db.
Proof.
  unfold unassign_asset, login_required, related_employee, Asset_save.
  intros Hsame. repeat case_match; simplify_eq/=; done.
Qed.

(** X7: Unassign is idempotent on the store: a second Unassign request for
    the same asset, at any later time, changes nothing more. *)
Theorem unassign_twice env1 env2 db request pk :
  store (unassign_asset env2 (store (unassign_asset env1 db request pk)) request pk)
  = store (unassign_asset env1 db request pk).
Proof.
  destruct (unassign_asset_cases env1 db request pk)
    as [Hsame|(u & asset & e & old & Hu & Hm & Ha & He & Ho & _ & Hs & _)].
  - rewrite Hsame. simpl. by apply (unassign_asset_unchanged_any_time env1).
  - rewrite Hs. unfold unassign_asset at 1, login_required.
    rewrite Hu. simpl. rewrite lookup_insert_eq, Hm. done.
Qed.

(** ** Bulk import on any upload *)

(** X8: a bulk import request that is not answered by the redirect to the
    asset list (no file, a name that does not end in .xlsx or .xls, an
    unreadable file, a missing required column, a GET, an anonymous user)
    has changed nothing and mailed nothing, and flashes at most one
    message, an error. *)
Theorem bulk_import_rejects_clean env db request :
  response (bulk_import env db request) ≠ Redirect asset_list →
  store (bulk_import env db request) = db
  ∧ outbox (bulk_import env db request) = []
  ∧ (length (messages (bulk_import env db request)) ≤ 1)%nat
  ∧ Forall (λ m, is_error m = true) (messages (bulk_import env db request)).
Proof.
  unfold bulk_import, login_required.
  repeat case_match; simpl; intros Hr; try done;
    repeat split; try lia; by repeat constructor.
Qed.

Lemma bulk_import_rejects_clean_witness :
  store (bulk_import sample_env sample_db (sample_post [])) = sample_db
  ∧ outbox (bulk_import sample_env sample_db (sample_post [])) = []
  ∧ (length (messages (bulk_import sample_env sample_db (sample_post []))) ≤ 1)%nat
  ∧ Forall (λ m, is_error m = true)
      (messages (bulk_import sample_env sample_db (sample_post []))).
Proof.
  apply (bulk_import_rejects_clean sample_env sample_db (sample_post [])).
  vm_compute. discriminate.
Defined.

(** X9: the loop of the import counts every row once, as a success or as
    an error, and records one error message per error. *)
Theorem import_rows_counts now u cols i rs db t :
  let t' := (import_rows now u cols i rs db t).2 in
  (success_count t' + error_count t'
   = success_count t + error_count t + length rs)%nat
  ∧ (length (errors t') + error_count t = length (errors t) + error_count t')%nat.
Proof.
  revert i db t. induction rs as [|row rs IH]; intros i db t; simpl; [lia|].
  destruct (import_row now u cols row db) as [db1 [e|[]]].
  - destruct (IH (i + 1) db1
                (mkTally (success_count t) (S (error_count t))
                   (errors t ++ [("Row " +:+ pretty (i + 2) +:+ ": ", e)])))
      as [H1 H2]; simpl in *.
    rewrite length_app in H2. simpl in H2. lia.
  - destruct (IH (i + 1) db1 (mkTally (S (success_count t)) (error_count t) (errors t)))
      as [H1 H2]; simpl in *. lia.
Qed.

#[local] Instance schema_kept_refl : Reflexive schema_kept.
Proof. intros db Hok. exact Hok. Qed.

#[local] Instance schema_kept_trans : Transitive schema_kept.
Proof. intros db1 db2 db3 H12 H23 H. by apply H23, H12. Qed.

#[local] Instance lookups_grow_refl : Reflexive lookups_grow.
Proof. intros db. unfold lookups_grow. by repeat split. Qed.

#[local] Instance lookups_grow_trans : Transitive lookups_grow.
Proof.
  intros db1 db2 db3 (?&?&?&?&?) (?&?&?&?&?).
  repeat split; try (by etrans); congruence.
Qed.

Lemma lookup_step_schema_kept db db' : lookup_step db db' → schema_kept db db'.
Proof.
  intros (He & Ha & _ & _) [Huniq Hfk]. split.
  - by rewrite Ha.
  - intros k a e. rewrite Ha, He. apply Hfk.
Qed.

Lemma Asset_update_or_create_schema now tag d :
  preserves schema_kept (Asset_update_or_create now tag d).
Proof.
  intros db. destruct (Asset_update_or_create_run now tag d db)
    as [[e ->]|(db' & k & created & Hrun)]; [done|].
  rewrite Hrun. simpl.
  apply Asset_update_or_create_returns in Hrun
    as [(_ & a & Hk & Htag & ->)|(_ & Hc & -> & ->)]; intros [Huniq Hfk]; split; simpl.
  - by apply (unique_asset_tags_replace _ _ a).
  - intros k' a' e Hk' He. destruct (decide (k' = k)) as [->|Hne].
    + rewrite lookup_insert_eq in Hk'. simplify_eq/=. eauto.
    + rewrite lookup_insert_ne in Hk' by done. eauto.
  - assert (∀ k' a', assets db !! k' = Some a' → Asset.asset_tag a' ≠ tag) as Hnew.
    { intros k' a' Hk' Ht. apply (count_where_0 _ _ k' a') in Hc; [|done].
      simpl in Hc. by apply bool_decide_eq_false in Hc. }
    intros k1 k2 a1 a2 H1 H2 Heq.
    destruct (decide (k1 = next_pk (assets db))) as [->|Hn1],
             (decide (k2 = next_pk (assets db))) as [->|Hn2]; [done| | |].
    + rewrite lookup_insert_eq in H1. rewrite lookup_insert_ne in H2 by done.
      simplify_eq/=. by destruct (Hnew k2 a2 H2).
    + rewrite lookup_insert_eq in H2. rewrite lookup_insert_ne in H1 by done.
      simplify_eq/=. by destruct (Hnew k1 a1 H1).
    + rewrite lookup_insert_ne in H1, H2 by done. by apply (Huniq k1 k2 a1 a2).
  - intros k' a' e Hk' He.
    destruct (decide (k' = next_pk (assets db))) as [->|Hne].
    + rewrite lookup_insert_eq in Hk'. by simplify_eq/=.
    + rewrite lookup_insert_ne in Hk' by done. eauto.
Qed.

Lemma AssetHistory_create_M_schema row : preserves schema_kept (AssetHistory_create_M row).
Proof. intros db Hok. exact Hok. Qed.

Lemma get_or_create_grows {A} model (P : A → bool) new (table : gmap Z A) e k b table' :
  get_or_create model P new table = e →
  e = inr (k, b, table') → table ⊆ table'.
Proof.
  intros <-.
  destruct (get_or_create_cases model P new table)
    as [[_ ->]|[[_ (k0 & a & _ & _ & ->)]|[_ ->]]]; intros [=]; subst; [|done].
  apply insert_subseteq, next_pk_fresh.
Qed.

Lemma Category_get_or_create_grows name : preserves lookups_grow (Category_get_or_create name).
Proof.
  intros db. unfold Category_get_or_create.
  destruct (get_or_create _ _ _ _) as [e|[[k b] t]] eqn:Hgoc; simpl; [done|].
  repeat split; try done. by eapply get_or_create_grows.
Qed.

Lemma Location_get_or_create_grows name : preserves lookups_grow (Location_get_or_create name).
Proof.
  intros db. unfold Location_get_or_create.
  destruct (get_or_create _ _ _ _) as [e|[[k b] t]] eqn:Hgoc; simpl; [done|].
  repeat split; try done. by eapply get_or_create_grows.
Qed.

Lemma Vendor_get_or_create_grows now name :
  preserves lookups_grow (Vendor_get_or_create now name).
Proof.
  intros db. unfold Vendor_get_or_create.
  destruct (get_or_create _ _ _ _) as [e|[[k b] t]] eqn:Hgoc; simpl; [done|].
  repeat split; try done. by eapply get_or_create_grows.
Qed.

Lemma Asset_update_or_create_grows now tag d :
  preserves lookups_grow (Asset_update_or_create now tag d).
Proof.
  intros db. destruct (Asset_update_or_create_run now tag d db)
    as [[e ->]|(db' & k & created & Hrun)]; [done|].
  rewrite Hrun. simpl.
  by apply Asset_update_or_create_returns in Hrun
    as [(_ & a & _ & _ & ->)|(_ & _ & _ & ->)].
Qed.

Lemma AssetHistory_create_M_grows row : preserves lookups_grow (AssetHistory_create_M row).
Proof. intros db. unfold lookups_grow. by repeat split. Qed.

#[local] Hint Resolve
  lookup_step_schema_kept Asset_update_or_create_schema AssetHistory_create_M_schema
  Category_get_or_create_grows Location_get_or_create_grows
  Vendor_get_or_create_grows Asset_update_or_create_grows
  AssetHistory_create_M_grows : import_steps.

Lemma import_row_schema now u cols row : preserves schema_kept (import_row now u cols row).
Proof. unfold import_row. walk_steps. Qed.

Lemma import_row_grows now u cols row : preserves lookups_grow (import_row now u cols row).
Proof. unfold import_row. walk_steps. Qed.

(** A relation that every row keeps is kept by the loop. *)
Lemma import_rows_preserves R `{!Reflexive R, !Transitive R} now u cols :
  (∀ row, preserves R (import_row now u cols row)) →
  ∀ i rs db t, R db (import_rows now u cols i rs db t).1.
Proof.
  intros Hrow i rs. revert i.
  induction rs as [|row rs IH]; intros i db t; simpl; [done|].
  specialize (Hrow row db).
  destruct (import_row now u cols row db) as [db1 [e|[]]]; simpl in Hrow;
    (etrans; [exact Hrow|apply IH]).
Qed.

(** A relation that the loop keeps is kept by the view. *)
Lemma bulk_import_preserves R `{!Reflexive R} env db request :
  (∀ now u cols i rs t, R db (import_rows now u cols i rs db t).1) →
  R db (store (bulk_import env db request)).
Proof.
  intros Hloop. unfold bulk_import, login_required.
  repeat case_match; simpl; try done.
  match goal with
  | H : import_rows ?n ?u ?c ?i ?rs db ?t = (?d, _) |- _ =>
      specialize (Hloop n u c i rs t); by rewrite H in Hloop
  end.
Qed.

(** X10: a bulk import keeps the schema constraints: it never stores two
    assets under one tag, nor an assignee that does not exist, whatever the
    upload. *)
Theorem bulk_import_keeps_schema env db request :
  schema_ok db → schema_ok (store (bulk_import env db request)).
Proof.
  intros Hok. revert Hok. change (schema_kept db (store (bulk_import env db request))).
  apply bulk_import_preserves; [apply _|]. intros.
  apply import_rows_preserves; [apply _..|]. apply import_row_schema.
Qed.

Lemma bulk_import_keeps_schema_witness :
  schema_ok (store (bulk_import sample_env sample_db
                      (sample_upload [sample_row1; sample_update_row; sample_row2]))).
Proof.
  apply (bulk_import_keeps_schema sample_env sample_db
           (sample_upload [sample_row1; sample_update_row; sample_row2])).
  exact sample_db_ok.
Defined.

(** X11: a bulk import only adds to the category, location and vendor
    tables (every row that was there is there unchanged) and leaves the
    employee and maintenance tables as they were, whatever the upload. *)
Theorem bulk_import_only_adds_lookups env db request :
  let db' := store (bulk_import env db request) in
  categories db ⊆ categories db' ∧ locations db ⊆ locations db'
  ∧ vendors db ⊆ vendors db' ∧ employees db' = employees db
  ∧ maintenance_records db' = maintenance_records db.
Proof.
  change (lookups_grow db (store (bulk_import env db request))).
  apply bulk_import_preserves; [apply _|]. intros.
  apply import_rows_preserves; [apply _..|]. apply import_row_grows.
Qed.

#[local] Instance creations_logged_refl now u : Reflexive (creations_logged now u).
Proof.
  intros db. split; [done|]. exists []. simpl. rewrite app_nil_r.
  split; [done|]. split; [constructor|].
  intros k. split; [by intros ?%elem_of_nil|].
  intros [Hnone [a Ha]]. congruence.
Qed.

#[local] Instance creations_logged_trans now u : Transitive (creations_logged now u).
Proof.
  intros db1 db2 db3 (Hdom12 & keys1 & Hh12 & Hnd1 & Hkeys1)
    (Hdom23 & keys2 & Hh23 & Hnd2 & Hkeys2).
  split; [by auto|]. exists (keys1 ++ keys2).
  split; [by rewrite Hh23, Hh12, fmap_app, app_assoc|].
  split.
  - apply NoDup_app. split; [done|]. split; [|done].
    intros k [_ Hin2]%Hkeys1 [Hout2 _]%Hkeys2.
    destruct Hin2 as [a Ha]. congruence.
  - intros k. rewrite elem_of_app, Hkeys1, Hkeys2. split.
    + intros [[Hnone Hin]|[Hnone Hin]]; [by auto|].
      split; [|done].
      destruct (assets db1 !! k) as [a|] eqn:Hk; [|done].
      destruct (Hdom12 k) as [a' Ha']; [by eexists|]. congruence.
    + intros [Hnone Hin].
      destruct (assets db2 !! k) as [a|] eqn:Hk; [left|right]; by eauto.
Qed.

(** One row: the history takes the [created] row of the asset the row has
    added, if it has added one. *)
Lemma import_row_creations now u cols row :
  preserves (creations_logged now u) (import_row now u cols row).
Proof.
  intros db.
  assert (∀ db', assets db' = assets db → history db' = history db →
                 creations_logged now u db db') as Hsame.
  { intros db' Ha Hh. split; [by rewrite Ha|]. exists []. simpl.
    rewrite app_nil_r. split; [done|]. split; [constructor|].
    intros k. rewrite Ha. split; [by intros ?%elem_of_nil|].
    intros [Hnone [a Hk]]. congruence. }
  destruct (import_row now u cols row db) as [db' [e|[]]] eqn:Hrun; simpl.
  - apply import_row_raises in Hrun as (_ & Ha & Hh & _). by apply Hsame.
  - apply import_row_returns in Hrun
      as (dbl & d & k & created & dbu & (_ & Ha & Hh & _) & _ & _ & Huoc & ->).
    apply Asset_update_or_create_returns in Huoc
      as [(-> & a & Hk & _ & ->)|(-> & _ & -> & ->)]; simpl.
    + rewrite Ha in Hk. split.
      * intros k' Hk'. simpl. rewrite Ha.
        destruct (decide (k' = k)) as [->|Hne];
          [by rewrite lookup_insert_eq|by rewrite lookup_insert_ne].
      * exists []. simpl. rewrite app_nil_r. split; [done|]. split; [constructor|].
        intros k'. rewrite Ha. split; [by intros ?%elem_of_nil|].
        intros [Hnone Hin]. exfalso.
        destruct (decide (k' = k)) as [->|Hne]; [congruence|].
        rewrite lookup_insert_ne in Hin by done. destruct Hin as [a' Ha']. congruence.
    + unfold creations_logged. simpl. rewrite Ha, Hh.
      pose proof (next_pk_fresh (assets db)) as Hfresh. split.
      * intros k' Hk'.
        destruct (decide (k' = next_pk (assets db))) as [->|Hne];
          [by rewrite lookup_insert_eq|by rewrite lookup_insert_ne].
      * exists [next_pk (assets db)]. simpl. split; [done|].
        split; [apply NoDup_singleton|].
        intros k'. rewrite list_elem_of_singleton. split.
        -- intros ->. split; [done|]. by rewrite lookup_insert_eq.
        -- intros [Hnone Hin].
           destruct (decide (k' = next_pk (assets db))) as [->|Hne]; [done|].
           rewrite lookup_insert_ne in Hin by done. destruct Hin as [a' Ha']. congruence.
Qed.

(** X12: in a bulk import every asset created gets its history row and
    nothing else is logged: whatever the upload, the history after the
    import is the history before it followed by one [created] row, by the
    user of the request and at the time of the request, for each asset key
    that the import has added to the asset table, each key once and no
    other. *)
Theorem bulk_import_logs_each_creation env db request :
  let out := bulk_import env db request in
  ∃ keys : list Z,
    history (store out)
    = history db
      ++ ((λ k, AssetHistory.mk k "created" (Some "Asset imported via bulk upload")
                  (user request) None None (now env)) <$> keys)
    ∧ NoDup keys
    ∧ ∀ k, k ∈ keys ↔ assets db !! k = None ∧ is_Some (assets (store out) !! k).
Proof.
  simpl.
  assert (∀ u db', user request = Some u → creations_logged (now env) u db db' →
            ∃ keys : list Z,
              history db'
              = history db
                ++ ((λ k, AssetHistory.mk k "created"
                            (Some "Asset imported via bulk upload")
                            (user request) None None (now env)) <$> keys)
              ∧ NoDup keys
              ∧ ∀ k, k ∈ keys ↔ assets db !! k = None ∧ is_Some (assets db' !! k))
    as Hlogged.
  { intros u db' Hu (_ & keys & Hh & Hnd & Hkeys). exists keys. by rewrite Hu. }
  unfold bulk_import, login_required.
  destruct (user request) as [u|] eqn:Hu.
  - repeat case_match; simpl; try (by apply (Hlogged u)).
    apply (Hlogged u); [done|].
    match goal with
    | H : import_rows ?n u ?c ?i ?rs db ?t = (?d, _) |- _ =>
        pose proof (import_rows_preserves (creations_logged n u) n u c
                      (import_row_creations n u c) i rs db t) as Hloop;
        by rewrite H in Hloop
    end.
  - exists []. simpl. rewrite app_nil_r. split; [done|]. split; [constructor|].
    intros k. split; [by intros ?%elem_of_nil|].
    intros [Hnone [a Ha]]. congruence.
Qed.

(** The values a row that imports has passed to [update_or_create]. *)
Lemma import_row_returns_defaults now u cols row db db' :
  import_row now u cols row db = (db', inr ()) →
  ∃ dbl d k created dbu,
    lookup_step db dbl
    ∧ Asset_update_or_create now (strip (cell_str row "asset_tag")) d dbl
      = (dbu, inr (k, created))
    ∧ db' = (if created then AssetHistory_create (imported_row now u k) dbu else dbu)
    ∧ d_name d = strip (cell_str row "name")
    ∧ d_status d = match row !! "status" with
                   | Some v => lower (strip (as_str v))
                   | None => "available"
                   end
    ∧ d_condition d = match row !! "condition" with
                      | Some v => lower (strip (as_str v))
                      | None => "new"
                      end
    ∧ d_created_by d = u.
Proof.
  unfold import_row. intros H.
  apply bind_inv in H as [(e & _ & [=])|(category & db1 & H1 & H)].
  apply bind_inv in H as [(e & _ & [=])|(location & db2 & H2 & H)].
  apply bind_inv in H as [(e & _ & [=])|(vendor & db3 & H3 & H)].
  apply bind_inv in H as [(e & _ & [=])|(cost & db4 & H4 & H)].
  apply bind_inv in H as [(e & _ & [=])|([k created] & db5 & H5 & H)].
  apply (preserves_run lookup_step) in H1; [|walk_steps].
  apply (preserves_run lookup_step) in H2; [|walk_steps].
  apply (preserves_run lookup_step) in H3; [|walk_steps].
  apply (preserves_run lookup_step) in H4; [|walk_steps].
  eexists db4, _, k, created, db5.
  split; [by repeat (etrans; [eassumption|])|].
  split; [exact H5|]. split; [|done].
  destruct created; unfold AssetHistory_create_M, ret in H; by simplify_eq.
Qed.

(** X13: a bulk import row for an asset that is in the store rewrites the
    descriptive fields and leaves the assignment alone: the asset keeps its
    assignee, assignment date, purchase and warranty dates, takes the name
    and the status of the row, and its status is [available] when the row
    has no status cell, even if the asset is assigned; no history row is
    written. *)
Theorem import_update_keeps_assignment now u cols row db k a :
  unique_asset_tags (assets db) →
  assets db !! k = Some a →
  Asset.asset_tag a = strip (cell_str row "asset_tag") →
  (import_row now u cols row db).2 = inr () →
  let db' := (import_row now u cols row db).1 in
  history db' = history db
  ∧ ∃ a', assets db' !! k = Some a'
      ∧ Asset.asset_tag a' = Asset.asset_tag a
      ∧ Asset.assigned_to a' = Asset.assigned_to a
      ∧ Asset.assigned_date a' = Asset.assigned_date a
      ∧ Asset.purchase_date a' = Asset.purchase_date a
      ∧ Asset.warranty_expiry a' = Asset.warranty_expiry a
      ∧ Asset.created_at a' = Asset.created_at a
      ∧ Asset.updated_at a' = now
      ∧ Asset.created_by a' = Some u
      ∧ Asset.name a' = strip (cell_str row "name")
      ∧ Asset.status a' = match row !! "status" with
                          | Some v => lower (strip (as_str v))
                          | None => "available"
                          end.
Proof.
  intros Huniq Hk Htag Hok db'. subst db'.
  destruct (import_row now u cols row db) as [db' r] eqn:Hrun. simpl in *. subst r.
  apply import_row_returns_defaults in Hrun
    as (dbl & d & k0 & created & dbu & (_ & Ha & Hh & _) & Huoc & -> & Hn & Hs & _ & Hu).
  rewrite <- Ha in Hk, Huniq.
  apply Asset_update_or_create_returns in Huoc
    as [(-> & a0 & Hk0 & Htag0 & ->)|(-> & Hc & _ & _)].
  - assert (k0 = k) as -> by (apply (Huniq k0 k a0 a); congruence).
    assert (a0 = a) as -> by congruence.
    simpl. split; [by rewrite Hh|]. rewrite lookup_insert_eq.
    eexists. split; [done|]. simpl. rewrite Hn, Hs, Hu. by repeat split.
  - apply (count_where_0 _ _ k a) in Hc; [|done].
    simpl in Hc. by apply bool_decide_eq_false in Hc.
Qed.

Lemma import_update_keeps_assignment_witness :
  let row : Row :=
    list_to_map [("asset_tag", sample_cell "AST002"); ("name", sample_cell "Screen")] in
  let db' := (import_row (now sample_env) 7 sample_columns row sample_db).1 in
  history db' = history sample_db
  ∧ ∃ a', assets db' !! 2 = Some a'
      ∧ Asset.asset_tag a' = Asset.asset_tag sample_assigned_asset
      ∧ Asset.assigned_to a' = Asset.assigned_to sample_assigned_asset
      ∧ Asset.assigned_date a' = Asset.assigned_date sample_assigned_asset
      ∧ Asset.purchase_date a' = Asset.purchase_date sample_assigned_asset
      ∧ Asset.warranty_expiry a' = Asset.warranty_expiry sample_assigned_asset
      ∧ Asset.created_at a' = Asset.created_at sample_assigned_asset
      ∧ Asset.updated_at a' = now sample_env
      ∧ Asset.created_by a' = Some 7
      ∧ Asset.name a' = strip (cell_str row "name")
      ∧ Asset.status a' = match row !! "status" with
                          | Some v => lower (strip (as_str v))
                          | None => "available"
                          end.
Proof.
  intros row.
  apply (import_update_keeps_assignment (now sample_env) 7 sample_columns row
           sample_db 2 sample_assigned_asset).
  - apply sample_db_ok.
  - reflexivity.
  - vm_compute. reflexivity.
  - vm_compute. reflexivity.
Defined.

(** ** Counting *)

Lemma count_where_ext {A} (P Q : A → bool) (table : gmap Z A) :
  (∀ a, P a = Q a) → count_where P table = count_where Q table.
Proof.
  intros HPQ. induction table as [|k a table Hk _ IH] using map_first_key_ind.
  - unfold count_where. by rewrite !map_filter_empty.
  - rewrite !count_where_insert_fresh by done. by rewrite IH, HPQ.
Qed.

Lemma count_where_true {A} (table : gmap Z A) :
  count_where (λ _, true) table = size table.
Proof.
  induction table as [|k a table Hk _ IH] using map_first_key_ind.
  - unfold count_where. by rewrite map_filter_empty.
  - rewrite count_where_insert_fresh, map_size_insert_None by done. by rewrite IH.
Qed.

(** ** The warranty column, the dashboard and the alert against the report *)

(** X14: the warranty column of the admin and the report agree: the
    valid bucket counts the assets shown as Valid, the expired bucket those
    shown as Expired, and the assets shown as N/A are the rest. *)
Theorem warranty_column_agrees_with_reports env db ctx :
  reports env db = inr ctx →
  warranty_valid ctx
    = count_where
        (λ a, bool_decide (AssetAdmin.warranty_status (now env) a = AssetAdmin.Valid))
        (assets db)
  ∧ warranty_expired ctx
    = count_where
        (λ a, bool_decide (AssetAdmin.warranty_status (now env) a = AssetAdmin.Expired))
        (assets db)
  ∧ total_assets ctx
    = (warranty_valid ctx + warranty_expired ctx
       + count_where
           (λ a, bool_decide
                   (AssetAdmin.warranty_status (now env) a = AssetAdmin.NotApplicable))
           (assets db))%nat.
Proof.
  unfold reports. destruct (date_add_days _ _) as [thirty|]; [|done].
  intros [= <-]. simpl.
  assert (∀ a, date_matches (λ d, bool_decide (date_of (now env) ≤ d))
                 (Asset.warranty_expiry a)
               = bool_decide (AssetAdmin.warranty_status (now env) a = AssetAdmin.Valid))
    as Hvalid.
  { intros a. unfold AssetAdmin.warranty_status, Asset.is_under_warranty.
    destruct (Asset.warranty_expiry a) as [d|]; simpl; [|done].
    by case_bool_decide. }
  assert (∀ a, date_matches (λ d, bool_decide (d < date_of (now env)))
                 (Asset.warranty_expiry a)
               = bool_decide (AssetAdmin.warranty_status (now env) a = AssetAdmin.Expired))
    as Hexpired.
  { intros a. unfold AssetAdmin.warranty_status, Asset.is_under_warranty.
    destruct (Asset.warranty_expiry a) as [d|]; simpl; [|done].
    repeat case_bool_decide; try done; lia. }
  rewrite (count_where_ext _ _ _ Hvalid), (count_where_ext _ _ _ Hexpired).
  split; [done|]. split; [done|].
  rewrite <- count_where_true.
  rewrite (count_where_split
             (λ a, bool_decide (AssetAdmin.warranty_status (now env) a = AssetAdmin.Valid))
             (λ a, negb (bool_decide
                           (AssetAdmin.warranty_status (now env) a = AssetAdmin.Valid)))
             (λ _, true)).
  - rewrite <- Nat.add_assoc. f_equal.
    apply count_where_split; intros a;
      destruct (AssetAdmin.warranty_status (now env) a); done.
  - intros a. by destruct (bool_decide _).
  - intros a. by destruct (bool_decide _).
Qed.

Lemma warranty_column_agrees_with_reports_witness :
  warranty_valid (mkReportContext 1 1 1 0)
    = count_where
        (λ a, bool_decide
                (AssetAdmin.warranty_status (now sample_env) a = AssetAdmin.Valid))
        (assets sample_warranty_db)
  ∧ warranty_expired (mkReportContext 1 1 1 0)
    = count_where
        (λ a, bool_decide
                (AssetAdmin.warranty_status (now sample_env) a = AssetAdmin.Expired))
        (assets sample_warranty_db)
  ∧ total_assets (mkReportContext 1 1 1 0)
    = (warranty_valid (mkReportContext 1 1 1 0)
       + warranty_expired (mkReportContext 1 1 1 0)
       + count_where
           (λ a, bool_decide
                   (AssetAdmin.warranty_status (now sample_env) a
                    = AssetAdmin.NotApplicable))
           (assets sample_warranty_db))%nat.
Proof.
  apply (warranty_column_agrees_with_reports sample_env sample_warranty_db).
  vm_compute. reflexivity.
Defined.

Lemma count_none_of_step (seen : list string) (s : string) (table : gmap Z Asset.t) :
  s ∉ seen →
  count_where (λ a, bool_decide (Asset.status a ∉ seen)) table
  = (count_status s table
     + count_where (λ a, bool_decide (Asset.status a ∉ s :: seen)) table)%nat.
Proof.
  intros Hs. apply count_where_split; intros a; repeat case_bool_decide;
    simpl; try done; rewrite ?not_elem_of_cons, ?elem_of_cons in *;
    first [tauto|congruence].
Qed.

(** X15: the status counters of the dashboard leave out exactly the assets
    whose status is none of available, assigned, maintenance and retired
    (a lost asset, or a status that an import wrote): the four counters and
    the number of those assets add up to the total. *)
Theorem dashboard_status_counters env db ctx :
  dashboard env db = inr ctx →
  Dashboard.total_assets ctx
  = (Dashboard.available_assets ctx + Dashboard.assigned_assets ctx
     + Dashboard.maintenance_assets ctx + Dashboard.retired_assets ctx
     + count_where
         (λ a, bool_decide
                 (Asset.status a ∉ ["available"; "assigned"; "maintenance"; "retired"]))
         (assets db))%nat.
Proof.
  unfold dashboard. destruct (date_add_days _ _) as [thirty|]; [|done].
  intros [= <-]. simpl.
  rewrite <- count_where_true.
  rewrite (count_where_ext (λ _, true) (λ a, bool_decide (Asset.status a ∉ [])));
    [|intros a; rewrite bool_decide_eq_true_2; [done|apply not_elem_of_nil]].
  rewrite (count_none_of_step [] "retired") by compute_done.
  rewrite (count_none_of_step ["retired"] "maintenance") by compute_done.
  rewrite (count_none_of_step ["maintenance"; "retired"] "assigned") by compute_done.
  rewrite (count_none_of_step ["assigned"; "maintenance"; "retired"] "available")
    by compute_done.
  lia.
Qed.

Lemma dashboard_status_counters_witness :
  Dashboard.total_assets (Dashboard.mk 2 1 1 0 0 0%Z 2)
  = (Dashboard.available_assets (Dashboard.mk 2 1 1 0 0 0%Z 2)
     + Dashboard.assigned_assets (Dashboard.mk 2 1 1 0 0 0%Z 2)
     + Dashboard.maintenance_assets (Dashboard.mk 2 1 1 0 0 0%Z 2)
     + Dashboard.retired_assets (Dashboard.mk 2 1 1 0 0 0%Z 2)
     + count_where
         (λ a, bool_decide
                 (Asset.status a ∉ ["available"; "assigned"; "maintenance"; "retired"]))
         (assets sample_db))%nat.
Proof.
  apply (dashboard_status_counters sample_env sample_db).
  vm_compute. reflexivity.
Defined.

(** X16: the warranty alert and the report count the same assets.  For a
    signed-in user the alert redirects to the reports page without touching
    anything.  When the expiring bucket of the report is empty it mails
    nothing and flashes the information message.  Otherwise, when the user
    has no e-mail address, nothing is handed to the mail backend and the
    success message is flashed all the same; when the user has an address
    and the backend refuses the message, nothing is sent and the error
    message is flashed; and when the backend accepts it, exactly one
    message goes out, addressed to the user who asked, whose subject
    carries the count of that bucket, and the success message is
    flashed. *)
Theorem warranty_alert_matches_report env auth db request uid me ctx :
  user request = Some uid →
  users auth !! uid = Some me →
  reports env db = inr ctx →
  let answer := send_warranty_alerts env auth db request in
  let sent := mkMessage success ("Warranty alert sent to " +:+ User.email me) None in
  reply answer = GoTo reports_page
  ∧ mails answer
    = (if bool_decide (warranty_expiring ctx = 0%nat)
          || bool_decide (User.email me = "") || negb (mail_up env)
       then []
       else [mkEmail ("Warranty Alert: " +:+ pretty (warranty_expiring ctx)
                      +:+ " assets expiring soon")
               [User.email me]])
  ∧ flashes answer
    = (if bool_decide (warranty_expiring ctx = 0%nat)
       then [mkMessage info "No assets with expiring warranties" None]
       else if bool_decide (User.email me = "") then [sent]
       else if mail_up env then [sent]
       else [mkMessage error "Failed to send email: " (Some SMTPException)]).
Proof.
  intros Hu Hme. unfold reports, send_warranty_alerts, request_user.
  rewrite Hu, Hme.
  destruct (date_add_days _ _) as [thirty|]; [|done].
  intros [= <-]. simpl.
  rewrite (count_where_ext _
             (λ a, date_matches
                     (λ d, bool_decide (d ≤ thirty) && bool_decide (date_of (now env) ≤ d))
                     (Asset.warranty_expiry a)));
    [|intros a; destruct (Asset.warranty_expiry a); simpl; [apply andb_comm|done]].
  rewrite count_where_rows.
  destruct (rows_where _ _) as [|r rs]; simpl; [done|].
  unfold send_mail, str_truthy.
  destruct (decide (User.email me = "")) as [Hmail|Hmail].
  - rewrite filter_cons_False by by rewrite bool_decide_eq_true_2.
    by rewrite (bool_decide_eq_true_2 (User.email me = "")).
  - rewrite filter_cons_True by by rewrite bool_decide_eq_false_2.
    rewrite (bool_decide_eq_false_2 (User.email me = "")) by done.
    by destruct (mail_up env).
Qed.

Lemma warranty_alert_matches_report_witness :
  (let answer := send_warranty_alerts sample_env sample_auth sample_warranty_db
                   (sample_post_by 7 []) in
   let sent := mkMessage success ("Warranty alert sent to " +:+ "root@example.com") None in
   reply answer = GoTo reports_page
   ∧ mails answer
     = (if bool_decide (warranty_expiring (mkReportContext 1 1 1 0) = 0%nat)
           || bool_decide ("root@example.com" = "") || negb (mail_up sample_env)
        then []
        else [mkEmail ("Warranty Alert: "
                       +:+ pretty (warranty_expiring (mkReportContext 1 1 1 0))
                       +:+ " assets expiring soon")
                ["root@example.com"]])
   ∧ flashes answer
     = (if bool_decide (warranty_expiring (mkReportContext 1 1 1 0) = 0%nat)
        then [mkMessage info "No assets with expiring warranties" None]
        else if bool_decide ("root@example.com" = "") then [sent]
        else if mail_up sample_env then [sent]
        else [mkMessage error "Failed to send email: " (Some SMTPException)]))
  ∧ (let answer := send_warranty_alerts sample_env sample_auth_no_email
                     sample_warranty_db (sample_post_by 7 []) in
     let sent := mkMessage success ("Warranty alert sent to " +:+ "") None in
     reply answer = GoTo reports_page
     ∧ mails answer
       = (if bool_decide (warranty_expiring (mkReportContext 1 1 1 0) = 0%nat)
             || bool_decide ("" = "") || negb (mail_up sample_env)
          then []
          else [mkEmail ("Warranty Alert: "
                         +:+ pretty (warranty_expiring (mkReportContext 1 1 1 0))
                         +:+ " assets expiring soon")
                  [""]])
     ∧ flashes answer
       = (if bool_decide (warranty_expiring (mkReportContext 1 1 1 0) = 0%nat)
          then [mkMessage info "No assets with expiring warranties" None]
          else if bool_decide ("" = "") then [sent]
          else if mail_up sample_env then [sent]
          else [mkMessage error "Failed to send email: " (Some SMTPException)])).
Proof.
  split.
  - apply (warranty_alert_matches_report sample_env sample_auth sample_warranty_db
             (sample_post_by 7 []) 7
             (User.mk "root" "root@example.com" "" "" true true true ∅)).
    + reflexivity.
    + reflexivity.
    + vm_compute. reflexivity.
  - apply (warranty_alert_matches_report sample_env sample_auth_no_email
             sample_warranty_db (sample_post_by 7 []) 7
             (User.mk "dave" "" "Dave" "Lee" true true false ∅)).
    + reflexivity.
    + reflexivity.
    + vm_compute. reflexivity.
Defined.

(** ** User management *)

Lemma not_admin_turned_away auth request pk :
  match request_user auth request with
  | Some (_, me) => is_admin auth me = false
  | None => True
  end →
  user_toggle_active auth request pk = (auth, mkAnswer (GoTo login_page) [] [])
  ∧ user_change_role auth request pk = (auth, mkAnswer (GoTo login_page) [] [])
  ∧ setup_roles auth request = (auth, mkAnswer (GoTo login_page) [] []).
Proof.
  unfold user_toggle_active, user_change_role, setup_roles, admin_only.
  destruct (request_user auth request) as [[uid me]|]; [intros ->|]; done.
Qed.

(** X17: the user management views are for administrators only: for a
    requester who is anonymous, or neither a superuser nor a member of a
    group named Admin, toggling a user, changing a role and setting up the
    roles change nothing and answer with the redirect to the login page. *)
Theorem user_management_is_admin_only auth request pk :
  match request_user auth request with
  | Some (_, me) => is_admin auth me = false
  | None => True
  end →
  user_toggle_active auth request pk = (auth, mkAnswer (GoTo login_page) [] [])
  ∧ user_change_role auth request pk = (auth, mkAnswer (GoTo login_page) [] [])
  ∧ setup_roles auth request = (auth, mkAnswer (GoTo login_page) [] []).
Proof.
  unfold user_toggle_active, user_change_role, setup_roles, admin_only.
  destruct (request_user auth request) as [[uid me]|]; [intros ->|]; done.
Qed.

Lemma user_management_is_admin_only_witness :
  user_toggle_active sample_auth (sample_post_by 9 []) 8
    = (sample_auth, mkAnswer (GoTo login_page) [] [])
  ∧ user_change_role sample_auth (sample_post_by 9 []) 8
    = (sample_auth, mkAnswer (GoTo login_page) [] [])
  ∧ setup_roles sample_auth (sample_post_by 9 [])
    = (sample_auth, mkAnswer (GoTo login_page) [] []).
Proof.
  apply (user_management_is_admin_only sample_auth (sample_post_by 9 []) 8).
  vm_compute. reflexivity.
Defined.

Lemma set_is_active_twice u :
  set_is_active (negb (negb (User.is_active u)))
    (set_is_active (negb (User.is_active u)) u) = u.
Proof. destruct u as [??????? gs]. simpl. by rewrite negb_involutive. Qed.

(** X18: an administrator cannot deactivate themselves, and toggling
    another user twice gives back the user table as it was. *)
Theorem user_toggle_active_twice auth request uid me pk :
  user request = Some uid →
  users auth !! uid = Some me →
  is_admin auth me = true →
  pk ≠ uid →
  (user_toggle_active auth request uid).1 = auth
  ∧ reply (user_toggle_active auth request uid).2 = GoTo user_list_page
  ∧ (∀ target, users auth !! pk = Some target →
       User.is_active <$> users (user_toggle_active auth request pk).1 !! pk
       = Some (negb (User.is_active target)))
  ∧ (user_toggle_active (user_toggle_active auth request pk).1 request pk).1 = auth.
Proof.
  intros Hu Hme Hadmin Hpk.
  assert (∀ a, users a !! uid = Some me → groups a = groups auth →
               request_user a request = Some (uid, me) ∧ is_admin a me = true) as Hreq.
  { intros a Ha Hg. unfold request_user. rewrite Hu, Ha. split; [done|].
    unfold is_admin in *. by rewrite Hg. }
  destruct (Hreq auth Hme eq_refl) as [Hr Ha].
  split; [|split; [|split]].
  - unfold user_toggle_active, admin_only. rewrite Hr, Ha, Hme.
    by rewrite bool_decide_eq_true_2.
  - unfold user_toggle_active, admin_only. rewrite Hr, Ha, Hme.
    by rewrite bool_decide_eq_true_2.
  - intros target Ht. unfold user_toggle_active, admin_only. rewrite Hr, Ha, Ht.
    rewrite bool_decide_eq_false_2 by done. simpl. by rewrite lookup_insert_eq.
  - unfold user_toggle_active at 2. unfold admin_only. rewrite Hr, Ha.
    destruct (users auth !! pk) as [target|] eqn:Ht; simpl.
    + rewrite bool_decide_eq_false_2 by done. simpl.
      unfold user_toggle_active, admin_only.
      destruct (Hreq (set_users
                        (<[pk := set_is_active (negb (User.is_active target)) target]>
                           (users auth)) auth)) as [-> ->]; [|done|].
      { simpl. by rewrite lookup_insert_ne. }
      simpl. rewrite lookup_insert_eq. rewrite bool_decide_eq_false_2 by done.
      simpl. rewrite insert_insert_eq, set_is_active_twice.
      unfold set_users. simpl. rewrite insert_id by done. by destruct auth.
    + unfold user_toggle_active, admin_only. by rewrite Hr, Ha, Ht.
Qed.

Lemma user_toggle_active_twice_witness :
  (user_toggle_active sample_auth (sample_post_by 7 []) 7).1 = sample_auth
  ∧ reply (user_toggle_active sample_auth (sample_post_by 7 []) 7).2
    = GoTo user_list_page
  ∧ (∀ target, users sample_auth !! 9 = Some target →
       User.is_active
         <$> users (user_toggle_active sample_auth (sample_post_by 7 []) 9).1 !! 9
       = Some (negb (User.is_active target)))
  ∧ (user_toggle_active
       (user_toggle_active sample_auth (sample_post_by 7 []) 9).1
       (sample_post_by 7 []) 9).1 = sample_auth.
Proof.
  apply (user_toggle_active_twice sample_auth (sample_post_by 7 []) 7
           (User.mk "root" "root@example.com" "" "" true true true ∅) 9).
  - reflexivity.
  - reflexivity.
  - reflexivity.
  - discriminate.
Defined.

(** X19: after a role change by an administrator the user is in one group
    at most, the group of the form: the old groups are dropped first, then
    the selected group is added; nothing else changes.  When the form names
    a group that does not exist, or an id that is not a number, the answer
    is not the redirect and the user is left without any group. *)
Theorem user_change_role_groups auth request uid me pk target :
  user request = Some uid →
  users auth !! uid = Some me →
  is_admin auth me = true →
  method request = POST →
  users auth !! pk = Some target →
  let out := user_change_role auth request pk in
  groups out.1 = groups auth
  ∧ (∀ k, k ≠ pk → users out.1 !! k = users auth !! k)
  ∧ ∃ target',
      users out.1 !! pk = Some target'
      ∧ set_groups (User.groups target) target' = target
      ∧ (size (User.groups target') ≤ 1)%nat
      ∧ (∀ g, g ∈ User.groups target' →
           is_Some (groups auth !! g)
           ∧ POST_data request !! "group_id" ≫= py_int = Some g)
      ∧ (reply out.2 ≠ GoTo (user_detail_page pk) → User.groups target' = ∅).
Proof.
  intros Hu Hme Hadmin Hm Ht out. subst out.
  unfold user_change_role, admin_only, request_user.
  rewrite Hu, Hme, Hadmin, Hm, Ht.
  assert (set_groups (User.groups target) (set_groups ∅ target) = target) as Hback.
  { by destruct target. }
  destruct (POST_data request !! "group_id") as [s|] eqn:Hs; cbn.
  - destruct (str_truthy s); cbn.
    + destruct (py_int s) as [gid|] eqn:Hint; cbn.
      * destruct (groups auth !! gid) as [group|] eqn:Hg; cbn.
        -- split; [done|]. split.
           { intros k Hk. by rewrite !lookup_insert_ne. }
           rewrite lookup_insert_eq. eexists. split; [done|]. cbn.
           split; [by destruct target|].
           rewrite union_empty_r_L. split; [by rewrite size_singleton|].
           split; [|done]. intros g Hin. rewrite union_empty_r_L in Hin.
           apply elem_of_singleton in Hin as ->. by split; [eexists|].
        -- split; [done|]. split.
           { intros k Hk. by rewrite lookup_insert_ne. }
           rewrite lookup_insert_eq. eexists. split; [done|]. cbn.
           split; [done|]. split; [by rewrite size_empty; lia|].
           split; [|done]. by intros g ?%not_elem_of_empty.
      * split; [done|]. split.
        { intros k Hk. by rewrite lookup_insert_ne. }
        rewrite lookup_insert_eq. eexists. split; [done|]. cbn.
        split; [done|]. split; [by rewrite size_empty; lia|].
        split; [|done]. by intros g ?%not_elem_of_empty.
    + split; [done|]. split.
      { intros k Hk. by rewrite lookup_insert_ne. }
      rewrite lookup_insert_eq. eexists. split; [done|]. cbn.
      split; [done|]. split; [by rewrite size_empty; lia|].
      split; [|done]. by intros g ?%not_elem_of_empty.
  - split; [done|]. split.
    { intros k Hk. by rewrite lookup_insert_ne. }
    rewrite lookup_insert_eq. eexists. split; [done|]. cbn.
    split; [done|]. split; [by rewrite size_empty; lia|].
    split; [|done]. by intros g ?%not_elem_of_empty.
Qed.

Lemma user_change_role_groups_witness :
  let out := user_change_role sample_auth (sample_post_by 7 [("group_id", "5")]) 8 in
  groups out.1 = groups sample_auth
  ∧ (∀ k, k ≠ 8 → users out.1 !! k = users sample_auth !! k)
  ∧ ∃ target',
      users out.1 !! 8 = Some target'
      ∧ set_groups
          (User.groups (User.mk "bob" "bob@example.com" "Bob" "Smith" true true false {[1]}))
          target'
        = User.mk "bob" "bob@example.com" "Bob" "Smith" true true false {[1]}
      ∧ (size (User.groups target') ≤ 1)%nat
      ∧ (∀ g, g ∈ User.groups target' →
           is_Some (groups sample_auth !! g)
           ∧ POST_data (sample_post_by 7 [("group_id", "5")]) !! "group_id" ≫= py_int
             = Some g)
      ∧ (reply out.2 ≠ GoTo (user_detail_page 8) → User.groups target' = ∅).
Proof.
  apply (user_change_role_groups sample_auth (sample_post_by 7 [("group_id", "5")]) 7
           (User.mk "root" "root@example.com" "" "" true true true ∅) 8
           (User.mk "bob" "bob@example.com" "Bob" "Smith" true true false {[1]})).
  - reflexivity.
  - reflexivity.
  - reflexivity.
  - reflexivity.
  - reflexivity.
Defined.

(** X20: the role form has no guard for the requester's own account: an
    administrator by group, not a superuser, who gives their own account a
    group that is not named Admin is no administrator afterwards, and
    every user management request they send from then on is turned away to
    the login page. *)
Theorem admin_can_drop_own_role auth request uid me s gid group :
  user request = Some uid →
  users auth !! uid = Some me →
  is_admin auth me = true →
  User.is_superuser me = false →
  method request = POST →
  POST_data request !! "group_id" = Some s → s ≠ "" → py_int s = Some gid →
  groups auth !! gid = Some group →
  Group.name group ≠ "Admin" →
  let auth' := (user_change_role auth request uid).1 in
  reply (user_change_role auth request uid).2 = GoTo (user_detail_page uid)
  ∧ ∀ pk,
      user_toggle_active auth' request pk = (auth', mkAnswer (GoTo login_page) [] [])
      ∧ user_change_role auth' request pk = (auth', mkAnswer (GoTo login_page) [] [])
      ∧ setup_roles auth' request = (auth', mkAnswer (GoTo login_page) [] []).
Proof.
  intros Hu Hme Hadmin Hsuper Hm Hs Hne Hint Hg Hname auth'.
  assert (user_change_role auth request uid
          = (set_users
               (<[uid := set_groups ({[gid]} ∪ ∅) (set_groups ∅ me)]>
                  (users (set_users (<[uid := set_groups ∅ me]> (users auth)) auth)))
               (set_users (<[uid := set_groups ∅ me]> (users auth)) auth),
             mkAnswer (GoTo (user_detail_page uid))
               [mkMessage success
                  ("User " +:+ User.username me +:+ " added to "
                   +:+ Group.name group +:+ " group") None] [])) as Hrun.
  { unfold user_change_role, admin_only, request_user.
    rewrite Hu, Hme, Hadmin, Hm, Hs. cbn. unfold str_truthy.
    rewrite bool_decide_eq_false_2 by done. cbn. by rewrite Hint, Hg. }
  subst auth'. rewrite Hrun. cbn [fst snd reply]. split; [done|].
  intros pk. apply not_admin_turned_away.
  unfold request_user. rewrite Hu. cbn. rewrite lookup_insert_eq.
  unfold is_admin. cbn. rewrite Hsuper. cbn.
  apply bool_decide_eq_false_2. intros (g & Hin & Hadm).
  rewrite union_empty_r_L in Hin. apply elem_of_singleton in Hin as ->.
  rewrite Hg in Hadm. cbn in Hadm. congruence.
Qed.

Lemma admin_can_drop_own_role_witness :
  let auth' := (user_change_role sample_auth
                  (sample_post_by 8 [("group_id", "2")]) 8).1 in
  reply (user_change_role sample_auth (sample_post_by 8 [("group_id", "2")]) 8).2
  = GoTo (user_detail_page 8)
  ∧ ∀ pk,
      user_toggle_active auth' (sample_post_by 8 [("group_id", "2")]) pk
      = (auth', mkAnswer (GoTo login_page) [] [])
      ∧ user_change_role auth' (sample_post_by 8 [("group_id", "2")]) pk
        = (auth', mkAnswer (GoTo login_page) [] [])
      ∧ setup_roles auth' (sample_post_by 8 [("group_id", "2")])
        = (auth', mkAnswer (GoTo login_page) [] []).
Proof.
  apply (admin_can_drop_own_role sample_auth (sample_post_by 8 [("group_id", "2")]) 8
           (User.mk "bob" "bob@example.com" "Bob" "Smith" true true false {[1]})
           "2" 2 (Group.mk "Viewer")).
  - reflexivity.
  - reflexivity.
  - vm_compute. reflexivity.
  - reflexivity.
  - reflexivity.
  - reflexivity.
  - discriminate.
  - reflexivity.
  - reflexivity.
  - discriminate.
Defined.

Lemma named_groups_insert_fresh n m (table : gmap Z Group.t) :
  named_groups n (<[next_pk table := Group.mk m]> table)
  = ((if bool_decide (m = n) then 1 else 0) + named_groups n table)%nat.
Proof.
  unfold named_groups. rewrite count_where_insert_fresh by apply next_pk_fresh. done.
Qed.

(** The loop over the role names, on a table where names are unique. *)
Lemma create_roles_unique names (table : gmap Z Group.t) :
  (∀ n, (named_groups n table ≤ 1)%nat) →
  ∃ table',
    create_roles names table = (table', None)
    ∧ table ⊆ table'
    ∧ (∀ n, (named_groups n table' ≤ 1)%nat)
    ∧ (∀ n, n ∈ names → named_groups n table' = 1%nat)
    ∧ (∀ n, n ∉ names → named_groups n table' = named_groups n table)
    ∧ ((∀ n, n ∈ names → named_groups n table = 1%nat) → table' = table).
Proof.
  revert table. induction names as [|name names IH]; intros table Huniq; simpl.
  { exists table. repeat split; try done. by intros n ?%not_elem_of_nil. }
  destruct (get_or_create_cases "Group"
              (λ g, bool_decide (Group.name g = name)) (Group.mk name) table)
    as [[Hc ->]|[[Hc (k & a & _ & _ & ->)]|[Hc _]]].
  - set (table1 := <[next_pk table := Group.mk name]> table).
    assert (∀ n, named_groups n table1
                 = ((if bool_decide (name = n) then 1 else 0) + named_groups n table)%nat)
      as Hn1 by (intros n; apply named_groups_insert_fresh).
    destruct (IH table1) as (table' & -> & Hsub & Hu' & Hin & Hout & _).
    { intros n. rewrite Hn1. case_bool_decide; [subst|apply Huniq].
      unfold named_groups. rewrite Hc. lia. }
    exists table'. split; [done|]. split.
    { etrans; [|exact Hsub]. apply insert_subseteq, next_pk_fresh. }
    split; [done|]. split; [|split].
    + intros n [->|Hn]%elem_of_cons; [|by apply Hin].
      destruct (decide (name ∈ names)) as [?|Hnot]; [by apply Hin|].
      rewrite (Hout _ Hnot), Hn1, bool_decide_eq_true_2 by done.
      unfold named_groups. rewrite Hc. done.
    + intros n [Hne Hn]%not_elem_of_cons. rewrite (Hout _ Hn), Hn1.
      by rewrite bool_decide_eq_false_2.
    + intros Hall. specialize (Hall name). unfold named_groups in Hall.
      rewrite Hc in Hall. by specialize (Hall (list_elem_of_here _ _)).
  - destruct (IH table Huniq) as (table' & -> & Hsub & Hu' & Hin & Hout & Hid).
    exists table'. split; [done|]. split; [done|]. split; [done|].
    split; [|split].
    + intros n [->|Hn]%elem_of_cons; [|by apply Hin].
      destruct (decide (name ∈ names)) as [?|Hnot]; [by apply Hin|].
      by rewrite (Hout _ Hnot).
    + intros n [Hne Hn]%not_elem_of_cons. by apply Hout.
    + intros Hall. apply Hid. intros n Hn. apply Hall. by right.
  - specialize (Huniq name). unfold named_groups in Huniq. lia.
Qed.

(** X21: setting up the roles is idempotent.  On a group table with unique
    names, run by an administrator, it leaves exactly one group for each of
    Admin, Manager, Technician and Viewer, keeps every group that was there
    and the user table, and redirects to the user list; run again, it
    changes nothing. *)
Theorem setup_roles_idempotent auth request uid me :
  user request = Some uid →
  users auth !! uid = Some me →
  is_admin auth me = true →
  (∀ n, (named_groups n (groups auth) ≤ 1)%nat) →
  let out := setup_roles auth request in
  reply out.2 = GoTo user_list_page
  ∧ users out.1 = users auth
  ∧ groups auth ⊆ groups out.1
  ∧ (∀ n, n ∈ roles → named_groups n (groups out.1) = 1%nat)
  ∧ (∀ n, n ∉ roles → named_groups n (groups out.1) = named_groups n (groups auth))
  ∧ setup_roles out.1 request = out.
Proof.
  intros Hu Hme Hadmin Huniq out.
  destruct (create_roles_unique roles (groups auth) Huniq)
    as (table' & Hrun & Hsub & Hu' & Hin & Hout & _).
  assert (out = (mkAuth (users auth) table',
                 mkAnswer (GoTo user_list_page)
                   [mkMessage success
                      "Default roles created: Admin, Manager, Technician, Viewer" None]
                   [])) as Hrun1.
  { subst out. unfold setup_roles, admin_only, request_user.
    by rewrite Hu, Hme, Hadmin, Hrun. }
  rewrite Hrun1. cbn [fst snd reply users groups].
  do 5 (split; [done|]).
  destruct (create_roles_unique roles table' Hu') as (table'' & Hrun2 & _ & _ & _ & _ & Hid).
  rewrite (Hid Hin) in Hrun2.
  unfold setup_roles, admin_only, request_user. cbn [users groups].
  rewrite Hu, Hme.
  assert (is_admin (mkAuth (users auth) table') me = true) as ->.
  { unfold is_admin in *. cbn [groups].
    apply orb_true_iff in Hadmin as [->|Hgrp]; [done|].
    apply orb_true_iff. right.
    apply bool_decide_eq_true in Hgrp as (g & Hg & Hname).
    apply bool_decide_eq_true. exists g. split; [done|].
    destruct (groups auth !! g) as [grp|] eqn:Hlook; [|done].
    by rewrite (lookup_weaken _ _ _ _ Hlook Hsub). }
  by rewrite Hrun2.
Qed.

Lemma sample_groups_unique n : (named_groups n (groups sample_auth) ≤ 1)%nat.
Proof.
  unfold named_groups, sample_auth. cbn [groups].
  rewrite count_where_insert_fresh by done.
  rewrite <- insert_empty, count_where_insert_fresh by done.
  unfold count_where at 1. rewrite map_filter_empty, map_size_empty.
  cbn [Group.name]. repeat case_bool_decide; simplify_eq; lia.
Qed.

Lemma setup_roles_idempotent_witness :
  let out := setup_roles sample_auth (sample_post_by 7 []) in
  reply out.2 = GoTo user_list_page
  ∧ users out.1 = users sample_auth
  ∧ groups sample_auth ⊆ groups out.1
  ∧ (∀ n, n ∈ roles → named_groups n (groups out.1) = 1%nat)
  ∧ (∀ n, n ∉ roles
          → named_groups n (groups out.1) = named_groups n (groups sample_auth))
  ∧ setup_roles out.1 (sample_post_by 7 []) = out.
Proof.
  apply (setup_roles_idempotent sample_auth (sample_post_by 7 []) 7
           (User.mk "root" "root@example.com" "" "" true true true ∅)).
  - reflexivity.
  - reflexivity.
  - reflexivity.
  - exact sample_groups_unique.
Defined.

(** ** The history on the page of an employee *)

Lemma prefix_append (s t : string) : String.prefix s (s +:+ t) = true.
Proof.
  induction s as [|c s IH]; [by destruct t|].
  change (String c s +:+ t) with (String c (s +:+ t)). simpl.
  by destruct (ascii_dec c c).
Qed.

Lemma contains_unfold (needle hay : string) :
  contains needle hay
  = String.prefix needle hay
    || match hay with
       | String _ hay' => contains needle hay'
       | EmptyString => false
       end.
Proof. by destruct hay. Qed.

Lemma contains_append (s t : string) : contains s (s +:+ t) = true.
Proof. by rewrite contains_unfold, prefix_append. Qed.

Lemma append_empty_r (s : string) : s +:+ "" = s.
Proof.
  induction s as [|c s IH]; [done|].
  change (String c s +:+ "") with (String c (s +:+ "")). by rewrite IH.
Qed.

Lemma like_fold_append (s t : string) :
  like_fold (s +:+ t) = like_fold s +:+ like_fold t.
Proof.
  induction s as [|c s IH]; [done|].
  change (String c s +:+ t) with (String c (s +:+ t)). simpl. by rewrite IH.
Qed.

Lemma icontains_prefix (s t : string) : icontains (Some (s +:+ t)) s = true.
Proof. unfold icontains. rewrite like_fold_append. apply contains_append. Qed.

Lemma icontains_self (s : string) : icontains (Some s) s = true.
Proof. rewrite <- (append_empty_r s) at 1. apply icontains_prefix. Qed.

(** X22: the history rows of Assign and Unassign show up on the pages of
    the employees concerned.  In a store within the schema constraints, the
    filter of the employee page matches the row of every Assign call for
    the new assignee and, when the asset had one, for the prior assignee
    (whose name is in the old value, before the employee id); and it
    matches the row of every Unassign call for the employee the asset is
    taken from.  Each half holds on its own. *)
Theorem history_rows_mention_employees env db u :
  schema_ok db →
  (∀ request pk asset epk employee,
      assets db !! pk = Some asset →
      employees db !! epk = Some employee →
      assign_call request u epk →
      ∃ h : AssetHistory.t,
        history (store (assign_asset env db request pk)) = history db ++ [h]
        ∧ mentions employee h = true
        ∧ ∀ prior, Asset.assigned_to asset ≫= (employees db !!.) = Some prior →
                   mentions prior h = true)
  ∧ (∀ request pk asset old,
      assets db !! pk = Some asset →
      Asset.assigned_to asset = Some old →
      unassign_call request u →
      ∃ (h : AssetHistory.t) prior,
        history (store (unassign_asset env db request pk)) = history db ++ [h]
        ∧ employees db !! old = Some prior
        ∧ mentions prior h = true).
Proof.
  intros Hok. split.
  - intros request pk asset epk employee Hasset Hemp Hassign.
    destruct (assign_asset_store env db request pk u epk asset employee)
      as (o & Ho & _ & ->); try done.
    eexists. split; [done|]. unfold mentions.
    cbn [AssetHistory.new_value AssetHistory.old_value]. split.
    + by rewrite icontains_self.
    + intros prior Hprior. unfold related_employee in Ho.
      destruct (Asset.assigned_to asset) as [e|]; simpl in Hprior; [|done].
      rewrite Hprior in Ho. injection Ho as <-.
      assert (Employee.str prior
              = Employee.full_name prior
                +:+ (" (" +:+ Employee.employee_id prior +:+ ")")) as ->.
      { unfold Employee.str, Employee.full_name. by rewrite !append_assoc. }
      rewrite icontains_prefix. apply orb_true_r.
  - intros request pk asset old Hasset Hold Hunassign.
    destruct (unassign_asset_store env db request pk u asset old)
      as (o & Ho & _ & ->); try done.
    eexists _, o. split; [done|]. split; [done|].
    unfold mentions. cbn [AssetHistory.new_value AssetHistory.old_value].
    rewrite icontains_self. apply orb_true_r.
Qed.

Lemma history_rows_mention_employees_witness :
  (∃ h : AssetHistory.t,
      history (store (assign_asset sample_env sample_unassigned_db
                        (sample_post [("employee_id", "1")]) 1))
      = history sample_unassigned_db ++ [h]
      ∧ mentions sample_employee1 h = true
      ∧ ∀ prior,
          Asset.assigned_to sample_asset ≫= (employees sample_unassigned_db !!.)
          = Some prior →
          mentions prior h = true)
  ∧ (∃ h : AssetHistory.t,
      history (store (assign_asset sample_env sample_db
                        (sample_post [("employee_id", "2")]) 2))
      = history sample_db ++ [h]
      ∧ mentions sample_employee2 h = true
      ∧ ∀ prior,
          Asset.assigned_to sample_assigned_asset ≫= (employees sample_db !!.)
          = Some prior →
          mentions prior h = true)
  ∧ (∃ (h : AssetHistory.t) prior,
      history (store (unassign_asset sample_env sample_db (sample_post []) 2))
      = history sample_db ++ [h]
      ∧ employees sample_db !! 1 = Some prior
      ∧ mentions prior h = true).
Proof.
  split; [|split].
  - apply (proj1 (history_rows_mention_employees sample_env sample_unassigned_db 7
                    sample_unassigned_db_ok)
             (sample_post [("employee_id", "1")]) 1 sample_asset 1 sample_employee1).
    + reflexivity.
    + reflexivity.
    + split; [reflexivity|]. split; [reflexivity|].
      exists "1". split; [reflexivity|]. split; [discriminate|reflexivity].
  - apply (proj1 (history_rows_mention_employees sample_env sample_db 7 sample_db_ok)
             (sample_post [("employee_id", "2")]) 2 sample_assigned_asset 2
             sample_employee2).
    + reflexivity.
    + reflexivity.
    + split; [reflexivity|]. split; [reflexivity|].
      exists "2". split; [reflexivity|]. split; [discriminate|reflexivity].
  - apply (proj2 (history_rows_mention_employees sample_env sample_db 7 sample_db_ok)
             (sample_post []) 2 sample_assigned_asset 1).
    + reflexivity.
    + reflexivity.
    + split; reflexivity.
Defined.

(** ** Bulk import of employees *)

Lemma Employee_save_cases now pk obj table :
  (employee_clashes pk obj table ≠ ∅
   ∧ Employee_save now pk obj table = inl (IntegrityError "employee"))
  ∨ (employee_clashes pk obj table = ∅
     ∧ Employee_save now pk obj table
       = inr (<[default (next_pk table) pk
                := touch_employee now (bool_decide (pk = None)) obj]> table)).
Proof. unfold Employee_save. case_bool_decide; [right|left]; done. Qed.

Lemma no_clash_other pk obj (table : gmap Z Employee.t) k e :
  employee_clashes pk obj table = ∅ →
  table !! k = Some e → Some k ≠ pk →
  Employee.employee_id e ≠ Employee.employee_id obj
  ∧ Employee.email e ≠ Employee.email obj.
Proof.
  intros Hno Hk Hpk.
  pose proof (map_filter_empty_not_lookup _ _ k e Hno) as Hnot.
  split; intros Heq; apply Hnot; try done; simpl; split; auto.
Qed.

Lemma Employee_save_unique now pk obj table table' :
  unique_employees table →
  Employee_save now pk obj table = inr table' →
  unique_employees table'.
Proof.
  intros Huniq Hsave.
  destruct (Employee_save_cases now pk obj table) as [[_ Hs]|[Hno Hs]];
    rewrite Hs in Hsave; [done|]. injection Hsave as <-.
  set (k := default (next_pk table) pk).
  assert (∀ k' e', table !! k' = Some e' → k' ≠ k →
                   Employee.employee_id e' ≠ Employee.employee_id obj
                   ∧ Employee.email e' ≠ Employee.email obj) as Hother.
  { intros k' e' Hk' Hne. apply (no_clash_other pk obj table k' e' Hno Hk').
    intros <-. by apply Hne. }
  intros k1 k2 e1 e2 H1 H2 Heq.
  destruct (decide (k1 = k)) as [->|Hn1], (decide (k2 = k)) as [->|Hn2]; [done| | |].
  - rewrite lookup_insert_eq in H1. rewrite lookup_insert_ne in H2 by done.
    injection H1 as <-. destruct (Hother k2 e2 H2 Hn2) as [Hid Hmail].
    simpl in Heq. destruct Heq as [Heq|Heq]; [by destruct Hid|by destruct Hmail].
  - rewrite lookup_insert_eq in H2. rewrite lookup_insert_ne in H1 by done.
    injection H2 as <-. destruct (Hother k1 e1 H1 Hn1) as [Hid Hmail].
    simpl in Heq. destruct Heq as [Heq|Heq]; [by destruct Hid|by destruct Hmail].
  - rewrite lookup_insert_ne in H1, H2 by done. by apply (Huniq k1 k2 e1 e2).
Qed.

(** What [update_or_create] has done to the employee table when it
    returns: the row under one key is new or rewritten, with the employee
    id asked for. *)
Lemma Employee_update_or_create_returns now eid d table table' :
  Employee_update_or_create now eid d table = inr table' →
  ∃ k e,
    table' = <[k := e]> table
    ∧ Employee.employee_id e = eid
    ∧ Employee.first_name e = e_first_name d
    ∧ Employee.last_name e = e_last_name d
    ∧ Employee.email e = e_email d
    ∧ Employee.is_active e = e_is_active d
    ∧ Employee.updated_at e = now
    ∧ match table !! k with
      | Some e0 =>
          Employee.employee_id e0 = eid
          ∧ Employee.hire_date e = Employee.hire_date e0
          ∧ Employee.created_at e = Employee.created_at e0
      | None =>
          Employee.hire_date e = None ∧ Employee.created_at e = now
      end.
Proof.
  unfold Employee_update_or_create.
  destruct (objects_get _ _ _) as [ex|[k e0]] eqn:Hget.
  - destruct ex; try done.
    destruct (Employee_save_cases now None (Employee_new eid d) table)
      as [[_ ->]|[_ ->]]; [done|].
    intros [= <-]. eexists _, _. split; [done|]. simpl.
    rewrite next_pk_fresh. by repeat split.
  - apply objects_get_found in Hget as (Hk & Hid & _).
    apply bool_decide_eq_true in Hid.
    destruct (Employee_save_cases now (Some k) (Employee_update d e0) table)
      as [[_ ->]|[_ ->]]; [done|].
    intros [= <-]. eexists _, _. split; [done|]. simpl.
    rewrite Hk. by repeat split.
Qed.

(** One row of the employee import: what it leaves, by its result. *)
Lemma import_employee_row_cases now cols row p :
  departments p ⊆ departments (import_employee_row now cols row p).1
  ∧ match (import_employee_row now cols row p).2 with
    | Some _ => staff (import_employee_row now cols row p).1 = staff p
    | None =>
        ∃ d, Employee_update_or_create now (strip (cell_str row "employee_id")) d
               (staff p)
             = inr (staff (import_employee_row now cols row p).1)
             ∧ e_first_name d = strip (cell_str row "first_name")
             ∧ e_last_name d = strip (cell_str row "last_name")
             ∧ e_email d = strip (cell_str row "email")
             ∧ e_is_active d = true
    end.
Proof.
  unfold import_employee_row.
  destruct (present cols row "department") as [v|].
  - destruct (get_or_create _ _ _ _) as [e|[[k b] table]] eqn:Hgoc; simpl; [done|].
    apply (get_or_create_grows _ _ _ _ _ k b table eq_refl) in Hgoc.
    destruct (Employee_update_or_create _ _ _ _) as [e|staff'] eqn:Huoc; simpl;
      (split; [done|]); [done|]. eexists. split; [exact Huoc|done].
  - destruct (Employee_update_or_create _ _ _ _) as [e|staff'] eqn:Huoc; simpl;
      (split; [done|]); [done|]. eexists. split; [exact Huoc|done].
Qed.

Lemma Employee_update_or_create_unique now eid d table table' :
  unique_employees table →
  Employee_update_or_create now eid d table = inr table' →
  unique_employees table'.
Proof.
  intros Huniq. unfold Employee_update_or_create.
  destruct (objects_get _ _ _) as [ex|[k e0]]; [destruct ex; try done|];
    by apply Employee_save_unique.
Qed.

#[local] Instance staff_kept_refl : Reflexive staff_kept.
Proof. intros table k e Hk. eauto. Qed.

#[local] Instance staff_kept_trans : Transitive staff_kept.
Proof.
  intros t1 t2 t3 H12 H23 k e Hk.
  destruct (H12 k e Hk) as (e2 & Hk2 & Hid2).
  destruct (H23 k e2 Hk2) as (e3 & Hk3 & Hid3).
  exists e3. split; [done|congruence].
Qed.

(** One row keeps the constraints, the employees and the departments. *)
Lemma import_employee_row_keeps now cols row p :
  unique_employees (staff p) →
  unique_employees (staff (import_employee_row now cols row p).1)
  ∧ staff_kept (staff p) (staff (import_employee_row now cols row p).1)
  ∧ departments p ⊆ departments (import_employee_row now cols row p).1.
Proof.
  intros Huniq.
  destruct (import_employee_row_cases now cols row p) as [Hdep Hres].
  destruct ((import_employee_row now cols row p).2) as [e|].
  - rewrite Hres. done.
  - destruct Hres as (d & Huoc & _). split; [|split; [|done]].
    + by eapply Employee_update_or_create_unique.
    + apply Employee_update_or_create_returns in Huoc
        as (k & e & -> & Hid & _ & _ & _ & _ & _ & Hold).
      intros k' e' Hk'. destruct (decide (k' = k)) as [->|Hne].
      * rewrite lookup_insert_eq. rewrite Hk' in Hold. destruct Hold as (Hid0 & _).
        exists e. split; [done|congruence].
      * rewrite lookup_insert_ne by done. eauto.
Qed.

Lemma import_employee_rows_keeps now cols rs p s e :
  unique_employees (staff p) →
  unique_employees (staff (import_employee_rows now cols rs p s e).1.1)
  ∧ staff_kept (staff p) (staff (import_employee_rows now cols rs p s e).1.1)
  ∧ departments p ⊆ departments (import_employee_rows now cols rs p s e).1.1.
Proof.
  revert p s e. induction rs as [|row rs IH]; intros p s e Huniq; simpl; [done|].
  destruct (import_employee_row_keeps now cols row p Huniq) as (Hu1 & Hk1 & Hd1).
  destruct (import_employee_row now cols row p) as [p1 [ex|]]; simpl in *;
    [destruct (IH p1 s (S e) Hu1) as (? & ? & ?)
    |destruct (IH p1 (S s) e Hu1) as (? & ? & ?)];
    (split; [done|]); split; by etrans.
Qed.

(** X23: the employee import keeps the constraints of the employee table
    and removes nobody: from a table with unique employee ids and unique
    email addresses it leads to such a table, every employee row is still
    there under its key with its employee id (so no assignment is left
    dangling), and departments are only added, whatever the upload. *)
Theorem bulk_import_employees_keeps_constraints env p request :
  unique_employees (staff p) →
  let p' := (bulk_import_employees env p request).1 in
  unique_employees (staff p')
  ∧ staff_kept (staff p) (staff p')
  ∧ departments p ⊆ departments p'.
Proof.
  intros Huniq p'. subst p'. unfold bulk_import_employees.
  repeat case_match; simpl; try done.
  match goal with
  | H : import_employee_rows ?n ?c ?rs p ?s ?e = (?q, _, _) |- _ =>
      pose proof (import_employee_rows_keeps n c rs p s e Huniq) as Hkeep;
      by rewrite H in Hkeep
  end.
Qed.

(** X24: the employee import counts every row once, as imported or as an
    error. *)
Theorem import_employee_rows_counts now cols rs p s e :
  ((import_employee_rows now cols rs p s e).1.2
   + (import_employee_rows now cols rs p s e).2
   = s + e + length rs)%nat.
Proof.
  revert p s e. induction rs as [|row rs IH]; intros p s e; simpl; [lia|].
  destruct (import_employee_row now cols row p) as [p1 [ex|]]; rewrite IH; lia.
Qed.

(** X25: the employee import is an upsert by employee id that activates: a
    row that imports leaves, under one key, an active employee with the
    employee id, names and email address of the row, stripped, stamped
    now; when that key held an employee it was the one with this employee
    id, and its hire date and creation time stay; every other employee row
    is as before. *)
Theorem employee_import_activates now cols row p :
  (import_employee_row now cols row p).2 = None →
  let table' := staff (import_employee_row now cols row p).1 in
  ∃ k e,
    table' !! k = Some e
    ∧ (∀ k', k' ≠ k → table' !! k' = staff p !! k')
    ∧ Employee.employee_id e = strip (cell_str row "employee_id")
    ∧ Employee.first_name e = strip (cell_str row "first_name")
    ∧ Employee.last_name e = strip (cell_str row "last_name")
    ∧ Employee.email e = strip (cell_str row "email")
    ∧ Employee.is_active e = true
    ∧ Employee.updated_at e = now
    ∧ match staff p !! k with
      | Some e0 =>
          Employee.employee_id e0 = strip (cell_str row "employee_id")
          ∧ Employee.hire_date e = Employee.hire_date e0
          ∧ Employee.created_at e = Employee.created_at e0
      | None => Employee.hire_date e = None ∧ Employee.created_at e = now
      end.
Proof.
  intros Hok table'. subst table'.
  destruct (import_employee_row_cases now cols row p) as [_ Hres].
  rewrite Hok in Hres. destruct Hres as (d & Huoc & Hf & Hl & Hm & Ha).
  apply Employee_update_or_create_returns in Huoc
    as (k & e & -> & Hid & Hf' & Hl' & Hm' & Ha' & Ht & Hold).
  exists k, e. rewrite lookup_insert_eq. split; [done|]. split.
  { intros k' Hk'. by rewrite lookup_insert_ne. }
  do 6 (split; [congruence|]). exact Hold.
Qed.

(** X26: an email address belongs to one employee: a row that carries the
    address of an employee with another employee id is counted as an error,
    and the employee table is left as it was. *)
Theorem employee_import_rejects_taken_email now cols row p k e :
  staff p !! k = Some e →
  Employee.email e = strip (cell_str row "email") →
  Employee.employee_id e ≠ strip (cell_str row "employee_id") →
  is_Some (import_employee_row now cols row p).2
  ∧ staff (import_employee_row now cols row p).1 = staff p.
Proof.
  intros Hk Hmail Hid.
  destruct (import_employee_row_cases now cols row p) as [_ Hres].
  destruct ((import_employee_row now cols row p).2) as [ex|]; [by split; [eexists|]|].
  exfalso. destruct Hres as (d & Huoc & _ & _ & Hm & _).
  assert (∀ pk obj, Some k ≠ pk → Employee.email obj = e_email d →
                    employee_clashes pk obj (staff p) ≠ ∅) as Hclash.
  { intros pk obj Hpk Hobj Hno.
    apply (map_filter_empty_not_lookup _ _ k e Hno); [|done].
    simpl. split; [right; congruence|done]. }
  revert Huoc. unfold Employee_update_or_create.
  destruct (objects_get _ _ _) as [ex|[k0 e0]] eqn:Hget.
  - destruct ex; try done.
    destruct (Employee_save_cases now None
                (Employee_new (strip (cell_str row "employee_id")) d) (staff p))
      as [[_ ->]|[Hno _]]; [done|].
    by destruct (Hclash None
                   (Employee_new (strip (cell_str row "employee_id")) d)).
  - apply objects_get_found in Hget as (Hk0 & Hid0 & _).
    apply bool_decide_eq_true in Hid0.
    destruct (Employee_save_cases now (Some k0) (Employee_update d e0) (staff p))
      as [[_ ->]|[Hno _]]; [done|].
    destruct (Hclash (Some k0) (Employee_update d e0)); [|done|done].
    intros [= <-]. congruence.
Qed.

Lemma sample_people_unique : unique_employees (staff sample_people).
Proof.
  intros k1 k2 e1 e2 H1 H2 Heq. unfold sample_people, sample_db in *. simpl in *.
  apply lookup_insert_Some in H1 as [[<- <-]|[? H1]];
    [|apply lookup_singleton_Some in H1 as [<- <-]];
    (apply lookup_insert_Some in H2 as [[<- <-]|[? H2]];
     [|apply lookup_singleton_Some in H2 as [<- <-]]);
    try done; by destruct Heq.
Qed.

Lemma bulk_import_employees_keeps_constraints_witness :
  let p' := (bulk_import_employees sample_env sample_people
               (sample_employee_upload [sample_employee_row; sample_clash_row])).1 in
  unique_employees (staff p')
  ∧ staff_kept (staff sample_people) (staff p')
  ∧ departments sample_people ⊆ departments p'.
Proof.
  apply (bulk_import_employees_keeps_constraints sample_env sample_people
           (sample_employee_upload [sample_employee_row; sample_clash_row])).
  exact sample_people_unique.
Defined.

Lemma employee_import_activates_witness :
  let table' := staff (import_employee_row (now sample_env) sample_employee_columns
                         sample_employee_row sample_people).1 in
  ∃ k e,
    table' !! k = Some e
    ∧ (∀ k', k' ≠ k → table' !! k' = staff sample_people !! k')
    ∧ Employee.employee_id e = strip (cell_str sample_employee_row "employee_id")
    ∧ Employee.first_name e = strip (cell_str sample_employee_row "first_name")
    ∧ Employee.last_name e = strip (cell_str sample_employee_row "last_name")
    ∧ Employee.email e = strip (cell_str sample_employee_row "email")
    ∧ Employee.is_active e = true
    ∧ Employee.updated_at e = now sample_env
    ∧ match staff sample_people !! k with
      | Some e0 =>
          Employee.employee_id e0 = strip (cell_str sample_employee_row "employee_id")
          ∧ Employee.hire_date e = Employee.hire_date e0
          ∧ Employee.created_at e = Employee.created_at e0
      | None => Employee.hire_date e = None ∧ Employee.created_at e = now sample_env
      end.
Proof.
  apply (employee_import_activates (now sample_env) sample_employee_columns
           sample_employee_row sample_people).
  vm_compute. reflexivity.
Defined.

Lemma employee_import_rejects_taken_email_witness :
  is_Some (import_employee_row (now sample_env) sample_employee_columns
             sample_clash_row sample_people).2
  ∧ staff (import_employee_row (now sample_env) sample_employee_columns
             sample_clash_row sample_people).1
    = staff sample_people.
Proof.
  apply (employee_import_rejects_taken_email (now sample_env) sample_employee_columns
           sample_clash_row sample_people 1 sample_employee1).
  - reflexivity.
  - vm_compute. reflexivity.
  - vm_compute. discriminate.
Defined.
